(** * AIGoalCoach: the goal-refinement pipeline

    A shallow embedding of [GeminiService] (the refinement orchestrator, the
    AI gateway with its retry loop, the response parser and the zod schema),
    of [TelemetryService.logAICall] and of [GoalController.refineGoal],
    followed by the properties of the pipeline; then of the rest of the
    server ([StorageService], the other methods of [GoalController],
    [TelemetryService.getLogs]) and of the evaluation suite
    ([test_evals.js]), with their properties.

    Conventions of the embedding:
    - a JavaScript string is the list of its UTF-16 code units;
    - a JavaScript number is an exact rational: the values the pipeline
      compares are small integers, and neither the rounding to doubles nor
      NaN and the infinities are modelled;
    - a decoded JSON document is a [value];
    - [async] methods are computations over an explicit [World]: the
      environment variables, the mutable fields of the two service
      singletons, the answers of the network, of the telemetry table and of
      the clock, and the trace of the effects performed so far;
    - an exception is the [Throw] outcome of a computation;
    - writes to the console are not part of the model. *)

From Stdlib Require Import String Ascii Bool Arith NArith ZArith QArith List Lia.
Import ListNotations.

Local Open Scope list_scope.
Local Open Scope nat_scope.

(* ================================================================== *)
(** ** JavaScript strings *)
(* ================================================================== *)

Module JsString.

(** A string is its sequence of 16-bit code units. *)
Definition jsstring := list N.

(** String literals of the source, written as Rocq strings. *)
Definition lit (s : string) : jsstring :=
  map N_of_ascii (list_ascii_of_string s).

Definition dquote : jsstring := [34%N].
Definition newline : jsstring := [10%N].
Definition backtick : N := 96%N.

Definition eqb (a b : jsstring) : bool :=
  if list_eq_dec N.eq_dec a b then true else false.

(** [s.length === 0] *)
Definition is_empty (s : jsstring) : bool :=
  match s with [] => true | _ :: _ => false end.

(** ECMAScript WhiteSpace and LineTerminator code points: the set that
    [String.prototype.trim] strips and that [\s] matches. *)
Definition is_ws (c : N) : bool :=
  existsb (N.eqb c)
    [9; 10; 11; 12; 13; 32; 160; 5760; 8232; 8233; 8239; 8287; 12288; 65279]%N
  || (N.leb 8192 c && N.leb c 8202).

Fixpoint trimStart (s : jsstring) : jsstring :=
  match s with
  | c :: s' => if is_ws c then trimStart s' else s
  | [] => []
  end.

Definition trimEnd (s : jsstring) : jsstring := rev (trimStart (rev s)).

(** [String.prototype.trim] *)
Definition trim (s : jsstring) : jsstring := trimEnd (trimStart s).

(** [strip_prefix p s] is [Some r] when [s = p ++ r]. *)
Fixpoint strip_prefix (p s : jsstring) : option jsstring :=
  match p, s with
  | [], _ => Some s
  | a :: p', b :: s' => if N.eqb a b then strip_prefix p' s' else None
  | _ :: _, [] => None
  end.

(** [occurs p s]: [p] is a substring of [s]. *)
Fixpoint occurs (p s : jsstring) : bool :=
  match strip_prefix p s with
  | Some _ => true
  | None => match s with [] => false | _ :: s' => occurs p s' end
  end.

(** Decimal rendering of a natural number, as in a template literal. *)
Fixpoint digits_fuel (fuel n : nat) (acc : jsstring) : jsstring :=
  match fuel with
  | O => acc
  | S f =>
      let d := N.of_nat (48 + n mod 10) in
      if n / 10 =? 0 then d :: acc else digits_fuel f (n / 10) (d :: acc)
  end.

Definition of_nat (n : nat) : jsstring := digits_fuel (S n) n [].

End JsString.

Import JsString.

(* ================================================================== *)
(** ** Outcomes of a call: a returned value or a thrown error *)
(* ================================================================== *)

Inductive result (E A : Type) : Type :=
| Ok (a : A)
| Throw (e : E).

Arguments Ok {E A} a.
Arguments Throw {E A} e.

(* ================================================================== *)
(** ** JavaScript values *)
(* ================================================================== *)

Module Js.

#[local] Unset Elimination Schemes.

Inductive value : Type :=
| VUndefined
| VNull
| VBool (b : bool)
| VNum (q : Q)
| VStr (s : jsstring)
| VArr (items : list value)
| VObj (fields : list (jsstring * value)).

#[local] Set Elimination Schemes.

(** ToBoolean *)
Definition truthy (v : value) : bool :=
  match v with
  | VUndefined | VNull => false
  | VBool b => b
  | VNum q => negb (Qeq_bool q 0)
  | VStr s => negb (is_empty s)
  | VArr _ | VObj _ => true
  end.

Definition nullish (v : value) : bool :=
  match v with VUndefined | VNull => true | _ => false end.

(** Own property lookup on the field list of an object. *)
Fixpoint lookup (k : jsstring) (fields : list (jsstring * value)) : value :=
  match fields with
  | [] => VUndefined
  | (k', v) :: rest => if JsString.eqb k k' then v else lookup k rest
  end.

(** [v.name] for the property names the pipeline reads ([candidates],
    [content], [parts], [text], [error], [message]); none of them is
    defined on the prototypes of arrays, strings, numbers or booleans. *)
Definition member (v : value) (name : jsstring) : value :=
  match v with
  | VObj fields => lookup name fields
  | _ => VUndefined
  end.

(** [v[0]] *)
Definition index0 (v : value) : value :=
  match v with
  | VArr (x :: _) => x
  | VObj fields => lookup (lit "0") fields
  | VStr (c :: _) => VStr [c]
  | _ => VUndefined
  end.

(** [v?.name] and [v?.[0]] *)
Definition opt_member (v : value) (name : jsstring) : value :=
  if nullish v then VUndefined else member v name.

Definition opt_index0 (v : value) : value :=
  if nullish v then VUndefined else index0 v.

(** The name [typeof] gives, as zod reports it in an issue. *)
Definition type_name (v : value) : jsstring :=
  match v with
  | VUndefined => lit "undefined"
  | VNull => lit "null"
  | VBool _ => lit "boolean"
  | VNum _ => lit "number"
  | VStr _ => lit "string"
  | VArr _ => lit "array"
  | VObj _ => lit "object"
  end.

(** [Number.isInteger] *)
Definition isInteger (q : Q) : bool := Pos.eqb (Qden (Qred q)) 1.

Definition Qltb (a b : Q) : bool := negb (Qle_bool b a).

End Js.

Import Js.

(* ================================================================== *)
(** ** Regular expressions

    The fragment of the regular-expression language used by
    [parseResponse]: literals, an optional literal, a greedy star over a
    character class and one lazy capturing star over a character class.
    Matching is by backtracking, with the priorities of the ECMAScript
    matcher (a greedy quantifier tries the longest repetition first, a lazy
    one the shortest). *)
(* ================================================================== *)

Module Regex.

Inductive atom : Type :=
| Lit (s : jsstring)
| Opt (s : jsstring)
| Star (cls : N -> bool)
| LazyGroup (cls : N -> bool).

Definition regex := list atom.

Definition any (_ : N) : bool := true.

Section Quantifiers.
Variable cls : N -> bool.
(** The rest of the pattern; it returns the text of the capture group
    when the group is in that rest. *)
Variable k : jsstring -> option jsstring.

Fixpoint greedy (s : jsstring) : option jsstring :=
  match s with
  | c :: s' =>
      if cls c then
        match greedy s' with
        | Some g => Some g
        | None => k s
        end
      else k s
  | [] => k s
  end.

Fixpoint lazy (acc s : jsstring) : option jsstring :=
  match k s with
  | Some _ => Some (rev acc)
  | None =>
      match s with
      | c :: s' => if cls c then lazy (c :: acc) s' else None
      | [] => None
      end
  end.
End Quantifiers.

(** [match_here r s]: [r] matches a prefix of [s]; the result is the text
    of the capture group (the empty string when [r] has none). *)
Fixpoint match_here (r : regex) : jsstring -> option jsstring :=
  match r with
  | [] => fun _ => Some []
  | a :: r' =>
      let k := match_here r' in
      match a with
      | Lit l => fun s =>
          match strip_prefix l s with
          | Some s' => k s'
          | None => None
          end
      | Opt l => fun s =>
          match strip_prefix l s with
          | Some s' =>
              match k s' with
              | Some g => Some g
              | None => k s
              end
          | None => k s
          end
      | Star cls => greedy cls k
      | LazyGroup cls => lazy cls k []
      end
  end.

(** [String.prototype.match] with a non-global pattern: the leftmost
    position at which the pattern matches; [None] is [null], [Some g] is a
    match whose group 1 is [g]. *)
Fixpoint search (r : regex) (s : jsstring) : option jsstring :=
  match match_here r s with
  | Some g => Some g
  | None =>
      match s with
      | [] => None
      | _ :: s' => search r s'
      end
  end.

End Regex.

(* ================================================================== *)
(** ** JSON

    [JSON.parse] on the grammar of ECMA-404, and the part of
    [JSON.stringify] that the token estimate needs.  Numbers are read
    exactly.  The text of the SyntaxError depends on the engine and on the
    offending token; the model keeps one text for an early end of input and
    one for every other error. *)
(* ================================================================== *)

Module JSON.

Definition is_json_ws (c : N) : bool :=
  N.eqb c 32 || N.eqb c 9 || N.eqb c 10 || N.eqb c 13.

Fixpoint skip_ws (s : jsstring) : jsstring :=
  match s with
  | c :: s' => if is_json_ws c then skip_ws s' else s
  | [] => []
  end.

Definition is_digit (c : N) : bool := N.leb 48 c && N.leb c 57.

Definition hex_value (c : N) : option N :=
  if N.leb 48 c && N.leb c 57 then Some (c - 48)%N
  else if N.leb 97 c && N.leb c 102 then Some (c - 87)%N
  else if N.leb 65 c && N.leb c 70 then Some (c - 55)%N
  else None.

Definition hex4 (a b c d : N) : option N :=
  match hex_value a, hex_value b, hex_value c, hex_value d with
  | Some x, Some y, Some z, Some w => Some (((x * 16 + y) * 16 + z) * 16 + w)%N
  | _, _, _, _ => None
  end.

(** The simple escapes: what follows the backslash, and the code unit it
    stands for. *)
Definition simple_escape (c : N) : option N :=
  if N.eqb c 34 then Some 34%N          (* quote *)
  else if N.eqb c 92 then Some 92%N     (* backslash *)
  else if N.eqb c 47 then Some 47%N     (* slash *)
  else if N.eqb c 98 then Some 8%N      (* b *)
  else if N.eqb c 102 then Some 12%N    (* f *)
  else if N.eqb c 110 then Some 10%N    (* n *)
  else if N.eqb c 114 then Some 13%N    (* r *)
  else if N.eqb c 116 then Some 9%N     (* t *)
  else None.

(** The characters of a string literal, after its opening quote. *)
Fixpoint parse_chars (s : jsstring) : option (jsstring * jsstring) :=
  match s with
  | [] => None
  | c :: r =>
      if N.eqb c 34 then Some ([], r)
      else if N.eqb c 92 then
        match r with
        | e :: r1 =>
            if N.eqb e 117 then
              match r1 with
              | h1 :: h2 :: h3 :: h4 :: r2 =>
                  match hex4 h1 h2 h3 h4, parse_chars r2 with
                  | Some u, Some (cs, rest) => Some (u :: cs, rest)
                  | _, _ => None
                  end
              | _ => None
              end
            else
              match simple_escape e, parse_chars r1 with
              | Some u, Some (cs, rest) => Some (u :: cs, rest)
              | _, _ => None
              end
        | [] => None
        end
      else if N.ltb c 32 then None
      else
        match parse_chars r with
        | Some (cs, rest) => Some (c :: cs, rest)
        | None => None
        end
  end.

Fixpoint take_digits (s : jsstring) : list N * jsstring :=
  match s with
  | c :: r =>
      if is_digit c then let (ds, rest) := take_digits r in (c :: ds, rest)
      else ([], s)
  | [] => ([], [])
  end.

Definition digits_value (ds : list N) : Z :=
  fold_left (fun acc d => (acc * 10 + Z.of_N (d - 48))%Z) ds 0%Z.

(** The integer part: a single zero, or digits not starting with zero. *)
Definition parse_int (s : jsstring) : option (list N * jsstring) :=
  match take_digits s with
  | ([], _) => None
  | ([d], rest) => Some ([d], rest)
  | (d :: ds, rest) => if N.eqb d 48 then Some ([d], ds ++ rest) else Some (d :: ds, rest)
  end.

Definition parse_frac (s : jsstring) : option (list N * jsstring) :=
  match s with
  | c :: r =>
      if N.eqb c 46 then
        match take_digits r with
        | ([], _) => None
        | (ds, rest) => Some (ds, rest)
        end
      else Some ([], s)
  | [] => Some ([], [])
  end.

Definition parse_exp (s : jsstring) : option (Z * jsstring) :=
  match s with
  | c :: r =>
      if N.eqb c 101 || N.eqb c 69 then
        let '(neg, r1) :=
          match r with
          | sg :: r' =>
              if N.eqb sg 45 then (true, r')
              else if N.eqb sg 43 then (false, r')
              else (false, r)
          | [] => (false, r)
          end in
        match take_digits r1 with
        | ([], _) => None
        | (ds, rest) =>
            Some ((if neg then - digits_value ds else digits_value ds)%Z, rest)
        end
      else Some (0%Z, s)
  | [] => Some (0%Z, [])
  end.

Definition scale (m e : Z) : Q :=
  Qred (if (0 <=? e)%Z then (m * 10 ^ e)%Z # 1
        else m # Z.to_pos (10 ^ (- e))).

Definition parse_number (s : jsstring) : option (Q * jsstring) :=
  let '(neg, s1) :=
    match s with
    | c :: r => if N.eqb c 45 then (true, r) else (false, s)
    | [] => (false, s)
    end in
  match parse_int s1 with
  | None => None
  | Some (ip, s2) =>
      match parse_frac s2 with
      | None => None
      | Some (fp, s3) =>
          match parse_exp s3 with
          | None => None
          | Some (e, s4) =>
              let m := digits_value (ip ++ fp) in
              Some (scale (if neg then - m else m) (e - Z.of_nat (length fp)), s4)
          end
      end
  end.

(** A repeated key keeps its place and takes the later value. *)
Fixpoint set_field (k : jsstring) (v : value) (fields : list (jsstring * value))
  : list (jsstring * value) :=
  match fields with
  | [] => [(k, v)]
  | (k', v') :: rest =>
      if JsString.eqb k k' then (k', v) :: rest else (k', v') :: set_field k v rest
  end.

(** One value, given the parsers of what lies between its brackets. *)
Definition value_step
  (elements : jsstring -> option (list value * jsstring))
  (members : jsstring -> option (list (jsstring * value) * jsstring))
  (s : jsstring) : option (value * jsstring) :=
  match skip_ws s with
  | [] => None
  | c :: r =>
      if N.eqb c 34 then
        match parse_chars r with
        | Some (str, rest) => Some (VStr str, rest)
        | None => None
        end
      else if N.eqb c 91 then
        match skip_ws r with
        | c' :: r' =>
            if N.eqb c' 93 then Some (VArr [], r')
            else
              match elements r with
              | Some (vs, rest) => Some (VArr vs, rest)
              | None => None
              end
        | [] => None
        end
      else if N.eqb c 123 then
        match skip_ws r with
        | c' :: r' =>
            if N.eqb c' 125 then Some (VObj [], r')
            else
              match members r with
              | Some (fs, rest) => Some (VObj fs, rest)
              | None => None
              end
        | [] => None
        end
      else
        match strip_prefix (lit "null") (c :: r),
              strip_prefix (lit "true") (c :: r),
              strip_prefix (lit "false") (c :: r) with
        | Some rest, _, _ => Some (VNull, rest)
        | _, Some rest, _ => Some (VBool true, rest)
        | _, _, Some rest => Some (VBool false, rest)
        | None, None, None =>
            match parse_number (c :: r) with
            | Some (q, rest) => Some (VNum q, rest)
            | None => None
            end
        end
  end.

(** The elements of an array, up to its closing bracket. *)
Definition elements_step
  (element : jsstring -> option (value * jsstring))
  (elements : jsstring -> option (list value * jsstring))
  (s : jsstring) : option (list value * jsstring) :=
  match element s with
  | None => None
  | Some (v, r) =>
      match skip_ws r with
      | c :: r' =>
          if N.eqb c 44 then
            match elements r' with
            | Some (vs, rest) => Some (v :: vs, rest)
            | None => None
            end
          else if N.eqb c 93 then Some ([v], r')
          else None
      | [] => None
      end
  end.

(** The members of an object, up to its closing brace. *)
Definition members_step
  (element : jsstring -> option (value * jsstring))
  (members : list (jsstring * value) -> jsstring
             -> option (list (jsstring * value) * jsstring))
  (acc : list (jsstring * value)) (s : jsstring)
  : option (list (jsstring * value) * jsstring) :=
  match skip_ws s with
  | q :: r0 =>
      if N.eqb q 34 then
        match parse_chars r0 with
        | None => None
        | Some (key, r1) =>
            match skip_ws r1 with
            | colon :: r2 =>
                if N.eqb colon 58 then
                  match element r2 with
                  | None => None
                  | Some (v, r3) =>
                      let acc' := set_field key v acc in
                      match skip_ws r3 with
                      | c :: r4 =>
                          if N.eqb c 44 then members acc' r4
                          else if N.eqb c 125 then Some (acc', r4)
                          else None
                      | [] => None
                      end
                  end
                else None
            | [] => None
            end
        end
      else None
  | [] => None
  end.

(** The recursive descent, cut off at a depth of [fuel] nested calls;
    [parse] gives it all the depth that a text of its length can use (see
    [parse_value_fuel]). *)
Fixpoint parse_value (fuel : nat) (s : jsstring) : option (value * jsstring) :=
  match fuel with
  | O => None
  | S f => value_step (parse_elements f) (parse_members f []) s
  end

with parse_elements (fuel : nat) (s : jsstring) : option (list value * jsstring) :=
  match fuel with
  | O => None
  | S f => elements_step (parse_value f) (parse_elements f) s
  end

with parse_members (fuel : nat) (acc : list (jsstring * value)) (s : jsstring)
  : option (list (jsstring * value) * jsstring) :=
  match fuel with
  | O => None
  | S f => members_step (parse_value f) (parse_members f) acc s
  end.

Definition SyntaxError_end : jsstring := lit "Unexpected end of JSON input".
Definition SyntaxError_token : jsstring := lit "Unexpected token in JSON".

(** [JSON.parse(text)]: one value, surrounded by optional white space. *)
Definition parse (text : jsstring) : result jsstring value :=
  match skip_ws text with
  | [] => Throw SyntaxError_end
  | _ :: _ =>
      match parse_value (2 * length text + 2) text with
      | Some (v, rest) =>
          match skip_ws rest with
          | [] => Ok v
          | _ :: _ => Throw SyntaxError_token
          end
      | None => Throw SyntaxError_token
      end
  end.

(** *** The renderer *)

Definition hex_digit (n : N) : N := if N.ltb n 10 then (48 + n)%N else (87 + n)%N.

(** [\uXXXX], lower-case digits *)
Definition unicode_escape (c : N) : jsstring :=
  [92; 117; hex_digit (c / 4096); hex_digit ((c / 256) mod 16);
   hex_digit ((c / 16) mod 16); hex_digit (c mod 16)]%N.

Definition is_high_surrogate (c : N) : bool := N.leb 55296 c && N.leb c 56319.
Definition is_low_surrogate (c : N) : bool := N.leb 56320 c && N.leb c 57343.

Definition escape_unit (c : N) : jsstring :=
  if N.eqb c 8 then [92; 98]%N
  else if N.eqb c 9 then [92; 116]%N
  else if N.eqb c 10 then [92; 110]%N
  else if N.eqb c 12 then [92; 102]%N
  else if N.eqb c 13 then [92; 114]%N
  else if N.eqb c 34 then [92; 34]%N
  else if N.eqb c 92 then [92; 92]%N
  else if N.ltb c 32 then unicode_escape c
  else [c].

(** QuoteJSONString without its quotes: a surrogate is copied when it is
    half of a pair and escaped when it stands alone. *)
Fixpoint quote_units (s : jsstring) : jsstring :=
  match s with
  | [] => []
  | c :: r =>
      if is_high_surrogate c then
        match r with
        | d :: r' =>
            if is_low_surrogate d then c :: d :: quote_units r'
            else unicode_escape c ++ quote_units r
        | [] => unicode_escape c
        end
      else if is_low_surrogate c then unicode_escape c ++ quote_units r
      else escape_unit c ++ quote_units r
  end.

Definition quote (s : jsstring) : jsstring := dquote ++ quote_units s ++ dquote.

(** An integer, as [Number::toString] writes it. *)
Definition render_int (z : Z) : jsstring :=
  (if (z <? 0)%Z then lit "-" else []) ++ JsString.of_nat (Z.abs_nat z).

Fixpoint join (sep : jsstring) (parts : list jsstring) : jsstring :=
  match parts with
  | [] => []
  | [x] => x
  | x :: rest => x ++ sep ++ join sep rest
  end.

End JSON.

(* ================================================================== *)
(** ** zod

    The schema combinators that [goalSchema] is built from, with the
    behaviour of zod 3: a value of the wrong type yields one
    [invalid_type] issue and its checks are skipped; otherwise every check
    runs and every failing check adds its issue; an array reports the
    issues of its own checks and then those of each element; an object
    parses every key of its shape, reading an absent key as [undefined], and
    drops the keys that are not in the shape.  [parse] throws a ZodError
    carrying all the issues as soon as there is one. *)
(* ================================================================== *)

Module Zod.

Inductive PathSeg : Type :=
| Key (k : jsstring)
| Index (i : nat).

Inductive IssueCode : Type := invalid_type | too_small | too_big.

Record ZodIssue : Type := mkIssue {
  code : IssueCode;
  path : list PathSeg;
  message : jsstring
}.

Inductive Parsed (A : Type) : Type :=
| Valid (a : A)
| Invalid (issues : list ZodIssue).

Arguments Valid {A} a.
Arguments Invalid {A} issues.

Definition Schema (A : Type) : Type := list PathSeg -> value -> Parsed A.

(** The issue of the default error map for a value of the wrong type. *)
Definition type_issue (expected : jsstring) (v : value) (p : list PathSeg) : ZodIssue :=
  mkIssue invalid_type p
    (match v with
     | VUndefined => lit "Required"
     | _ => lit "Expected " ++ expected ++ lit ", received " ++ type_name v
     end).

Definition finish {A : Type} (a : A) (issues : list ZodIssue) : Parsed A :=
  match issues with
  | [] => Valid a
  | _ :: _ => Invalid issues
  end.

(** [z.string()] with its checks *)
Inductive StringCheck : Type :=
| str_min (value : nat) (message : jsstring).

Definition run_string_check (s : jsstring) (p : list PathSeg) (c : StringCheck)
  : list ZodIssue :=
  match c with
  | str_min n msg => if length s <? n then [mkIssue too_small p msg] else []
  end.

Definition z_string (checks : list StringCheck) : Schema jsstring :=
  fun p v =>
    match v with
    | VStr s => finish s (flat_map (run_string_check s p) checks)
    | _ => Invalid [type_issue (lit "string") v p]
    end.

(** [z.number()] with its checks *)
Inductive NumberCheck : Type :=
| num_int
| num_min (value : Q) (message : jsstring)
| num_max (value : Q) (message : jsstring).

Definition run_number_check (q : Q) (p : list PathSeg) (c : NumberCheck)
  : list ZodIssue :=
  match c with
  | num_int =>
      if isInteger q then []
      else [mkIssue invalid_type p (lit "Expected integer, received float")]
  | num_min m msg => if Qltb q m then [mkIssue too_small p msg] else []
  | num_max m msg => if Qltb m q then [mkIssue too_big p msg] else []
  end.

Definition z_number (checks : list NumberCheck) : Schema Q :=
  fun p v =>
    match v with
    | VNum q => finish q (flat_map (run_number_check q p) checks)
    | _ => Invalid [type_issue (lit "number") v p]
    end.

(** [z.array(element)] with its length checks *)
Inductive ArrayCheck : Type :=
| arr_min (value : nat) (message : jsstring)
| arr_max (value : nat) (message : jsstring).

Definition run_array_check (len : nat) (p : list PathSeg) (c : ArrayCheck)
  : list ZodIssue :=
  match c with
  | arr_min n msg => if len <? n then [mkIssue too_small p msg] else []
  | arr_max n msg => if n <? len then [mkIssue too_big p msg] else []
  end.

(** Two results merged: valid when both are, and otherwise the issues of
    the first followed by those of the second. *)
Definition combine {A B : Type} (f : Parsed (A -> B)) (x : Parsed A) : Parsed B :=
  match f, x with
  | Valid g, Valid a => Valid (g a)
  | Valid _, Invalid j => Invalid j
  | Invalid i, Valid _ => Invalid i
  | Invalid i, Invalid j => Invalid (i ++ j)
  end.

(** The elements from index [i] on, each parsed at its own path. *)
Fixpoint parse_items {A : Type} (element : Schema A) (p : list PathSeg)
  (i : nat) (items : list value) : Parsed (list A) :=
  match items with
  | [] => Valid []
  | x :: rest =>
      combine (combine (Valid cons) (element (p ++ [Index i]) x))
        (parse_items element p (S i) rest)
  end.

Definition z_array {A : Type} (element : Schema A) (checks : list ArrayCheck)
  : Schema (list A) :=
  fun p v =>
    match v with
    | VArr items =>
        combine
          (finish (fun outs : list A => outs)
             (flat_map (run_array_check (length items) p) checks))
          (parse_items element p 0 items)
    | _ => Invalid [type_issue (lit "array") v p]
    end.

(** [z.object({...})] for a shape of three keys *)
Definition field {A : Type} (entry : jsstring * Schema A) (p : list PathSeg)
  (fields : list (jsstring * value)) : Parsed A :=
  snd entry (p ++ [Key (fst entry)]) (lookup (fst entry) fields).

Definition z_object {A B C R : Type} (build : A -> B -> C -> R)
  (e1 : jsstring * Schema A) (e2 : jsstring * Schema B) (e3 : jsstring * Schema C)
  : Schema R :=
  fun p v =>
    match v with
    | VObj fields =>
        combine (combine (combine (Valid build) (field e1 p fields))
                   (field e2 p fields))
          (field e3 p fields)
    | _ => Invalid [type_issue (lit "object") v p]
    end.

(** [schema.parse(data)] *)
Definition parse {A : Type} (schema : Schema A) (data : value)
  : result (list ZodIssue) A :=
  match schema [] data with
  | Valid a => Ok a
  | Invalid issues => Throw issues
  end.

End Zod.

Import Zod.

(* ================================================================== *)
(** ** The data of the pipeline *)
(* ================================================================== *)

(** The object that [goalSchema.parse] returns, and the literal that
    [handleEmptyInput] builds. *)
Record RefinedGoal : Type := mkGoal {
  refined_goal : jsstring;
  key_results : list jsstring;
  confidence_score : Q
}.

(** What [refineGoal] resolves to: a goal object, or the object
    [{ error: ... }] of the guardrail. *)
Inductive Refinement : Type :=
| Goal (g : RefinedGoal)
| Rejection (error : jsstring).

(** [goalSchema] *)
Definition goalSchema : Schema RefinedGoal :=
  z_object mkGoal
    (lit "refined_goal",
     z_string [str_min 1 (lit "refined_goal must be a non-empty string")])
    (lit "key_results",
     z_array (z_string [str_min 1 (lit "Each key result must be a non-empty string")])
       [arr_min 3 (lit "key_results must have at least 3 items");
        arr_max 5 (lit "key_results must have at most 5 items")])
    (lit "confidence_score",
     z_number [num_int;
               num_min 1 (lit "confidence_score must be at least 1");
               num_max 10 (lit "confidence_score must be at most 10")]).

(* ================================================================== *)
(** ** Errors

    The message of an error is text.  Where a template literal splices in a
    rendering that the model does not compute (the string form of a number
    or of an array, the JSON text of a list of zod issues), the message
    keeps the rendered object in place of its text. *)
(* ================================================================== *)

Inductive Rendering : Type :=
| ToString (v : value)
| IssueList (issues : list ZodIssue).

Inductive Message : Type :=
| Text (s : jsstring)
| Splice (before : jsstring) (r : Rendering) (after : Message).

(** [`${p}${m}`] *)
Definition prefixed (p : jsstring) (m : Message) : Message :=
  match m with
  | Text s => Text (p ++ s)
  | Splice b r a => Splice (p ++ b) r a
  end.

(** [`${v}`] *)
Definition display (v : value) : Message :=
  match v with
  | VStr s => Text s
  | VBool true => Text (lit "true")
  | VBool false => Text (lit "false")
  | VNull => Text (lit "null")
  | VUndefined => Text (lit "undefined")
  | VObj _ => Text (lit "[object Object]")
  | VNum _ | VArr _ => Splice [] (ToString v) (Text [])
  end.

(** [m || fallback] on a message *)
Definition message_or (m : Message) (fallback : jsstring) : Message :=
  match m with
  | Text [] => Text fallback
  | _ => m
  end.

Inductive JsError : Type :=
| Error (message : Message)
| ZodError (issues : list ZodIssue).

(** [error.message] *)
Definition message_of (e : JsError) : Message :=
  match e with
  | Error m => m
  | ZodError issues => Splice [] (IssueList issues) (Text [])
  end.

(** The TypeError of reading a property of [null] or [undefined]. *)
Definition TypeError_read (v : value) (name : jsstring) : JsError :=
  Error (Text (lit "Cannot read properties of " ++ type_name v
               ++ lit " (reading '" ++ name ++ lit "')")).

(* ================================================================== *)
(** ** The world outside the pipeline *)
(* ================================================================== *)

(** [generationConfig.responseSchema] of [buildRequestBody] *)
Record ResponseSchema : Type := mkResponseSchema {
  refined_goal_type : jsstring;
  key_results_items_type : jsstring;
  minItems : nat;
  maxItems : nat;
  confidence_score_type : jsstring;
  minimum : Z;
  maximum : Z;
  required : list jsstring
}.

Record GenerationConfig : Type := mkGenerationConfig {
  temperature : Q;
  topK : nat;
  topP : Q;
  maxOutputTokens : nat;
  responseMimeType : jsstring;
  responseSchema : ResponseSchema
}.

(** The body of the request: the text of its one part, and the
    configuration. *)
Record RequestBody : Type := mkRequestBody {
  contents_text : jsstring;
  generationConfig : GenerationConfig
}.

(** What one call of [fetch] meets. *)
Inductive HttpBody : Type :=
| BodyJson (data : value)               (* [response.json()] resolves *)
| BodyUnreadable (message : jsstring).  (* [response.json()] rejects *)

Inductive FetchOutcome : Type :=
| FetchRejected (message : jsstring)    (* the promise of [fetch] rejects *)
| FetchResponse (status : nat) (statusText : jsstring) (body : HttpBody).

(** [response.ok] *)
Definition response_ok (status : nat) : bool := (200 <=? status) && (status <=? 299).

(** What one insert into the table [ai_call_logs] meets. *)
Inductive InsertOutcome : Type :=
| InsertRows (rows : nat)               (* [{ data: [...], error: null }] *)
| InsertNoData                          (* [{ data: null, error: null }] *)
| InsertError (message : jsstring)      (* [{ error }] with that message *)
| InsertRejected (message : jsstring).  (* the promise rejects *)

(** The argument of [logAICall]. *)
Record TelemetryData : Type := mkTelemetryData {
  userInput : jsstring;
  aiOutput : option RefinedGoal;
  latencyMs : Z;
  promptTokens : nat;
  completionTokens : nat;
  model : jsstring;
  success : bool;
  errorMessage : option Message
}.

(** The row that [logAICall] inserts. *)
Record LogEntry : Type := mkLogEntry {
  timestamp : Z;
  entry_model : jsstring;
  entry_success : bool;
  latency_ms : Z;
  prompt_tokens : nat;
  completion_tokens : nat;
  total_tokens : nat;
  input_cost : Q;
  completion_cost : Q;
  total_cost : Q;
  input : jsstring;
  output : option RefinedGoal;
  error_message : option Message
}.

Inductive Event : Type :=
| EvFetch (url : jsstring) (body : RequestBody)
| EvDelay (ms : nat)
| EvInsert (entry : LogEntry).

(** [process.env] *)
Record Env : Type := mkEnv {
  GOOGLE_API_KEY : option jsstring;
  SUPABASE_API_KEY : option jsstring
}.

Record World : Type := mkWorld {
  env : Env;
  gemini_apiKey : option jsstring;   (* [GeminiService._apiKey] *)
  telemetry_initialized : bool;      (* [TelemetryService.initialized] *)
  network : nat -> FetchOutcome;     (* what the next calls of [fetch] meet *)
  table : nat -> InsertOutcome;      (* what the next inserts meet *)
  clock : nat -> Z;                  (* what the next readings of the clock give *)
  trace : list Event                 (* the effects so far, oldest first *)
}.

(** A variable that [process.env] does not define, or defines as the empty
    string, is falsy. *)
Definition falsy (o : option jsstring) : bool :=
  match o with
  | None => true
  | Some s => is_empty s
  end.

(* ================================================================== *)
(** ** Computations *)
(* ================================================================== *)

Definition M (A : Type) : Type := World -> result JsError A * World.

Definition ret {A : Type} (a : A) : M A := fun w => (Ok a, w).

Definition throw {A : Type} (e : JsError) : M A := fun w => (Throw e, w).

Definition bind {A B : Type} (m : M A) (f : A -> M B) : M B :=
  fun w =>
    match m w with
    | (Ok a, w') => f a w'
    | (Throw e, w') => (Throw e, w')
    end.

(** [try { m } catch (error) { handler }] *)
Definition try_catch {A : Type} (m : M A) (handler : JsError -> M A) : M A :=
  fun w =>
    match m w with
    | (Ok a, w') => (Ok a, w')
    | (Throw e, w') => handler e w'
    end.

Declare Scope js_scope.
Delimit Scope js_scope with js.
Notation "x <- m ;; k" := (bind m (fun x => k))
  (at level 61, m at next level, right associativity) : js_scope.
Notation "m ;; k" := (bind m (fun _ => k))
  (at level 61, right associativity) : js_scope.
Local Open Scope js_scope.

(** A result that is already known. *)
Definition settle {A : Type} (r : result JsError A) : M A := fun w => (r, w).

Definition emit (ev : Event) : M unit :=
  fun w => (Ok tt,
            mkWorld (env w) (gemini_apiKey w) (telemetry_initialized w)
              (network w) (table w) (clock w) (trace w ++ [ev])).

(** [Date.now()] *)
Definition Date_now : M Z :=
  fun w => (Ok (clock w 0),
            mkWorld (env w) (gemini_apiKey w) (telemetry_initialized w)
              (network w) (table w) (fun n => clock w (S n)) (trace w)).

(** [fetch(url, { method: 'POST', ..., body })] *)
Definition fetch (url : jsstring) (body : RequestBody) : M FetchOutcome :=
  fun w => (Ok (network w 0),
            mkWorld (env w) (gemini_apiKey w) (telemetry_initialized w)
              (fun n => network w (S n)) (table w) (clock w)
              (trace w ++ [EvFetch url body])).

(** [supabase.from('ai_call_logs').insert([logEntry]).select()] *)
Definition insert (entry : LogEntry) : M InsertOutcome :=
  fun w => (Ok (table w 0),
            mkWorld (env w) (gemini_apiKey w) (telemetry_initialized w)
              (network w) (fun n => table w (S n)) (clock w)
              (trace w ++ [EvInsert entry])).

(* ================================================================== *)
(** ** The server and its tables

    The state that the other methods of the controller work on: the world
    of the pipeline, the flag of the [StorageService] singleton, and the
    answers of Supabase to the queries on the tables [goals] and
    [ai_call_logs].  An awaited query resolves to [{ data, error }], with
    data and no error or with an error that has a code and a message, or
    it rejects. *)
(* ================================================================== *)

Record PostgrestError : Type := mkPostgrestError {
  error_code : jsstring;
  error_text : jsstring
}.

Inductive Settled : Type :=
| Data (data : value)
| Failure (error : PostgrestError).

Inductive Answer : Type :=
| Resolved (r : Settled)
| QueryRejected (message : jsstring).

Inductive Query : Type :=
| InsertGoal (goal : value)
| SelectGoals
| SelectGoal (id : jsstring)
| UpdateGoal (id : jsstring) (updateData : list (jsstring * value))
| DeleteGoal (id : jsstring)
| CountLogs
| SelectLogs (date : option jsstring).

Record Server : Type := mkServer {
  pipeline : World;
  storage_initialized : bool;   (* [StorageService.initialized] *)
  answers : nat -> Answer;      (* what the next queries meet *)
  queries : list Query          (* the queries sent so far, oldest first *)
}.

Definition SM (A : Type) : Type := Server -> result JsError A * Server.

Definition sret {A : Type} (a : A) : SM A := fun s => (Ok a, s).

Definition sthrow {A : Type} (e : JsError) : SM A := fun s => (Throw e, s).

Definition sbind {A B : Type} (m : SM A) (f : A -> SM B) : SM B :=
  fun s =>
    match m s with
    | (Ok a, s') => f a s'
    | (Throw e, s') => (Throw e, s')
    end.

Definition scatch {A : Type} (m : SM A) (handler : JsError -> SM A) : SM A :=
  fun s =>
    match m s with
    | (Ok a, s') => (Ok a, s')
    | (Throw e, s') => handler e s'
    end.

(** A computation of the pipeline, run in the server. *)
Definition lift {A : Type} (m : M A) : SM A :=
  fun s =>
    let (r, w) := m (pipeline s) in
    (r, mkServer w (storage_initialized s) (answers s) (queries s)).

Declare Scope server_scope.
Delimit Scope server_scope with server.
Notation "x <- m ;; k" := (sbind m (fun x => k))
  (at level 61, m at next level, right associativity) : server_scope.
Notation "m ;; k" := (sbind m (fun _ => k))
  (at level 61, right associativity) : server_scope.

(** One query, awaited. *)
Definition query (q : Query) : SM Settled :=
  fun s =>
    (match answers s 0 with
     | Resolved r => Ok r
     | QueryRejected m => Throw (Error (Text m))
     end,
     mkServer (pipeline s) (storage_initialized s)
       (fun n => answers s (S n)) (queries s ++ [q])).

(** [v.length] *)
Definition js_length (v : value) : value :=
  match v with
  | VArr items => VNum (inject_Z (Z.of_nat (length items)))
  | VStr s => VNum (inject_Z (Z.of_nat (length s)))
  | VObj fields => lookup (lit "length") fields
  | _ => VUndefined
  end.

(** Arrays and strings have a [slice] method; no other value does. *)
Definition has_slice (v : value) : bool :=
  match v with
  | VArr _ | VStr _ => true
  | _ => false
  end.

(** [v === 0] *)
Definition is_zero (v : value) : bool :=
  match v with
  | VNum q => Qeq_bool q 0
  | _ => false
  end.

(* ================================================================== *)
(** ** TelemetryService *)
(* ================================================================== *)

Module TelemetryService.

(** [initialize()] *)
Definition initialize : M unit :=
  fun w =>
    if telemetry_initialized w then (Ok tt, w)
    else if falsy (SUPABASE_API_KEY (env w)) then
      (Throw (Error (Text (lit
         "SUPABASE_API_KEY environment variable is not set. Please add it to your .env file."))),
       w)
    else
      (Ok tt,
       mkWorld (env w) (gemini_apiKey w) true
         (network w) (table w) (clock w) (trace w)).

Definition per_million (tokens : nat) (rate : Q) : Q :=
  ((Z.of_nat tokens # 1) / (1000000 # 1) * rate)%Q.

(** The row built from the argument and the time stamp.  The time stamp is
    kept as the reading of the clock, not as its ISO text, and the costs are
    exact. *)
Definition logEntry (now : Z) (d : TelemetryData) : LogEntry :=
  let inputCost := per_million (promptTokens d) (75 # 1000) in
  let outputCost := per_million (completionTokens d) (3 # 10) in
  mkLogEntry now (model d) (success d) (latencyMs d)
    (promptTokens d) (completionTokens d)
    (promptTokens d + completionTokens d)
    inputCost outputCost (inputCost + outputCost)%Q
    (userInput d) (aiOutput d) (errorMessage d).

(** What [logAICall] makes of the answer of the table: it throws the
    error of the answer, and reads the first row of the data. *)
Definition read_insert (answer : InsertOutcome) : result JsError unit :=
  match answer with
  | InsertRows _ => Ok tt
  | InsertNoData =>
      Throw (Error (Text (lit "Cannot read properties of null (reading '0')")))
  | InsertError m => Throw (Error (Text m))
  | InsertRejected m => Throw (Error (Text m))
  end.

(** [logAICall(telemetryData)]; the row it returns is not used by the
    pipeline. *)
Definition logAICall (telemetryData : TelemetryData) : M unit :=
  initialize ;;
  now <- Date_now ;;
  answer <- insert (logEntry now telemetryData) ;;
  settle (read_insert answer).

(** *** Reading the log *)

(** The body of the [try] of [getLogs]: the count is only written to the
    console, and so are the first two rows, [data?.slice(0, 2)], which
    throws a [TypeError] on data that has no [slice]. *)
Definition getLogs_try (date : option jsstring) : SM value :=
  (query CountLogs ;;
   answer <- query (SelectLogs (if falsy date then None else date)) ;;
   match answer with
   | Failure error => sthrow (Error (Text (error_text error)))
   | Data data =>
       if nullish data then sret (VArr [])
       else if has_slice data then sret (if truthy data then data else VArr [])
       else sthrow (Error (Text (lit "data?.slice is not a function")))
   end)%server.

(** [getLogs(date = null)] *)
Definition getLogs (date : option jsstring) : SM value :=
  (lift initialize ;;
   scatch (getLogs_try date) (fun _ => sret (VArr [])))%server.

End TelemetryService.

(* ================================================================== *)
(** ** GeminiService *)
(* ================================================================== *)

Module GeminiService.

Definition baseUrl : jsstring :=
  lit "https://generativelanguage.googleapis.com/v1beta/models".

Definition model : jsstring := lit "gemini-2.5-flash".

(** [get apiKey()]: the cached key, read from the environment while the
    cache is falsy. *)
Definition apiKey : M (option jsstring) :=
  fun w =>
    if falsy (gemini_apiKey w) then
      (Ok (GOOGLE_API_KEY (env w)),
       mkWorld (env w) (GOOGLE_API_KEY (env w)) (telemetry_initialized w)
         (network w) (table w) (clock w) (trace w))
    else (Ok (gemini_apiKey w), w).

(** [buildPrompt(userInput)] *)
Definition buildPrompt (userInput : jsstring) : jsstring :=
  lit "You are an expert goal-setting coach. Analyze the following vague goal and convert it into a SMART goal (Specific, Measurable, Achievable, Relevant, Time-bound)."
  ++ newline ++ newline
  ++ lit "User Input: " ++ dquote ++ userInput ++ dquote
  ++ newline ++ newline
  ++ lit "Respond with a JSON object containing:" ++ newline
  ++ lit "1. refined_goal: A clear, SMART version of the goal" ++ newline
  ++ lit "2. key_results: An array of 3-5 measurable milestones/key results" ++ newline
  ++ lit "3. confidence_score: A number 1-10 indicating your confidence that the input was actually a goal (0 = definitely not a goal, 10 = definitely a valid goal)"
  ++ newline ++ newline
  ++ lit "If the input is nonsensical or obviously not a goal, set confidence_score to a low number and provide the best interpretation you can."
  ++ newline ++ newline
  ++ lit "Return ONLY valid JSON, no markdown formatting.".

(** [buildRequestBody(prompt)] *)
Definition buildRequestBody (prompt : jsstring) : RequestBody :=
  mkRequestBody prompt
    (mkGenerationConfig (7 # 10) 40 (95 # 100) 1024 (lit "application/json")
       (mkResponseSchema (lit "string") (lit "string") 3 5 (lit "integer") 1 10
          [lit "refined_goal"; lit "key_results"; lit "confidence_score"])).

(** [estimateTokens(text)]: [Math.ceil(text.length / 4)] *)
Definition estimateTokens (text : jsstring) : nat := (length text + 3) / 4.

(** [delay(ms)], awaited *)
Definition delay (ms : nat) : M unit := emit (EvDelay ms).

(** [errorData.error?.message || response.statusText] *)
Definition error_detail (errorData : value) (statusText : jsstring)
  : result JsError Message :=
  if nullish errorData then Throw (TypeError_read errorData (lit "error"))
  else
    let m := opt_member (member errorData (lit "error")) (lit "message") in
    Ok (if truthy m then display m else Text statusText).

(** What [callGeminiAPI] makes of the outcome of its [fetch]: the lines
    from [await fetch] to [return data]. *)
Definition read_response (response : FetchOutcome) : result JsError value :=
  match response with
  | FetchRejected m => Throw (Error (Text m))
  | FetchResponse status statusText body =>
      if negb (response_ok status) then
        match body with
        | BodyUnreadable m => Throw (Error (Text m))
        | BodyJson errorData =>
            match error_detail errorData statusText with
            | Throw e => Throw e
            | Ok detail =>
                Throw (Error (prefixed
                  (lit "Gemini API error (" ++ JsString.of_nat status ++ lit "): ")
                  detail))
            end
        end
      else
        match body with
        | BodyUnreadable m => Throw (Error (Text m))
        | BodyJson data => Ok data
        end
  end.

(** The body of the [try] of [callGeminiAPI].  The address reads [apiKey]
    a second time; the cache is filled by then, and the reading returns the
    same key. *)
Definition callGeminiAPI_try (requestBody : RequestBody) : M value :=
  key <- apiKey ;;
  if falsy key then
    throw (Error (Text (lit "GOOGLE_API_KEY environment variable is not set")))
  else
    let url := baseUrl ++ lit "/" ++ model ++ lit ":generateContent?key="
               ++ match key with Some k => k | None => [] end in
    response <- fetch url requestBody ;;
    settle (read_response response).

(** [callGeminiAPI(requestBody)] *)
Definition callGeminiAPI (requestBody : RequestBody) : M value :=
  try_catch (callGeminiAPI_try requestBody)
    (fun error =>
       throw (Error (prefixed (lit "Failed to call Gemini API: ") (message_of error)))).

(** The loop of [callGeminiAPIWithRetry], with [left] iterations to go:
    [left = maxRetries - attempt + 1]. *)
Fixpoint retry_loop (left attempt maxRetries : nat) (requestBody : RequestBody)
  : M value :=
  match left with
  | O => ret VUndefined
  | S left' =>
      try_catch (callGeminiAPI requestBody)
        (fun error =>
           if attempt =? maxRetries then throw error
           else
             delay 4000 ;;
             retry_loop left' (S attempt) maxRetries requestBody)
  end.

(** [callGeminiAPIWithRetry(requestBody, maxRetries = 3)] *)
Definition callGeminiAPIWithRetry (requestBody : RequestBody) (maxRetries : nat)
  : M value :=
  retry_loop maxRetries 1 maxRetries requestBody.

(** The pattern of the fenced code block in [parseResponse]: three
    backticks, an optional [json], white space, the lazily captured
    content, white space, three backticks. *)
Definition fence : jsstring := [backtick; backtick; backtick].

Definition fence_pattern : Regex.regex :=
  [Regex.Lit fence; Regex.Opt (lit "json"); Regex.Star is_ws;
   Regex.LazyGroup Regex.any; Regex.Star is_ws; Regex.Lit fence].

(** The body of the [try] of [parseResponse]. *)
Definition parseResponse_try (apiResponse : value) : result JsError value :=
  if nullish apiResponse then Throw (TypeError_read apiResponse (lit "candidates"))
  else
    let textContent :=
      opt_member
        (opt_index0
           (opt_member
              (opt_member (opt_index0 (member apiResponse (lit "candidates")))
                 (lit "content"))
              (lit "parts")))
        (lit "text") in
    if negb (truthy textContent) then
      Throw (Error (Text (lit "Invalid API response structure")))
    else
      match textContent with
      | VStr text =>
          let jsonStr :=
            match Regex.search fence_pattern text with
            | Some group1 => group1
            | None => text
            end in
          match JSON.parse (trim jsonStr) with
          | Ok parsed => Ok parsed
          | Throw m => Throw (Error (Text m))
          end
      | _ => Throw (Error (Text (lit "textContent.match is not a function")))
      end.

(** [parseResponse(apiResponse)] *)
Definition parseResponse (apiResponse : value) : result JsError value :=
  match parseResponse_try apiResponse with
  | Ok parsed => Ok parsed
  | Throw error =>
      Throw (Error (prefixed (lit "Failed to parse API response: ") (message_of error)))
  end.

(** [JSON.stringify(validatedResponse)]; the score of a goal that passed
    the schema is an integer. *)
Definition stringify (g : RefinedGoal) : jsstring :=
  lit "{" ++ JSON.quote (lit "refined_goal") ++ lit ":" ++ JSON.quote (refined_goal g)
  ++ lit "," ++ JSON.quote (lit "key_results") ++ lit ":["
  ++ JSON.join (lit ",") (map JSON.quote (key_results g)) ++ lit "]"
  ++ lit "," ++ JSON.quote (lit "confidence_score") ++ lit ":"
  ++ JSON.render_int (Qnum (Qred (confidence_score g))) ++ lit "}".

(** The response of [handleEmptyInput]. *)
Definition sentinel : RefinedGoal := mkGoal (lit "No goal provided") [] 0.

(** [handleEmptyInput(startTime)] *)
Definition handleEmptyInput (startTime : Z) : M Refinement :=
  now <- Date_now ;;
  let latencyMs := (now - startTime)%Z in
  let response := sentinel in
  TelemetryService.logAICall
    (mkTelemetryData (lit "EMPTY_INPUT") (Some response) latencyMs 0 0 model true None) ;;
  ret (Goal response).

(** The guard of [refineGoal]:
    [!userInput || typeof userInput !== 'string' || userInput.trim().length === 0] *)
Definition no_input (userInput : value) : bool :=
  negb (truthy userInput)
  || match userInput with
     | VStr s => is_empty (trim s)
     | _ => true
     end.

(** The text of an input that passed the guard. *)
Definition text_of (userInput : value) : jsstring :=
  match userInput with
  | VStr s => s
  | _ => []
  end.

(** The body of the [try] of [refineGoal]. *)
Definition refineGoal_try (startTime : Z) (userInput : jsstring) : M Refinement :=
  let prompt := buildPrompt userInput in
  let requestBody := buildRequestBody prompt in
  response <- callGeminiAPIWithRetry requestBody 3 ;;
  now <- Date_now ;;
  let latencyMs := (now - startTime)%Z in
  parsedResponse <- settle (parseResponse response) ;;
  match Zod.parse goalSchema parsedResponse with
  | Throw issues => throw (ZodError issues)
  | Ok validatedResponse =>
      if Qltb (confidence_score validatedResponse) 4 then
        ret (Rejection (lit "Input does not appear to be a valid goal."))
      else
        TelemetryService.logAICall
          (mkTelemetryData userInput (Some validatedResponse) latencyMs
             (estimateTokens prompt)
             (estimateTokens (stringify validatedResponse))
             model true None) ;;
        ret (Goal validatedResponse)
  end.

(** The body of the [catch] of [refineGoal]. *)
Definition refineGoal_catch (startTime : Z) (userInput : jsstring) (error : JsError)
  : M Refinement :=
  now <- Date_now ;;
  let latencyMs := (now - startTime)%Z in
  TelemetryService.logAICall
    (mkTelemetryData userInput None latencyMs 0 0 model false
       (Some (message_of error))) ;;
  throw error.

(** [refineGoal(userInput)] *)
Definition refineGoal (userInput : value) : M Refinement :=
  startTime <- Date_now ;;
  if no_input userInput then handleEmptyInput startTime
  else
    try_catch (refineGoal_try startTime (text_of userInput))
      (refineGoal_catch startTime (text_of userInput)).

End GeminiService.

(* ================================================================== *)
(** ** StorageService *)
(* ================================================================== *)

Module StorageService.

Local Open Scope server_scope.

(** [initialize()] *)
Definition initialize : SM unit :=
  fun s =>
    if storage_initialized s then (Ok tt, s)
    else if falsy (SUPABASE_API_KEY (env (pipeline s))) then
      (Throw (Error (Text (lit
         "SUPABASE_API_KEY environment variable is not set. Please add it to your .env file."))),
       s)
    else (Ok tt, mkServer (pipeline s) true (answers s) (queries s)).

(** [this.supabase.from(...)]: the client is [null] until [initialize]
    has built it. *)
Definition client : SM unit :=
  fun s =>
    if storage_initialized s then (Ok tt, s)
    else (Throw (Error (Text (lit "Cannot read properties of null (reading 'from')"))), s).

(** [saveGoal(originalInput, refinedGoalData)] *)
Definition saveGoal (originalInput refinedGoalData : value) : SM value :=
  initialize ;;
  let goal :=
    VObj [(lit "original_input", originalInput);
          (lit "refined_goal", member refinedGoalData (lit "refined_goal"));
          (lit "key_results", member refinedGoalData (lit "key_results"));
          (lit "confidence_score", member refinedGoalData (lit "confidence_score"))] in
  answer <- (client ;; query (InsertGoal goal)) ;;
  match answer with
  | Failure error =>
      sthrow (Error (Text (lit "Failed to save goal: " ++ error_text error)))
  | Data data => sret (if truthy data then index0 data else goal)
  end.

(** [getAllGoals()] *)
Definition getAllGoals : SM value :=
  initialize ;;
  answer <- (client ;; query SelectGoals) ;;
  match answer with
  | Failure error =>
      sthrow (Error (Text (lit "Failed to fetch goals: " ++ error_text error)))
  | Data data => sret (if truthy data then data else VArr [])
  end.

(** [getGoalById(id)] *)
Definition getGoalById (id : jsstring) : SM value :=
  initialize ;;
  answer <- (client ;; query (SelectGoal id)) ;;
  match answer with
  | Failure error =>
      if JsString.eqb (error_code error) (lit "PGRST116") then sret VNull
      else sthrow (Error (Text (lit "Failed to fetch goal: " ++ error_text error)))
  | Data data => sret data
  end.

(** The fields of [updates] that [updateGoal] copies. *)
Definition copied (updates : value) (name : jsstring) : list (jsstring * value) :=
  match member updates name with
  | VUndefined => []
  | v => [(name, v)]
  end.

(** [updateGoal(id, updates)]; it does not call [initialize]. *)
Definition updateGoal (id : jsstring) (updates : value) : SM value :=
  if nullish updates then sthrow (TypeError_read updates (lit "refined_goal"))
  else
    let updateData :=
      copied updates (lit "refined_goal") ++ copied updates (lit "key_results")
      ++ copied updates (lit "confidence_score") in
    answer <- (client ;; query (UpdateGoal id updateData)) ;;
    match answer with
    | Failure error =>
        sthrow (Error (Text (lit "Failed to update goal: " ++ error_text error)))
    | Data data =>
        if negb (truthy data) || is_zero (js_length data)
        then sthrow (Error (Text (lit "Goal with ID " ++ id ++ lit " not found")))
        else sret (index0 data)
    end.

(** [deleteGoal(id)] *)
Definition deleteGoal (id : jsstring) : SM unit :=
  initialize ;;
  answer <- (client ;; query (DeleteGoal id)) ;;
  match answer with
  | Failure error =>
      sthrow (Error (Text (lit "Failed to delete goal: " ++ error_text error)))
  | Data _ => sret tt
  end.

End StorageService.

(* ================================================================== *)
(** ** GoalController *)
(* ================================================================== *)

Module GoalController.

(** The reply written with [res.status(...).json({...})]. *)
Record Reply : Type := mkReply {
  status : nat;
  reply_success : bool;
  reply_error : option Message;
  reply_data : option Refinement
}.

(** [refinedGoal.confidence_score < 3]; the object of the guardrail has no
    such property, and [undefined < 3] is false. *)
Definition below_three (refinedGoal : Refinement) : bool :=
  match refinedGoal with
  | Goal g => Qltb (confidence_score g) 3
  | Rejection _ => false
  end.

(** [refineGoal(req, res)], as a function of [req.body] *)
Definition refineGoal (body : value) : M Reply :=
  try_catch
    (if nullish body then
       throw (Error (Text (lit "Cannot destructure property 'goal' of 'req.body' as it is "
                           ++ type_name body ++ lit ".")))
     else
       let goal := member body (lit "goal") in
       if negb (truthy goal) || negb (match goal with VStr _ => true | _ => false end) then
         ret (mkReply 400 false
                (Some (Text (lit "Goal input is required and must be a string"))) None)
       else
         refinedGoal <- GeminiService.refineGoal goal ;;
         if below_three refinedGoal then
           ret (mkReply 400 false
                  (Some (Text (lit
                     "Input does not appear to be a valid goal. Please provide a clear goal statement.")))
                  (Some refinedGoal))
         else ret (mkReply 200 true None (Some refinedGoal)))
    (fun error =>
       ret (mkReply 500 false
              (Some (message_or (message_of error) (lit "Failed to refine goal"))) None)).

(** *** The other methods *)

(** The reply written with [res.status(...).json({...})]; a field that the
    reply does not have is [None]. *)
Record Response : Type := mkResponse {
  response_status : nat;
  response_success : bool;
  response_error : option Message;
  response_data : option value;
  response_count : option value;
  response_message : option jsstring;
  response_dateFilter : option jsstring
}.

Definition refusal (status : nat) (error : Message) : Response :=
  mkResponse status false (Some error) None None None None.

(** The [catch] of every method: status 500 with
    [error.message || fallback]. *)
Definition internal_error (fallback : jsstring) (error : JsError) : SM Response :=
  sret (refusal 500 (message_or (message_of error) fallback)).

(** The TypeError of destructuring a body that is [null] or [undefined]. *)
Definition destructure_error (name : jsstring) (body : value) : JsError :=
  Error (Text (lit "Cannot destructure property '" ++ name ++ lit "' of 'req.body' as it is "
               ++ type_name body ++ lit ".")).

(** [saveGoal(req, res)], as a function of [req.body] *)
Definition saveGoal (body : value) : SM Response :=
  scatch
    (if nullish body then sthrow (destructure_error (lit "userInput") body)
     else
       let userInput := member body (lit "userInput") in
       let refined_goal := member body (lit "refined_goal") in
       let key_results := member body (lit "key_results") in
       let confidence_score := member body (lit "confidence_score") in
       if negb (truthy userInput) || negb (truthy refined_goal)
          || negb (truthy key_results) || negb (truthy confidence_score)
       then
         sret (refusal 400 (Text (lit
           "All fields are required: userInput, refined_goal, key_results, confidence_score")))
       else
         (savedGoal <- StorageService.saveGoal userInput
                         (VObj [(lit "refined_goal", refined_goal);
                                (lit "key_results", key_results);
                                (lit "confidence_score", confidence_score)]) ;;
          sret (mkResponse 201 true None (Some savedGoal) None None None))%server)
    (internal_error (lit "Failed to save goal")).

(** [getAllGoals(req, res)] *)
Definition getAllGoals : SM Response :=
  scatch
    (goals <- StorageService.getAllGoals ;;
     sret (mkResponse 200 true None (Some goals) (Some (js_length goals)) None None))%server
    (internal_error (lit "Failed to fetch goals")).

(** [getGoalById(req, res)], as a function of [req.params.id] *)
Definition getGoalById (id : jsstring) : SM Response :=
  scatch
    (goal <- StorageService.getGoalById id ;;
     if negb (truthy goal) then
       sret (refusal 404 (Text (lit "Goal with ID " ++ id ++ lit " not found")))
     else sret (mkResponse 200 true None (Some goal) None None None))%server
    (internal_error (lit "Failed to fetch goal")).

(** [deleteGoal(req, res)], as a function of [req.params.id] *)
Definition deleteGoal (id : jsstring) : SM Response :=
  scatch
    (StorageService.deleteGoal id ;;
     sret (mkResponse 200 true None None None
             (Some (lit "Goal " ++ id ++ lit " deleted successfully")) None))%server
    (internal_error (lit "Failed to delete goal")).

(** [getAllTelemetryLogs(req, res)], as a function of [req.query.date] *)
Definition getAllTelemetryLogs (date : option jsstring) : SM Response :=
  scatch
    (logs <- TelemetryService.getLogs date ;;
     sret (mkResponse 200 true None (Some logs) (Some (js_length logs)) None
             (Some (match date with
                    | Some d => if is_empty d then lit "all" else d
                    | None => lit "all"
                    end))))%server
    (internal_error (lit "Failed to fetch telemetry logs")).

End GoalController.

(* ================================================================== *)
(** ** The evaluation suite

    [test_evals.js] posts its inputs to [/api/goals/refine] of the server
    on [localhost:3000], that is, to [GoalController.refineGoal], and counts
    what comes back in the module-level object [TEST_RESULTS].  The exchange
    is modelled with the defaults of axios: a reply with a status from 200 to
    299 resolves with the decoded body, any other status rejects with the
    message [Request failed with status code N].  Time-outs and refused
    connections are not modelled. *)
(* ================================================================== *)

Module TestEvals.

(** One element of [TEST_RESULTS.tests]. *)
Record TestEntry : Type := mkTestEntry {
  test_name : jsstring;
  test_passed : bool;
  test_confidence : option value;
  test_errors : option (list jsstring);
  test_error : option Message
}.

(** [TEST_RESULTS] *)
Record Results : Type := mkResults {
  passed : nat;
  failed : nat;
  tests : list TestEntry
}.

Definition TEST_RESULTS : Results := mkResults 0 0 [].

(** [field in responseJson], for the three names that the suite looks for:
    an own key of an object, never a key of an array, and a TypeError on
    anything else. *)
Definition has_key (k : jsstring) (fields : list (jsstring * value)) : bool :=
  existsb (fun entry => JsString.eqb k (fst entry)) fields.

Definition in_error (k : jsstring) (v : value) : JsError :=
  Error (prefixed (lit "Cannot use 'in' operator to search for '" ++ k ++ lit "' in ")
           (display v)).

Definition in_operator (k : jsstring) (v : value) : result JsError bool :=
  match v with
  | VObj fields => Ok (has_key k fields)
  | VArr _ => Ok false
  | _ => Throw (in_error k v)
  end.

Definition requiredFields : list jsstring :=
  [lit "refined_goal"; lit "key_results"; lit "confidence_score"].

(** The loop over [key_results] *)
Fixpoint check_key_results (i : nat) (items : list value) : list jsstring :=
  match items with
  | [] => []
  | kr :: rest =>
      (if match kr with
          | VStr s => is_empty (trim s)
          | _ => true
          end
       then [lit "key_results[" ++ JsString.of_nat i ++ lit "] must be a non-empty string"]
       else [])
      ++ check_key_results (S i) rest
  end.

(** The checks of [assertValidJsonSchema] on an object with the given
    fields. *)
Definition schema_errors (fields : list (jsstring * value)) : list jsstring :=
  flat_map (fun field =>
              if has_key field fields then []
              else [lit "Missing required field: " ++ field])
    requiredFields
  ++ (if has_key (lit "refined_goal") fields then
        match lookup (lit "refined_goal") fields with
        | VStr s =>
            if is_empty (trim s) then [lit "refined_goal cannot be empty"] else []
        | _ => [lit "refined_goal must be a string"]
        end
      else [])
  ++ (if has_key (lit "key_results") fields then
        match lookup (lit "key_results") fields with
        | VArr items =>
            if length items =? 0 then [lit "key_results cannot be empty"]
            else if 5 <? length items then [lit "key_results cannot have more than 5 items"]
            else check_key_results 0 items
        | _ => [lit "key_results must be an array"]
        end
      else [])
  ++ (if has_key (lit "confidence_score") fields then
        match lookup (lit "confidence_score") fields with
        | VNum q =>
            if Qltb q 1 || Qltb 10 q
            then [lit "confidence_score must be between 1 and 10"]
            else []
        | _ => [lit "confidence_score must be a number"]
        end
      else []).

(** [assertValidJsonSchema(responseJson, testName)]; the first test of
    [field in responseJson] throws when the response is not an object. *)
Definition assertValidJsonSchema (responseJson : value) : result JsError (list jsstring) :=
  match responseJson with
  | VObj fields => Ok (schema_errors fields)
  | VArr _ => Ok (schema_errors [])
  | _ => Throw (in_error (lit "refined_goal") responseJson)
  end.

(** What [await axios.post(...)] gives. *)
Inductive AxiosOutcome : Type :=
| AxiosResponse (status : nat) (data : value)
| AxiosError (message : Message).

(** [expectedConfidenceMin && expectedConfidenceMin < 3] *)
Definition expects_rejection (expectedConfidenceMin : option Q) : bool :=
  match expectedConfidenceMin with
  | Some q => negb (Qeq_bool q 0) && Qltb q 3
  | None => false
  end.

(** [v || 0] *)
Definition or_zero (v : value) : value := if truthy v then v else VNum 0.

Definition pass (testName : jsstring) (confidence : value) (st : Results) : Results :=
  mkResults (S (passed st)) (failed st)
    (tests st ++ [mkTestEntry testName true (Some confidence) None None]).

Definition fail_schema (testName : jsstring) (schemaErrors : list jsstring) (st : Results)
  : Results :=
  mkResults (passed st) (S (failed st))
    (tests st ++ [mkTestEntry testName false None (Some schemaErrors) None]).

Definition fail_error (testName : jsstring) (error : JsError) (st : Results) : Results :=
  mkResults (passed st) (S (failed st))
    (tests st ++ [mkTestEntry testName false None None (Some (message_of error))]).

(** The body of the [try] of [runTest], from the response on. *)
Definition runTest_try (testName : jsstring) (expectedConfidenceMin : option Q)
  (responseJson : value) (st : Results) : result JsError Results :=
  match in_operator (lit "success") responseJson with
  | Throw e => Throw e
  | Ok has_success =>
      if has_success && negb (truthy (member responseJson (lit "success")))
         && expects_rejection expectedConfidenceMin
      then
        Ok (pass testName
              (or_zero (opt_member (member responseJson (lit "data"))
                          (lit "confidence_score")))
              st)
      else
        let data :=
          if truthy (member responseJson (lit "data"))
          then member responseJson (lit "data")
          else responseJson in
        match assertValidJsonSchema data with
        | Throw e => Throw e
        | Ok schemaErrors =>
            if 0 <? length schemaErrors then Ok (fail_schema testName schemaErrors st)
            else
              Ok (pass testName (or_zero (member data (lit "confidence_score"))) st)
        end
  end.

(** [runTest], given what the post met. *)
Definition runTest_with (testName : jsstring) (expectedConfidenceMin : option Q)
  (outcome : AxiosOutcome) (st : Results) : Results :=
  match outcome with
  | AxiosError m => fail_error testName (Error m) st
  | AxiosResponse _ responseJson =>
      match runTest_try testName expectedConfidenceMin responseJson st with
      | Ok st' => st'
      | Throw error => fail_error testName error st
      end
  end.

(** The object that [res.json] serialises for a result of [refineGoal]. *)
Definition refinement_value (r : Refinement) : value :=
  match r with
  | Goal g =>
      VObj [(lit "refined_goal", VStr (refined_goal g));
            (lit "key_results", VArr (map VStr (key_results g)));
            (lit "confidence_score", VNum (confidence_score g))]
  | Rejection error => VObj [(lit "error", VStr error)]
  end.

(** What the post meets when the controller has replied.  The body is
    read only from a reply that resolves; the controller gives such a reply
    no [error]. *)
Definition axios_post (reply : GoalController.Reply) : AxiosOutcome :=
  if response_ok (GoalController.status reply) then
    AxiosResponse (GoalController.status reply)
      (VObj ((lit "success", VBool (GoalController.reply_success reply))
             :: match GoalController.reply_data reply with
                | Some d => [(lit "data", refinement_value d)]
                | None => []
                end))
  else
    AxiosError (Text (lit "Request failed with status code "
                      ++ JsString.of_nat (GoalController.status reply))).

(** [runTest(testName, testInput, expectedConfidenceMin)] *)
Definition runTest (testName : jsstring) (testInput : value)
  (expectedConfidenceMin : option Q) (st : Results) : M Results :=
  reply <- GoalController.refineGoal (VObj [(lit "goal", testInput)]) ;;
  ret (runTest_with testName expectedConfidenceMin (axios_post reply) st).





End TestEvals.

(* ================================================================== *)
(** ** The vocabulary of the properties *)
(* ================================================================== *)

(** The response envelope of the model: one candidate whose content has one
    part, with the given text. *)
Definition envelope (text : jsstring) : value :=
  VObj [(lit "candidates",
         VArr [VObj [(lit "content",
                      VObj [(lit "parts", VArr [VObj [(lit "text", VStr text)]])])]])].

(** A fenced code block around [content]: the opening fence, alone on its
    line or followed by [json], the content, and the closing fence on a line
    of its own. *)
Definition fenced (json : bool) (content : jsstring) : jsstring :=
  GeminiService.fence ++ (if json then lit "json" else []) ++ newline
  ++ content ++ newline ++ GeminiService.fence.

(** A goal document, as the model writes it. *)
Definition goal_text (goal : jsstring) (results : list jsstring) (score : jsstring)
  : jsstring :=
  lit "{" ++ JSON.quote (lit "refined_goal") ++ lit ": " ++ JSON.quote goal
  ++ lit ", " ++ JSON.quote (lit "key_results") ++ lit ": ["
  ++ JSON.join (lit ", ") (map JSON.quote results) ++ lit "], "
  ++ JSON.quote (lit "confidence_score") ++ lit ": " ++ score ++ lit "}".

(** The constraints on a goal object: a non-empty statement, three to five
    key results, each non-empty, and an integer score from 1 to 10. *)
Definition satisfies_schema (g : RefinedGoal) : Prop :=
  refined_goal g <> [] /\
  3 <= length (key_results g) <= 5 /\
  Forall (fun r => r <> []) (key_results g) /\
  (exists z : Z, confidence_score g == inject_Z z)%Q /\
  (1 <= confidence_score g <= 10)%Q.

(** The same constraints, one by one, on a decoded document. *)
Inductive Constraint : Type :=
| IsObject
| GoalIsString
| GoalNonEmpty
| ResultsIsArray
| ResultsAtLeast3
| ResultsAtMost5
| ResultIsString (i : nat)
| ResultNonEmpty (i : nat)
| ScoreIsNumber
| ScoreIsInteger
| ScoreAtLeast1
| ScoreAtMost10.

(** The property [k] of a document that is an object. *)
Definition property (v : value) (k : jsstring) : option value :=
  match v with
  | VObj fields => Some (lookup k fields)
  | _ => None
  end.

Definition violates (v : value) (c : Constraint) : Prop :=
  match c with
  | IsObject => forall fields, v <> VObj fields
  | GoalIsString =>
      exists x, property v (lit "refined_goal") = Some x /\ forall s, x <> VStr s
  | GoalNonEmpty => property v (lit "refined_goal") = Some (VStr [])
  | ResultsIsArray =>
      exists x, property v (lit "key_results") = Some x /\ forall items, x <> VArr items
  | ResultsAtLeast3 =>
      exists items, property v (lit "key_results") = Some (VArr items) /\ length items < 3
  | ResultsAtMost5 =>
      exists items, property v (lit "key_results") = Some (VArr items) /\ 5 < length items
  | ResultIsString i =>
      exists items x, property v (lit "key_results") = Some (VArr items)
                      /\ nth_error items i = Some x /\ forall s, x <> VStr s
  | ResultNonEmpty i =>
      exists items, property v (lit "key_results") = Some (VArr items)
                    /\ nth_error items i = Some (VStr [])
  | ScoreIsNumber =>
      exists x, property v (lit "confidence_score") = Some x /\ forall q, x <> VNum q
  | ScoreIsInteger =>
      exists q, property v (lit "confidence_score") = Some (VNum q)
                /\ ~ (exists z : Z, q == inject_Z z)%Q
  | ScoreAtLeast1 =>
      exists q, property v (lit "confidence_score") = Some (VNum q) /\ (q < 1)%Q
  | ScoreAtMost10 =>
      exists q, property v (lit "confidence_score") = Some (VNum q) /\ (10 < q)%Q
  end.

(** Where the violation of a constraint is, of which kind it is, and the
    wording that [goalSchema] attaches to it. *)
Definition place (c : Constraint) : list PathSeg :=
  match c with
  | IsObject => []
  | GoalIsString | GoalNonEmpty => [Key (lit "refined_goal")]
  | ResultsIsArray | ResultsAtLeast3 | ResultsAtMost5 => [Key (lit "key_results")]
  | ResultIsString i | ResultNonEmpty i => [Key (lit "key_results"); Index i]
  | ScoreIsNumber | ScoreIsInteger | ScoreAtLeast1 | ScoreAtMost10 =>
      [Key (lit "confidence_score")]
  end.

Definition kind (c : Constraint) : IssueCode :=
  match c with
  | IsObject | GoalIsString | ResultsIsArray | ResultIsString _
  | ScoreIsNumber | ScoreIsInteger => invalid_type
  | GoalNonEmpty | ResultsAtLeast3 | ResultNonEmpty _ | ScoreAtLeast1 => too_small
  | ResultsAtMost5 | ScoreAtMost10 => too_big
  end.

Definition wording (c : Constraint) : option jsstring :=
  match c with
  | GoalNonEmpty => Some (lit "refined_goal must be a non-empty string")
  | ResultsAtLeast3 => Some (lit "key_results must have at least 3 items")
  | ResultsAtMost5 => Some (lit "key_results must have at most 5 items")
  | ResultNonEmpty _ => Some (lit "Each key result must be a non-empty string")
  | ScoreIsInteger => Some (lit "Expected integer, received float")
  | ScoreAtLeast1 => Some (lit "confidence_score must be at least 1")
  | ScoreAtMost10 => Some (lit "confidence_score must be at most 10")
  | IsObject | GoalIsString | ResultsIsArray | ResultIsString _ | ScoreIsNumber => None
  end.

(** The type that a constraint on the type of a value asks for. *)
Definition expected_type (c : Constraint) : jsstring :=
  match c with
  | IsObject => lit "object"
  | GoalIsString | ResultIsString _ => lit "string"
  | ResultsIsArray => lit "array"
  | _ => lit "number"
  end.

(** The issue [i] reports the violation of [c]: it is the issue with the
    wording of [c], or, for a constraint on the type of a value, the issue
    of the default error map for the value that was received. *)
Definition names (i : ZodIssue) (c : Constraint) : Prop :=
  match wording c with
  | Some m => i = mkIssue (kind c) (place c) m
  | None => exists received, i = type_issue (expected_type c) received (place c)
  end.

(** The issues of a result. *)
Definition issues_of {A : Type} (r : Parsed A) : list ZodIssue :=
  match r with
  | Valid _ => []
  | Invalid issues => issues
  end.

(** *** Runs of the pipeline *)

(** The key that [get apiKey()] returns in a world. *)
Definition credential (w : World) : option jsstring :=
  if falsy (gemini_apiKey w) then GOOGLE_API_KEY (env w) else gemini_apiKey w.

(** The address that [callGeminiAPI] posts to. *)
Definition endpoint (w : World) : jsstring :=
  GeminiService.baseUrl ++ lit "/" ++ GeminiService.model ++ lit ":generateContent?key="
  ++ match credential w with Some k => k | None => [] end.

(** The world after one reading of the clock. *)
Definition tick (w : World) : World := snd (Date_now w).

(** The request that [refineGoal] builds for an input. *)
Definition request_for (s : jsstring) : RequestBody :=
  GeminiService.buildRequestBody (GeminiService.buildPrompt s).

(** What [callGeminiAPI] makes of one outcome of [fetch], with the wrapping
    of its [catch]. *)
Definition attempt (o : FetchOutcome) : result JsError value :=
  match GeminiService.read_response o with
  | Ok data => Ok data
  | Throw e =>
      Throw (Error (prefixed (lit "Failed to call Gemini API: ") (message_of e)))
  end.

(** The error of an attempt made without a key. *)
Definition no_key_error : JsError :=
  Error (Text (lit "Failed to call Gemini API: "
               ++ lit "GOOGLE_API_KEY environment variable is not set")).

(** What the gateway hands to [refineGoal] in world [w] for the text [s]. *)
Definition model_response (w : World) (s : jsstring) : result JsError value :=
  fst (GeminiService.callGeminiAPIWithRetry (request_for s) 3 (tick w)).

(** The parser and the schema, one after the other. *)
Definition validate (response : value) : result JsError RefinedGoal :=
  match GeminiService.parseResponse response with
  | Throw e => Throw e
  | Ok parsed =>
      match Zod.parse goalSchema parsed with
      | Throw issues => Throw (ZodError issues)
      | Ok g => Ok g
      end
  end.

(** The telemetry service can reach its table, and the table takes the
    next row. *)
Definition sink_ready (w : World) : bool :=
  telemetry_initialized w || negb (falsy (SUPABASE_API_KEY (env w))).

Definition takes_row (o : InsertOutcome) : bool :=
  match o with
  | InsertRows _ => true
  | _ => false
  end.

Definition sink_accepts (w : World) : bool := sink_ready w && takes_row (table w 0).

(** The requests sent, the pauses made and the rows written in a trace. *)
Fixpoint fetches (t : list Event) : nat :=
  match t with
  | [] => 0
  | EvFetch _ _ :: t' => S (fetches t')
  | _ :: t' => fetches t'
  end.

Fixpoint delays (t : list Event) : list nat :=
  match t with
  | [] => []
  | EvDelay ms :: t' => ms :: delays t'
  | _ :: t' => delays t'
  end.

Fixpoint rows (t : list Event) : list LogEntry :=
  match t with
  | [] => []
  | EvInsert e :: t' => e :: rows t'
  | _ :: t' => rows t'
  end.

(** The world after an attempt that sent its request, and after a pause. *)
Definition sent (requestBody : RequestBody) (w : World) : World :=
  snd (fetch (endpoint w) requestBody (snd (GeminiService.apiKey w))).

Definition paused (w : World) : World := snd (GeminiService.delay 4000 w).

(** The world after a reading of [apiKey]. *)
Definition keyed (w : World) : World := snd (GeminiService.apiKey w).

(** An attempt fails on a transport error, on a status outside 200-299 and
    on a body that cannot be decoded. *)
Definition delivery_failure (o : FetchOutcome) : Prop :=
  match o with
  | FetchRejected _ => True
  | FetchResponse status _ body =>
      response_ok status = false \/ exists m, body = BodyUnreadable m
  end.

(** What the gateway leaves alone: the environment, the telemetry service
    and its table, the clock and the rows written so far. *)
Definition gateway_frame (w w' : World) : Prop :=
  env w' = env w /\ telemetry_initialized w' = telemetry_initialized w /\
  table w' = table w /\ clock w' = clock w /\ rows (trace w') = rows (trace w).

(** *** Sample worlds *)

(** A world with the given key for the model, a key for the telemetry
    table, fresh services, and a clock that advances by one second at each
    reading. *)
Definition sample_world (key : option jsstring) (net : nat -> FetchOutcome)
  (tab : nat -> InsertOutcome) : World :=
  mkWorld (mkEnv key (Some (lit "service-role-key"))) None false net tab
    (fun n => Z.of_nat (1000 * n)) [].

(** The model answers with the given text. *)
Definition answer (text : jsstring) : FetchOutcome :=
  FetchResponse 200 (lit "OK") (BodyJson (envelope text)).

(** The model is overloaded. *)
Definition overloaded : FetchOutcome :=
  FetchResponse 503 (lit "Service Unavailable")
    (BodyJson (VObj [(lit "error", VObj [(lit "message", VStr (lit "overloaded"))])])).

(** A goal document with the given score. *)
Definition scored_goal (score : jsstring) : jsstring :=
  goal_text (lit "Run 5 km in under 30 minutes by June")
    [lit "Run three times a week"; lit "Finish a 3 km run in May"; lit "Enter a race"]
    score.

Definition sample_goal (score : Q) : RefinedGoal :=
  mkGoal (lit "Run 5 km in under 30 minutes by June")
    [lit "Run three times a week"; lit "Finish a 3 km run in May"; lit "Enter a race"]
    score.

(** The arguments of the three calls of [logAICall]. *)
Definition empty_record (start now : Z) : TelemetryData :=
  mkTelemetryData (lit "EMPTY_INPUT") (Some GeminiService.sentinel) (now - start) 0 0
    GeminiService.model true None.

Definition success_record (start now : Z) (s : jsstring) (g : RefinedGoal)
  : TelemetryData :=
  mkTelemetryData s (Some g) (now - start)
    (GeminiService.estimateTokens (GeminiService.buildPrompt s))
    (GeminiService.estimateTokens (GeminiService.stringify g))
    GeminiService.model true None.

Definition failure_record (start now : Z) (s : jsstring) (e : JsError) : TelemetryData :=
  mkTelemetryData s None (now - start) 0 0 GeminiService.model false
    (Some (message_of e)).

(** The world after [logAICall] has sent its row. *)
Definition logged (d : TelemetryData) (w : World) : World :=
  snd (insert (TelemetryService.logEntry (clock w 0) d)
         (tick (snd (TelemetryService.initialize w)))).

Definition no_table_error : JsError :=
  Error (Text (lit
    "SUPABASE_API_KEY environment variable is not set. Please add it to your .env file.")).

(** A world whose environment has no key for the telemetry table. *)
Definition mute_world (net : nat -> FetchOutcome) : World :=
  mkWorld (mkEnv (Some (lit "key")) None) None false net (fun _ => InsertRows 1)
    (fun n => Z.of_nat (1000 * n)) [].

(** The outcomes of a call of [refineGoal]: a goal that satisfies the
    schema, the goal of [handleEmptyInput], the object of the guardrail, a
    thrown error. *)
Inductive Outcome : Type := Accepted | Sentinel | Rejected | Failed.

Definition outcome_of (r : result JsError Refinement) (o : Outcome) : Prop :=
  match o with
  | Accepted => exists g, r = Ok (Goal g) /\ satisfies_schema g
  | Sentinel => r = Ok (Goal GeminiService.sentinel)
  | Rejected => exists m, r = Ok (Rejection m)
  | Failed => exists e, r = Throw e
  end.

(** A document that drifted from the schema: two key results, and a score
    that is neither an integer nor at most 10. *)
Definition drifted : value :=
  VObj [(lit "refined_goal", VStr (lit "Run more"));
        (lit "key_results", VArr [VStr (lit "Run on Monday"); VStr (lit "Run on Friday")]);
        (lit "confidence_score", VNum (23 # 2))].

(** The message of the guardrail. *)
Definition guardrail_message : jsstring := lit "Input does not appear to be a valid goal.".

(** *** Auxiliary definitions of the proofs *)

(** White space and then the fence: the end of [fence_pattern]. *)
Definition closing : jsstring -> option jsstring :=
  Regex.match_here [Regex.Star is_ws; Regex.Lit GeminiService.fence].

(** A goal whose text holds a run of three backticks. *)
Definition goal_with_backticks : jsstring :=
  goal_text (lit "Avoid ``` in notes") [lit "a"; lit "b"; lit "c"] (lit "8").

(** A goal without backticks. *)
Definition plain_goal : jsstring :=
  goal_text (lit "Run 5 km in under 30 minutes by June")
    [lit "Run three times a week"; lit "Finish a 3 km run in May"; lit "Enter a race"]
    (lit "8").

(** A result is invalid only with an issue in hand. *)
Definition grounded {A : Type} (r : Parsed A) : Prop :=
  match r with
  | Invalid [] => False
  | _ => True
  end.

(** The three fields of [goalSchema]. *)
Definition goal_field : Schema jsstring :=
  z_string [str_min 1 (lit "refined_goal must be a non-empty string")].

Definition result_item : Schema jsstring :=
  z_string [str_min 1 (lit "Each key result must be a non-empty string")].

Definition results_field : Schema (list jsstring) :=
  z_array result_item
    [arr_min 3 (lit "key_results must have at least 3 items");
     arr_max 5 (lit "key_results must have at most 5 items")].

Definition score_field : Schema Q :=
  z_number [num_int;
            num_min 1 (lit "confidence_score must be at least 1");
            num_max 10 (lit "confidence_score must be at most 10")].

Ltac property_eq H :=
  match type of H with
  | property (VObj _) _ = Some _ =>
      cbn [property] in H; injection H as H
  | property _ _ = Some _ => discriminate H
  end.

(** *** The vocabulary of the further properties *)

(** The start of the message of every error of the gateway, and of every
    error of the parser. *)
Definition gateway_prefix : jsstring := lit "Failed to call Gemini API: ".

Definition parse_prefix : jsstring := lit "Failed to parse API response: ".

(** The outcome of the [i]-th call of [callGeminiAPI] in a run that starts in [w]. *)
Definition call_outcome (w : World) (i : nat) : result JsError value :=
  if falsy (credential w) then Throw no_key_error else attempt (network w i).

(** The request of one call: none without a key. *)
Definition request_event (requestBody : RequestBody) (w : World) : list Event :=
  if falsy (credential w) then [] else [EvFetch (endpoint w) requestBody].

(** The effects of [failed] failed attempts and of the attempt that follows
    them: a pause of 4000 ms after each failed attempt. *)
Fixpoint attempts_trace (request : list Event) (failed : nat) : list Event :=
  match failed with
  | O => request
  | S k => request ++ [EvDelay 4000] ++ attempts_trace request k
  end.

(** The world with another environment. *)
Definition with_env (e : Env) (w : World) : World :=
  mkWorld e (gemini_apiKey w) (telemetry_initialized w) (network w) (table w) (clock w)
    (trace w).

(** The object that a goal is, once decoded. *)
Definition goal_value (g : RefinedGoal) : value :=
  VObj [(lit "refined_goal", VStr (refined_goal g));
        (lit "key_results", VArr (map VStr (key_results g)));
        (lit "confidence_score", VNum (confidence_score g))].

(** What the suite asks of a goal object: a statement and key results that
    are not blank, one to five key results, a score from 1 to 10. *)
Definition suite_accepts (g : RefinedGoal) : Prop :=
  trim (refined_goal g) <> [] /\
  1 <= length (key_results g) <= 5 /\
  Forall (fun r => trim r <> []) (key_results g) /\
  (1 <= confidence_score g <= 10)%Q.

(** The document is an object whose three fields are those of [g]. *)
Definition holds_goal (v : value) (g : RefinedGoal) : Prop :=
  exists fields,
    v = VObj fields
    /\ lookup (lit "refined_goal") fields = VStr (refined_goal g)
    /\ lookup (lit "key_results") fields = VArr (map VStr (key_results g))
    /\ lookup (lit "confidence_score") fields = VNum (confidence_score g).

Definition missing_all : list jsstring :=
  [lit "Missing required field: refined_goal";
   lit "Missing required field: key_results";
   lit "Missing required field: confidence_score"].





(** The store can be reached: the service is initialised, or the key is
    in the environment. *)
Definition store_ready (s : Server) : bool :=
  storage_initialized s || negb (falsy (SUPABASE_API_KEY (env (pipeline s)))).

(** The server after the storage service has sent a query. *)
Definition asked (q : Query) (s : Server) : Server :=
  mkServer (pipeline s) true (fun n => answers s (S n)) (queries s ++ [q]).

(** The body that the client posts to save a goal. *)
Definition save_request (userInput : jsstring) (g : RefinedGoal) : value :=
  VObj [(lit "userInput", VStr userInput);
        (lit "refined_goal", VStr (refined_goal g));
        (lit "key_results", VArr (map VStr (key_results g)));
        (lit "confidence_score", VNum (confidence_score g))].

(** The row that [saveGoal] inserts for that body. *)
Definition goal_row (userInput : jsstring) (g : RefinedGoal) : value :=
  VObj [(lit "original_input", VStr userInput);
        (lit "refined_goal", VStr (refined_goal g));
        (lit "key_results", VArr (map VStr (key_results g)));
        (lit "confidence_score", VNum (confidence_score g))].

Definition all_fields_required : Message :=
  Text (lit "All fields are required: userInput, refined_goal, key_results, confidence_score").

Definition not_found (id : jsstring) : Message :=
  Text (lit "Goal with ID " ++ id ++ lit " not found").

(** What [getLogs] returns when the service is initialised: the rows of
    the second query, and no row when a query fails or brings no rows. *)
Definition logs_of (s : Server) : value :=
  match answers s 0, answers s 1 with
  | Resolved _, Resolved (Data data) =>
      if has_slice data && truthy data then data else VArr []
  | _, _ => VArr []
  end.

(** The queries that [getLogs] sends: the count and, unless the count
    rejects, the rows. *)
Definition logs_queries (date : option jsstring) (s : Server) : list Query :=
  match answers s 0 with
  | Resolved _ => [CountLogs; SelectLogs (if falsy date then None else date)]
  | QueryRejected _ => [CountLogs]
  end.

(** [date || 'all'] *)
Definition date_or_all (date : option jsstring) : jsstring :=
  match date with
  | Some d => if is_empty d then lit "all" else d
  | None => lit "all"
  end.

(** *** Samples for the further properties *)

(** A table that refuses the first row and takes the next ones. *)
Definition refusing_once (n : nat) : InsertOutcome :=
  match n with
  | O => InsertError (lit "permission denied")
  | S _ => InsertRows 1
  end.

(** A fresh server on a sample world, with the given answers. *)
Definition sample_server (ans : nat -> Answer) : Server :=
  mkServer (sample_world (Some (lit "key")) (fun _ => overloaded) (fun _ => InsertRows 1))
    false ans [].

Definition no_rows : Answer :=
  Resolved (Failure (mkPostgrestError (lit "PGRST116")
                       (lit "JSON object requested, no rows returned"))).

(* ================================================================== *)
(** * Properties *)
(* ================================================================== *)

(** ** Strings *)

Lemma eqb_eq (a b : jsstring) : JsString.eqb a b = true <-> a = b.
Proof.
  unfold JsString.eqb. destruct (list_eq_dec N.eq_dec a b); split; congruence.
Qed.

Lemma eqb_refl (a : jsstring) : JsString.eqb a a = true.
Proof. apply eqb_eq. reflexivity. Qed.

Lemma is_ws_not_backtick (c : N) : is_ws c = true -> c <> backtick.
Proof. intros H E. subst c. discriminate H. Qed.

Lemma trimStart_ws_app (w s : jsstring) :
  forallb is_ws w = true -> trimStart (w ++ s) = trimStart s.
Proof.
  induction w as [|c w IH]; simpl; intros H; [reflexivity|].
  apply andb_prop in H. destruct H as [Hc Hw]. rewrite Hc. auto.
Qed.

Lemma trimStart_split (s : jsstring) :
  exists w, forallb is_ws w = true /\ s = w ++ trimStart s.
Proof.
  induction s as [|c s [w [Hw E]]]; simpl.
  - exists []. split; reflexivity.
  - destruct (is_ws c) eqn:Hc.
    + exists (c :: w). simpl. rewrite Hc, Hw. split; [reflexivity|].
      f_equal. exact E.
    + exists []. split; reflexivity.
Qed.

Lemma trimStart_head (s r : jsstring) (c : N) :
  trimStart s = c :: r -> is_ws c = false.
Proof.
  induction s as [|d s IH]; simpl; [discriminate|].
  destruct (is_ws d) eqn:Hd; [exact IH|].
  intros E. injection E as -> _. exact Hd.
Qed.

Lemma trimStart_nil_ws (s : jsstring) : trimStart s = [] -> forallb is_ws s = true.
Proof.
  intros E. destruct (trimStart_split s) as [w [Hw Es]].
  rewrite E, app_nil_r in Es. subst s. exact Hw.
Qed.

Lemma trimStart_ws_nil (w : jsstring) : forallb is_ws w = true -> trimStart w = [].
Proof.
  intros H. rewrite <- (app_nil_r w). rewrite trimStart_ws_app by exact H. reflexivity.
Qed.

Lemma trimStart_stable (s : jsstring) : trimStart (trimStart s) = trimStart s.
Proof.
  destruct (trimStart s) as [|c r] eqn:E; [reflexivity|].
  simpl. rewrite (trimStart_head _ _ _ E). reflexivity.
Qed.

Lemma trimStart_app (a b : jsstring) :
  trimStart a <> [] -> trimStart (a ++ b) = trimStart a ++ b.
Proof.
  induction a as [|c a IH]; simpl; [congruence|].
  destruct (is_ws c); auto.
Qed.

Lemma forallb_rev (f : N -> bool) (l : jsstring) :
  forallb f (rev l) = forallb f l.
Proof.
  induction l as [|c l IH]; simpl; [reflexivity|].
  rewrite forallb_app, IH. simpl. rewrite andb_true_r. apply andb_comm.
Qed.

Lemma trimEnd_split (s : jsstring) :
  exists w, forallb is_ws w = true /\ s = trimEnd s ++ w.
Proof.
  destruct (trimStart_split (rev s)) as [w [Hw E]].
  exists (rev w). split.
  - rewrite forallb_rev. exact Hw.
  - unfold trimEnd. rewrite <- rev_app_distr, <- E, rev_involutive. reflexivity.
Qed.

(** A non-empty end of a string trimmed at its end is not white space. *)
Lemma trimEnd_suffix (s b1 b2 : jsstring) :
  trimEnd s = b1 ++ b2 -> b2 <> [] -> trimStart b2 <> [].
Proof.
  intros E Hb2 Hws. apply trimStart_nil_ws in Hws.
  unfold trimEnd in E. apply (f_equal (@rev N)) in E.
  rewrite rev_involutive, rev_app_distr in E.
  destruct (rev b2) as [|c r] eqn:Er.
  - apply (f_equal (@rev N)) in Er. rewrite rev_involutive in Er. simpl in Er. auto.
  - simpl in E. apply trimStart_head in E.
    rewrite <- forallb_rev, Er in Hws. simpl in Hws. rewrite E in Hws. discriminate.
Qed.

Lemma trimEnd_stable (s : jsstring) : trimEnd (trimEnd s) = trimEnd s.
Proof.
  unfold trimEnd. rewrite rev_involutive, trimStart_stable. reflexivity.
Qed.

(** Trimming at the end keeps a first character that is not white space. *)
Lemma trimStart_trimEnd (s : jsstring) :
  trimStart (trimEnd (trimStart s)) = trimEnd (trimStart s).
Proof.
  destruct (trimEnd_split (trimStart s)) as [w [Hw E]].
  destruct (trimEnd (trimStart s)) as [|c r] eqn:Et; [reflexivity|].
  simpl in E. apply trimStart_head in E. simpl. rewrite E. reflexivity.
Qed.

Lemma trim_stable (s : jsstring) : trim (trim s) = trim s.
Proof.
  unfold trim. rewrite trimStart_trimEnd, trimEnd_stable. reflexivity.
Qed.

Lemma trim_ws (w : jsstring) : forallb is_ws w = true -> trim w = [].
Proof. intros H. unfold trim. rewrite trimStart_ws_nil by exact H. reflexivity. Qed.

(** ** Occurrences of a substring *)

Lemma strip_prefix_app (p s t : jsstring) :
  strip_prefix p s <> None -> strip_prefix p (s ++ t) <> None.
Proof.
  revert s. induction p as [|a p IH]; intros [|b s]; simpl; try congruence.
  destruct (N.eqb a b); [apply IH | congruence].
Qed.

Lemma strip_prefix_self (p s : jsstring) : strip_prefix p (p ++ s) = Some s.
Proof.
  induction p as [|a p IH]; simpl; [reflexivity|]. rewrite N.eqb_refl. exact IH.
Qed.

Lemma occurs_head (p s : jsstring) :
  occurs p s = false -> strip_prefix p s = None.
Proof.
  destruct s; simpl; destruct (strip_prefix p _); congruence.
Qed.

Lemma occurs_app_l (p a s : jsstring) : occurs p (a ++ s) = false -> occurs p s = false.
Proof.
  induction a as [|c a IH]; simpl; [auto|].
  destruct (strip_prefix p (c :: a ++ s)); [discriminate | exact IH].
Qed.

Lemma occurs_app_r (p s b : jsstring) : occurs p (s ++ b) = false -> occurs p s = false.
Proof.
  induction s as [|c s IH]; intros H.
  - simpl in *. destruct (strip_prefix p []) eqn:E; [|reflexivity].
    assert (strip_prefix p ([] ++ b) <> None) by (apply strip_prefix_app; congruence).
    apply occurs_head in H. simpl in *. congruence.
  - pose proof (occurs_head _ _ H) as Hh.
    simpl in H. simpl app in Hh. rewrite Hh in H.
    simpl. destruct (strip_prefix p (c :: s)) eqn:E.
    + exfalso. apply (strip_prefix_app p (c :: s) b); [congruence | exact Hh].
    + auto.
Qed.

(** ** JSON.parse: the depth of the descent

    The parsers consume input, and so the answer of [JSON.parse_value] no
    longer depends on its depth once the depth is twice the length of the
    text: the depth that [JSON.parse] gives is never the reason of a
    SyntaxError. *)

Section LexerFacts.
Import JSON.

Lemma skip_ws_length (s : jsstring) : length (skip_ws s) <= length s.
Proof.
  induction s as [|c s IH]; simpl; [lia|]. destruct (is_json_ws c); simpl; lia.
Qed.

Lemma parse_chars_length (n : nat) :
  forall s cs r, length s <= n -> parse_chars s = Some (cs, r) -> length r < length s.
Proof.
  induction n as [|n IH]; intros s cs r Hn H.
  - destruct s; [discriminate H | simpl in Hn; lia].
  - destruct s as [|c s]; [discriminate H|]. cbn [parse_chars] in H. simpl in Hn.
    destruct (N.eqb c 34).
    { injection H as _ <-. simpl. lia. }
    destruct (N.eqb c 92).
    + destruct s as [|e r1]; [discriminate H|].
      destruct (N.eqb e 117).
      * destruct r1 as [|h1 [|h2 [|h3 [|h4 r2]]]]; try discriminate H.
        destruct (hex4 h1 h2 h3 h4); [|discriminate H].
        destruct (parse_chars r2) as [[cs' rest]|] eqn:E; [|discriminate H].
        injection H as _ <-. apply IH in E; [|simpl in *; lia]. simpl in *. lia.
      * destruct (simple_escape e); [|discriminate H].
        destruct (parse_chars r1) as [[cs' rest]|] eqn:E; [|discriminate H].
        injection H as _ <-. apply IH in E; [|simpl in *; lia]. simpl in *. lia.
    + destruct (N.ltb c 32); [discriminate H|].
      destruct (parse_chars s) as [[cs' rest]|] eqn:E; [|discriminate H].
      injection H as _ <-. apply IH in E; [|simpl in *; lia]. simpl in *. lia.
Qed.

Lemma take_digits_length (s : jsstring) :
  length (fst (take_digits s)) + length (snd (take_digits s)) = length s.
Proof.
  induction s as [|c s IH]; simpl; [reflexivity|].
  destruct (is_digit c); [|reflexivity].
  destruct (take_digits s) as [ds rest]. simpl in *. lia.
Qed.

Lemma parse_int_length (s : jsstring) (ds r : jsstring) :
  parse_int s = Some (ds, r) -> length r < length s.
Proof.
  unfold parse_int. pose proof (take_digits_length s) as H.
  destruct (take_digits s) as [[|d [|d' ds']] rest]; simpl in H; intros E.
  - discriminate E.
  - injection E as _ <-. lia.
  - destruct (N.eqb d 48); injection E as _ <-; simpl; rewrite ?length_app; lia.
Qed.

Lemma parse_frac_length (s : jsstring) (ds r : jsstring) :
  parse_frac s = Some (ds, r) -> length r <= length s.
Proof.
  unfold parse_frac. destruct s as [|c s]; intros E.
  - injection E as _ <-. lia.
  - destruct (N.eqb c 46).
    + pose proof (take_digits_length s) as H.
      destruct (take_digits s) as [[|d ds'] rest]; [discriminate E|].
      injection E as _ <-. simpl in *. lia.
    + injection E as _ <-. lia.
Qed.

Lemma parse_exp_length (s : jsstring) (e : Z) (r : jsstring) :
  parse_exp s = Some (e, r) -> length r <= length s.
Proof.
  unfold parse_exp. destruct s as [|c s]; intros E.
  - injection E as _ <-. lia.
  - destruct (N.eqb c 101 || N.eqb c 69).
    + destruct s as [|sg r'].
      * simpl in E. discriminate E.
      * destruct (N.eqb sg 45); [|destruct (N.eqb sg 43)];
          match type of E with
          | match take_digits ?r1 with _ => _ end = _ =>
              pose proof (take_digits_length r1) as Hd;
              destruct (take_digits r1) as [[|d ds'] rest]; [discriminate E|];
              injection E as _ <-; simpl in *; lia
          end.
    + injection E as _ <-. lia.
Qed.

Lemma parse_number_length (s : jsstring) (q : Q) (r : jsstring) :
  parse_number s = Some (q, r) -> length r < length s.
Proof.
  unfold parse_number. intros E.
  destruct s as [|c s'].
  - simpl in E. discriminate E.
  - destruct (N.eqb c 45).
    + destruct (parse_int s') as [[ip s2]|] eqn:Ei; [|discriminate E].
      destruct (parse_frac s2) as [[fp s3]|] eqn:Ef; [|discriminate E].
      destruct (parse_exp s3) as [[e s4]|] eqn:Ee; [|discriminate E].
      injection E as _ <-.
      apply parse_int_length in Ei. apply parse_frac_length in Ef.
      apply parse_exp_length in Ee. simpl. lia.
    + destruct (parse_int (c :: s')) as [[ip s2]|] eqn:Ei; [|discriminate E].
      destruct (parse_frac s2) as [[fp s3]|] eqn:Ef; [|discriminate E].
      destruct (parse_exp s3) as [[e s4]|] eqn:Ee; [|discriminate E].
      injection E as _ <-.
      apply parse_int_length in Ei. apply parse_frac_length in Ef.
      apply parse_exp_length in Ee. lia.
Qed.
End LexerFacts.

Section StepFacts.
Import JSON.
Variables (elements elements' : jsstring -> option (list value * jsstring)).
Variables (members members' : jsstring -> option (list (jsstring * value) * jsstring)).

Lemma strip_prefix_length (p s r : jsstring) :
  strip_prefix p s = Some r -> length r + length p = length s.
Proof.
  revert s. induction p as [|a p IH]; intros [|b s]; simpl; intros H;
    try (injection H as <-; simpl; lia); try discriminate H.
  destruct (N.eqb a b); [|discriminate H]. apply IH in H. lia.
Qed.

Lemma value_step_progress (s : jsstring) (v : value) (rest : jsstring) :
  (forall r x, elements r = Some x -> length (snd x) < length r) ->
  (forall r x, members r = Some x -> length (snd x) < length r) ->
  value_step elements members s = Some (v, rest) -> length rest < length s.
Proof.
  intros He Hm. unfold value_step.
  pose proof (skip_ws_length s) as Hs.
  destruct (skip_ws s) as [|c r]; [discriminate|]. simpl in Hs.
  destruct (N.eqb c 34).
  { destruct (parse_chars r) as [[str rest']|] eqn:E; [|discriminate].
    intros H. injection H as _ <-.
    apply (parse_chars_length (length r)) in E; lia. }
  destruct (N.eqb c 91).
  { pose proof (skip_ws_length r) as Hr.
    destruct (skip_ws r) as [|c' r']; [discriminate|]. simpl in Hr.
    destruct (N.eqb c' 93).
    - intros H. injection H as _ <-. lia.
    - destruct (elements r) as [[vs rest']|] eqn:E; [|discriminate].
      intros H. injection H as _ <-. apply He in E. simpl in E. lia. }
  destruct (N.eqb c 123).
  { pose proof (skip_ws_length r) as Hr.
    destruct (skip_ws r) as [|c' r']; [discriminate|]. simpl in Hr.
    destruct (N.eqb c' 125).
    - intros H. injection H as _ <-. lia.
    - destruct (members r) as [[fs rest']|] eqn:E; [|discriminate].
      intros H. injection H as _ <-. apply Hm in E. simpl in E. lia. }
  destruct (strip_prefix (lit "null") (c :: r)) as [r1|] eqn:E1.
  { intros H. injection H as _ <-. apply strip_prefix_length in E1. simpl in E1. lia. }
  destruct (strip_prefix (lit "true") (c :: r)) as [r2|] eqn:E2.
  { intros H. injection H as _ <-. apply strip_prefix_length in E2. simpl in E2. lia. }
  destruct (strip_prefix (lit "false") (c :: r)) as [r3|] eqn:E3.
  { intros H. injection H as _ <-. apply strip_prefix_length in E3. simpl in E3. lia. }
  destruct (parse_number (c :: r)) as [[q rest']|] eqn:E; [|discriminate].
  intros H. injection H as _ <-. apply parse_number_length in E. simpl in E. lia.
Qed.

Lemma value_step_ext (s : jsstring) :
  (forall r, length r < length s -> elements r = elements' r) ->
  (forall r, length r < length s -> members r = members' r) ->
  value_step elements members s = value_step elements' members' s.
Proof.
  intros He Hm. unfold value_step.
  pose proof (skip_ws_length s) as Hs.
  destruct (skip_ws s) as [|c r]; [reflexivity|]. simpl in Hs.
  rewrite He, Hm by lia. reflexivity.
Qed.
End StepFacts.

Section ListStepFacts.
Import JSON.
Variables (element element' : jsstring -> option (value * jsstring)).

Lemma elements_step_progress
  (elements : jsstring -> option (list value * jsstring))
  (s : jsstring) (vs : list value) (rest : jsstring) :
  (forall r x, element r = Some x -> length (snd x) < length r) ->
  (forall r x, elements r = Some x -> length (snd x) < length r) ->
  elements_step element elements s = Some (vs, rest) -> length rest < length s.
Proof.
  intros Hv He. unfold elements_step.
  destruct (element s) as [[v r]|] eqn:E; [|discriminate].
  apply Hv in E. simpl in E.
  pose proof (skip_ws_length r) as Hr.
  destruct (skip_ws r) as [|c r']; [discriminate|]. simpl in Hr.
  destruct (N.eqb c 44).
  - destruct (elements r') as [[vs' rest']|] eqn:E'; [|discriminate].
    intros H. injection H as _ <-. apply He in E'. simpl in E'. lia.
  - destruct (N.eqb c 93); [|discriminate].
    intros H. injection H as _ <-. lia.
Qed.

Lemma elements_step_ext
  (elements elements' : jsstring -> option (list value * jsstring)) (s : jsstring) :
  element s = element' s ->
  (forall r x, element r = Some x -> length (snd x) < length r) ->
  (forall r, length r < length s -> elements r = elements' r) ->
  elements_step element elements s = elements_step element' elements' s.
Proof.
  intros Hv Hp He. unfold elements_step. rewrite <- Hv.
  destruct (element s) as [[v r]|] eqn:E; [|reflexivity].
  apply Hp in E. simpl in E.
  pose proof (skip_ws_length r) as Hr.
  destruct (skip_ws r) as [|c r']; [reflexivity|]. simpl in Hr.
  rewrite He by lia. reflexivity.
Qed.

Lemma members_step_progress
  (members : list (jsstring * value) -> jsstring
             -> option (list (jsstring * value) * jsstring))
  (acc : list (jsstring * value)) (s : jsstring)
  (fs : list (jsstring * value)) (rest : jsstring) :
  (forall r x, element r = Some x -> length (snd x) < length r) ->
  (forall a r x, members a r = Some x -> length (snd x) < length r) ->
  members_step element members acc s = Some (fs, rest) -> length rest < length s.
Proof.
  intros Hv Hm. unfold members_step.
  pose proof (skip_ws_length s) as Hs.
  destruct (skip_ws s) as [|q r0]; [discriminate|]. simpl in Hs.
  destruct (N.eqb q 34); [|discriminate].
  destruct (parse_chars r0) as [[key r1]|] eqn:Ek; [|discriminate].
  apply (parse_chars_length (length r0)) in Ek; [|lia].
  pose proof (skip_ws_length r1) as Hr1.
  destruct (skip_ws r1) as [|colon r2]; [discriminate|]. simpl in Hr1.
  destruct (N.eqb colon 58); [|discriminate].
  destruct (element r2) as [[v r3]|] eqn:E; [|discriminate].
  apply Hv in E. simpl in E.
  pose proof (skip_ws_length r3) as Hr3.
  destruct (skip_ws r3) as [|c r4]; [discriminate|]. simpl in Hr3.
  destruct (N.eqb c 44).
  - intros H. apply Hm in H. simpl in H. lia.
  - destruct (N.eqb c 125); [|discriminate].
    intros H. injection H as _ <-. lia.
Qed.

Lemma members_step_ext
  (members members' : list (jsstring * value) -> jsstring
                      -> option (list (jsstring * value) * jsstring))
  (acc : list (jsstring * value)) (s : jsstring) :
  (forall r, length r < length s -> element r = element' r) ->
  (forall r x, element r = Some x -> length (snd x) < length r) ->
  (forall a r, length r < length s -> members a r = members' a r) ->
  members_step element members acc s = members_step element' members' acc s.
Proof.
  intros Hv Hp Hm. unfold members_step.
  pose proof (skip_ws_length s) as Hs.
  destruct (skip_ws s) as [|q r0]; [reflexivity|]. simpl in Hs.
  destruct (N.eqb q 34); [|reflexivity].
  destruct (parse_chars r0) as [[key r1]|] eqn:Ek; [|reflexivity].
  apply (parse_chars_length (length r0)) in Ek; [|lia].
  pose proof (skip_ws_length r1) as Hr1.
  destruct (skip_ws r1) as [|colon r2]; [reflexivity|]. simpl in Hr1.
  destruct (N.eqb colon 58); [|reflexivity].
  rewrite <- Hv by lia.
  destruct (element r2) as [[v r3]|] eqn:E; [|reflexivity].
  apply Hp in E. simpl in E.
  pose proof (skip_ws_length r3) as Hr3.
  destruct (skip_ws r3) as [|c r4]; [reflexivity|]. simpl in Hr3.
  rewrite Hm by lia. reflexivity.
Qed.
End ListStepFacts.

(** Every parser consumes input. *)
Lemma parsers_progress (f : nat) :
  (forall r x, JSON.parse_value f r = Some x -> length (snd x) < length r) /\
  (forall r x, JSON.parse_elements f r = Some x -> length (snd x) < length r) /\
  (forall a r x, JSON.parse_members f a r = Some x -> length (snd x) < length r).
Proof.
  induction f as [|f [IHv [IHe IHm]]].
  - repeat split; intros; discriminate.
  - split; [|split].
    + intros r [v rest] H. cbn [JSON.parse_value] in H. cbn [snd].
      apply (value_step_progress _ _ _ _ _ IHe (IHm []) H).
    + intros r [vs rest] H. cbn [JSON.parse_elements] in H. cbn [snd].
      apply (elements_step_progress _ _ _ _ _ IHv IHe H).
    + intros a r [fs rest] H. cbn [JSON.parse_members] in H. cbn [snd].
      apply (members_step_progress _ _ _ _ _ _ IHv IHm H).
Qed.

(** Beyond twice the length of the text, more depth changes nothing. *)
Lemma parsers_stable (n : nat) :
  forall s, length s <= n ->
    (forall f, 2 * n <= f -> JSON.parse_value (S f) s = JSON.parse_value f s) /\
    (forall f, 2 * n + 1 <= f -> JSON.parse_elements (S f) s = JSON.parse_elements f s) /\
    (forall f a, 2 * n + 1 <= f ->
                 JSON.parse_members (S f) a s = JSON.parse_members f a s).
Proof.
  induction n as [|n IH]; intros s Hs.
  - destruct s; [|simpl in Hs; lia].
    split; [|split].
    + intros [|f] _; reflexivity.
    + intros [|f] _; [reflexivity|]. cbn [JSON.parse_elements].
      unfold JSON.elements_step. destruct f; reflexivity.
    + intros [|f] a _; reflexivity.
  - assert (Hv : forall f, 2 * S n <= f ->
                           JSON.parse_value (S f) s = JSON.parse_value f s).
    { intros [|f] Hf; [lia|]. cbn [JSON.parse_value].
      apply value_step_ext; intros r Hr.
      - apply (IH r); lia.
      - apply (IH r); lia. }
    split; [exact Hv|]. split.
    + intros [|f] Hf; [lia|]. cbn [JSON.parse_elements].
      apply elements_step_ext.
      * apply Hv. lia.
      * apply parsers_progress.
      * intros r Hr. apply (IH r); lia.
    + intros [|f] a Hf; [lia|]. cbn [JSON.parse_members].
      apply members_step_ext.
      * intros r Hr. destruct (IH r ltac:(lia)) as [H _]. apply H. lia.
      * apply parsers_progress.
      * intros a' r Hr. apply (IH r); lia.
Qed.

(** The depth that [JSON.parse] gives is all the depth the text can use. *)
Theorem parse_value_fuel (text : jsstring) (f : nat) :
  2 * length text + 2 <= f ->
  JSON.parse_value f text = JSON.parse_value (2 * length text + 2) text.
Proof.
  intros H. replace f with ((f - (2 * length text + 2)) + (2 * length text + 2)) by lia.
  induction (f - (2 * length text + 2)) as [|k IH]; [reflexivity|].
  cbn [Nat.add]. rewrite <- IH.
  apply (parsers_stable (length text) text (le_n _)). lia.
Qed.

(** ** The matcher on a fenced block *)

Section MatcherFacts.
Import Regex.
Variable k : jsstring -> option jsstring.

(** A greedy star that can stop right after a run of its class does. *)
Lemma greedy_run (cls : N -> bool) (w r : jsstring) (g : jsstring) :
  forallb cls w = true ->
  match r with [] => True | c :: _ => cls c = false end ->
  k r = Some g ->
  greedy cls k (w ++ r) = Some g.
Proof.
  intros Hw Hr Hk. induction w as [|c w IH].
  - destruct r as [|c r]; simpl; [exact Hk|]. rewrite Hr. exact Hk.
  - simpl. simpl in Hw. apply andb_prop in Hw. destruct Hw as [Hc Hw].
    rewrite Hc, (IH Hw). reflexivity.
Qed.

(** A lazy star stops at the first place where the rest matches. *)
Lemma lazy_first (body rest acc : jsstring) :
  (forall b1 b2, body = b1 ++ b2 -> b2 <> [] -> k (b2 ++ rest) = None) ->
  k rest <> None ->
  lazy any k acc (body ++ rest) = Some (rev acc ++ body).
Proof.
  revert acc. induction body as [|c body IH]; intros acc Hnone Hrest.
  - simpl. destruct rest; simpl; destruct (k _); try congruence;
      rewrite app_nil_r; reflexivity.
  - assert (H0 : k (c :: body ++ rest) = None)
      by (apply (Hnone [] (c :: body) eq_refl); discriminate).
    simpl. rewrite H0. unfold any at 1.
    rewrite IH; [simpl; rewrite <- app_assoc; reflexivity | | exact Hrest].
    intros b1 b2 E Hb2. apply (Hnone (c :: b1) b2); [rewrite E; reflexivity | exact Hb2].
Qed.
End MatcherFacts.

Lemma fence_not_ws (c : N) (s : jsstring) :
  is_ws c = true -> strip_prefix GeminiService.fence (c :: s) = None.
Proof.
  intros Hc. unfold GeminiService.fence. cbn [strip_prefix].
  destruct (N.eqb_spec backtick c) as [E|_]; [|reflexivity].
  subst c. discriminate Hc.
Qed.

Lemma closing_spec (s : jsstring) :
  closing s =
  match strip_prefix GeminiService.fence (trimStart s) with
  | Some _ => Some []
  | None => None
  end.
Proof.
  change (closing s) with
    (Regex.greedy is_ws
       (fun s => match strip_prefix GeminiService.fence s with
                 | Some _ => Some []
                 | None => None
                 end) s).
  induction s as [|c s IH]; [reflexivity|].
  cbn [Regex.greedy trimStart]. destruct (is_ws c) eqn:Hc; [|reflexivity].
  rewrite IH. destruct (strip_prefix GeminiService.fence (trimStart s)); [reflexivity|].
  rewrite (fence_not_ws _ _ Hc). reflexivity.
Qed.

(** A string without a fence, followed by white space, does not start a
    fence. *)
Lemma no_fence_before_ws (u v : jsstring) (x : N) :
  occurs GeminiService.fence u = false -> u <> [] -> is_ws x = true ->
  strip_prefix GeminiService.fence (u ++ x :: v) = None.
Proof.
  intros Hocc Hu Hx. apply is_ws_not_backtick in Hx.
  apply occurs_head in Hocc. unfold GeminiService.fence in *.
  destruct u as [|c1 [|c2 [|c3 u]]]; [congruence| | |]; cbn [strip_prefix app] in *.
  - destruct (N.eqb_spec backtick c1); [|reflexivity].
    destruct (N.eqb_spec backtick x); [congruence | reflexivity].
  - destruct (N.eqb_spec backtick c1); [|reflexivity].
    destruct (N.eqb_spec backtick c2); [|reflexivity].
    destruct (N.eqb_spec backtick x); [congruence | reflexivity].
  - destruct (N.eqb backtick c1); [|reflexivity].
    destruct (N.eqb backtick c2); [|reflexivity].
    destruct (N.eqb backtick c3); [discriminate | reflexivity].
Qed.

Lemma search_no_fence (s : jsstring) :
  occurs GeminiService.fence s = false ->
  Regex.search GeminiService.fence_pattern s = None.
Proof.
  induction s as [|c s IH]; intros H.
  - reflexivity.
  - pose proof (occurs_head _ _ H) as Hh.
    cbn [occurs] in H. rewrite Hh in H.
    cbn [Regex.search]. unfold GeminiService.fence_pattern at 1.
    cbn [Regex.match_here]. rewrite Hh. auto.
Qed.

(** The text of a fenced block, after its opening fence and language tag:
    the pattern captures the trimmed content. *)
Lemma capture_content (content : jsstring) :
  occurs GeminiService.fence content = false ->
  Regex.match_here
    [Regex.Star is_ws; Regex.LazyGroup Regex.any; Regex.Star is_ws;
     Regex.Lit GeminiService.fence]
    (newline ++ content ++ newline ++ GeminiService.fence)
  = Some (trim content).
Proof.
  intros Hocc.
  change (Regex.match_here _) with (Regex.greedy is_ws (Regex.lazy Regex.any closing [])).
  destruct (trimStart_split content) as [w0 [Hw0 Ec]].
  destruct (trimStart content) as [|c t] eqn:Et.
  - (* the content is white space *)
    rewrite app_nil_r in Ec. subst w0.
    rewrite (trim_ws _ Hw0).
    replace (newline ++ content ++ newline ++ GeminiService.fence)
      with ((newline ++ content ++ newline) ++ GeminiService.fence)
      by (rewrite <- !app_assoc; reflexivity).
    apply greedy_run.
    + rewrite !forallb_app, Hw0. reflexivity.
    + reflexivity.
    + reflexivity.
  - pose proof (trimStart_head _ _ _ Et) as Hc.
    destruct (trimEnd_split (c :: t)) as [trail [Htrail Etrail]].
    assert (Etrim : trim content = trimEnd (c :: t)) by (unfold trim; rewrite Et; reflexivity).
    remember (trim content) as body eqn:Ebody.
    rewrite <- Etrim in Etrail.
    assert (Econtent : content = w0 ++ body ++ trail) by (rewrite <- Etrail; exact Ec).
    assert (Hbody : exists b, body = c :: b).
    { destruct body as [|c' b].
      - simpl in Etrail. rewrite <- Etrail in Htrail. simpl in Htrail.
        rewrite Hc in Htrail. discriminate.
      - simpl in Etrail. injection Etrail as <- _. eauto. }
    destruct Hbody as [b Eb].
    replace (newline ++ content ++ newline ++ GeminiService.fence)
      with ((newline ++ w0) ++ body ++ (trail ++ newline) ++ GeminiService.fence)
      by (rewrite Econtent, <- !app_assoc; reflexivity).
    apply greedy_run.
    + rewrite forallb_app, Hw0. reflexivity.
    + rewrite Eb. exact Hc.
    + rewrite lazy_first; [reflexivity | |].
      * intros b1 b2 E Hb2. rewrite closing_spec.
        assert (Hb2' : trimStart b2 <> []).
        { apply (trimEnd_suffix (c :: t) b1 b2); [rewrite <- Etrim; exact E | exact Hb2]. }
        rewrite trimStart_app by exact Hb2'.
        destruct (trimStart_split b2) as [w2 [_ E2]].
        assert (Hsub : occurs GeminiService.fence (trimStart b2) = false).
        { apply (occurs_app_r _ _ trail). apply (occurs_app_l _ (w0 ++ b1 ++ w2)).
          rewrite <- Hocc. f_equal.
          rewrite Econtent, E, <- !app_assoc. do 2 f_equal.
          rewrite app_assoc, <- E2. reflexivity. }
        destruct trail as [|x trail].
        -- change (([] ++ newline) ++ GeminiService.fence)
             with (10%N :: GeminiService.fence).
           rewrite (no_fence_before_ws _ _ 10%N Hsub Hb2' eq_refl). reflexivity.
        -- simpl in Htrail. apply andb_prop in Htrail. destruct Htrail as [Hx _].
           change (((x :: trail) ++ newline) ++ GeminiService.fence)
             with (x :: (trail ++ newline) ++ GeminiService.fence).
           rewrite (no_fence_before_ws _ _ x Hsub Hb2' Hx). reflexivity.
      * rewrite closing_spec.
        rewrite trimStart_ws_app by (rewrite forallb_app, Htrail; reflexivity).
        discriminate.
Qed.

(** ** parseResponse *)

(** On an envelope with a non-empty text, [parseResponse] is [JSON.parse]
    on the trimmed text, or on the trimmed capture when the pattern of the
    fence matches. *)
Lemma parseResponse_envelope (text : jsstring) :
  text <> [] ->
  GeminiService.parseResponse (envelope text) =
  match JSON.parse (trim (match Regex.search GeminiService.fence_pattern text with
                          | Some group1 => group1
                          | None => text
                          end)) with
  | Ok parsed => Ok parsed
  | Throw m => Throw (Error (Text (lit "Failed to parse API response: " ++ m)))
  end.
Proof.
  intros H. destruct text as [|c text]; [congruence|].
  unfold GeminiService.parseResponse, GeminiService.parseResponse_try.
  change (nullish (envelope (c :: text))) with false.
  change (opt_member _ (lit "text")) with (VStr (c :: text)).
  cbn [truthy is_empty negb].
  destruct (JSON.parse _); reflexivity.
Qed.

Lemma match_here_lit (l : jsstring) (r : Regex.regex) (s : jsstring) :
  Regex.match_here (Regex.Lit l :: r) (l ++ s) = Regex.match_here r s.
Proof. cbn [Regex.match_here]. rewrite strip_prefix_self. reflexivity. Qed.

Lemma match_here_opt_taken (l : jsstring) (r : Regex.regex) (s g : jsstring) :
  Regex.match_here r s = Some g ->
  Regex.match_here (Regex.Opt l :: r) (l ++ s) = Some g.
Proof.
  intros H. cbn [Regex.match_here]. rewrite strip_prefix_self, H. reflexivity.
Qed.

Lemma match_here_opt_skipped (l : jsstring) (r : Regex.regex) (s : jsstring) :
  strip_prefix l s = None ->
  Regex.match_here (Regex.Opt l :: r) s = Regex.match_here r s.
Proof. intros H. cbn [Regex.match_here]. rewrite H. reflexivity. Qed.

Lemma search_here (r : Regex.regex) (s g : jsstring) :
  Regex.match_here r s = Some g -> Regex.search r s = Some g.
Proof. intros H. destruct s; cbn [Regex.search]; rewrite H; reflexivity. Qed.

Lemma search_fenced (json : bool) (content : jsstring) :
  occurs GeminiService.fence content = false ->
  Regex.search GeminiService.fence_pattern (fenced json content) = Some (trim content).
Proof.
  intros Hocc. pose proof (capture_content content Hocc) as Hcap.
  apply search_here. unfold fenced, GeminiService.fence_pattern.
  rewrite match_here_lit. destruct json.
  - apply match_here_opt_taken. exact Hcap.
  - rewrite match_here_opt_skipped; [exact Hcap | reflexivity].
Qed.

(** C8, as stated, fails: a goal whose text holds three backticks parses
    when it is sent bare, and does not when it is fenced, because the lazy
    group stops at the first fence it meets. *)
Lemma parseResponse_fenced_differs :
  GeminiService.parseResponse (envelope goal_with_backticks)
  = Ok (VObj [(lit "refined_goal", VStr (lit "Avoid ``` in notes"));
              (lit "key_results", VArr [VStr (lit "a"); VStr (lit "b"); VStr (lit "c")]);
              (lit "confidence_score", VNum 8)])
  /\ GeminiService.parseResponse (envelope (fenced true goal_with_backticks))
     = Throw (Error (Text (lit "Failed to parse API response: " ++ JSON.SyntaxError_token)))
  /\ ~ (forall json content,
          GeminiService.parseResponse (envelope (fenced json content))
          = GeminiService.parseResponse (envelope content)).
Proof.
  assert (H1 : GeminiService.parseResponse (envelope goal_with_backticks)
               = Ok (VObj [(lit "refined_goal", VStr (lit "Avoid ``` in notes"));
                           (lit "key_results",
                            VArr [VStr (lit "a"); VStr (lit "b"); VStr (lit "c")]);
                           (lit "confidence_score", VNum 8)]))
    by (vm_compute; reflexivity).
  assert (H2 : GeminiService.parseResponse (envelope (fenced true goal_with_backticks))
               = Throw (Error (Text (lit "Failed to parse API response: "
                                     ++ JSON.SyntaxError_token))))
    by (vm_compute; reflexivity).
  split; [exact H1 | split; [exact H2 |]].
  intros H. specialize (H true goal_with_backticks).
  rewrite H1, H2 in H. discriminate H.
Qed.

(** C8, amended: for every non-empty content in which no run of three
    backticks occurs, the fenced block parses to the same result, value or
    error, as the bare content. *)
Theorem parseResponse_fenced (json : bool) (content : jsstring) :
  content <> [] ->
  occurs GeminiService.fence content = false ->
  GeminiService.parseResponse (envelope (fenced json content))
  = GeminiService.parseResponse (envelope content).
Proof.
  intros Hne Hocc.
  rewrite (parseResponse_envelope content Hne).
  rewrite parseResponse_envelope by (unfold fenced; discriminate).
  rewrite (search_fenced json content Hocc), (search_no_fence content Hocc).
  rewrite trim_stable. reflexivity.
Qed.

Lemma parseResponse_fenced_witness :
  GeminiService.parseResponse (envelope (fenced true plain_goal))
  = GeminiService.parseResponse (envelope plain_goal).
Proof.
  apply (parseResponse_fenced true plain_goal).
  - discriminate.
  - vm_compute. reflexivity.
Defined.

(** ** The schema *)

Lemma Qden_Qred_inject_Z (z : Z) : Qden (Qred (inject_Z z)) = 1%positive.
Proof.
  unfold Qred, inject_Z.
  pose proof (Z.ggcd_gcd z 1) as Hg.
  pose proof (Z.ggcd_correct_divisors z 1) as Hd.
  destruct (Z.ggcd z 1) as [g [aa bb]]. simpl in *.
  rewrite Z.gcd_1_r in Hg. subst g. destruct Hd as [_ Hb].
  rewrite Z.mul_1_l in Hb. subst bb. reflexivity.
Qed.

Lemma isInteger_spec (q : Q) : isInteger q = true <-> (exists z : Z, q == inject_Z z)%Q.
Proof.
  unfold isInteger. rewrite Pos.eqb_eq. split.
  - intros H. exists (Qnum (Qred q)).
    rewrite <- (Qred_correct q) at 1.
    destruct (Qred q) as [n d]. simpl in *. subst d. reflexivity.
  - intros [z Hz]. apply Qred_complete in Hz. rewrite Hz.
    apply Qden_Qred_inject_Z.
Qed.

Lemma Qltb_true (a b : Q) : Qltb a b = true <-> (a < b)%Q.
Proof.
  unfold Qltb. rewrite negb_true_iff. split.
  - intros H. apply Qnot_le_lt. intros Hle. apply Qle_bool_iff in Hle. congruence.
  - intros H. destruct (Qle_bool b a) eqn:E; [|reflexivity].
    apply Qle_bool_iff in E. exfalso. exact (Qlt_not_le _ _ H E).
Qed.

Lemma Qltb_false (a b : Q) : Qltb a b = false <-> (b <= a)%Q.
Proof.
  unfold Qltb. rewrite negb_false_iff. apply Qle_bool_iff.
Qed.

Lemma finish_valid {A : Type} (a b : A) (issues : list ZodIssue) :
  finish a issues = Valid b -> a = b /\ issues = [].
Proof. destruct issues; simpl; intros H; [injection H as <-; auto | discriminate]. Qed.

Lemma issues_finish {A : Type} (a : A) (issues : list ZodIssue) :
  issues_of (finish a issues) = issues.
Proof. destruct issues; reflexivity. Qed.

Lemma combine_valid {A B : Type} (f : Parsed (A -> B)) (x : Parsed A) (b : B) :
  combine f x = Valid b -> exists g a, f = Valid g /\ x = Valid a /\ b = g a.
Proof.
  destruct f as [g|i], x as [a|j]; simpl; intros H; try discriminate.
  injection H as <-. eauto.
Qed.

Lemma issues_combine {A B : Type} (f : Parsed (A -> B)) (x : Parsed A) :
  issues_of (combine f x) = issues_of f ++ issues_of x.
Proof.
  destruct f, x; simpl; rewrite ?app_nil_r; reflexivity.
Qed.

Lemma grounded_finish {A : Type} (a : A) (issues : list ZodIssue) :
  grounded (finish a issues).
Proof. destruct issues; exact I. Qed.

Lemma grounded_combine {A B : Type} (f : Parsed (A -> B)) (x : Parsed A) :
  grounded f -> grounded x -> grounded (combine f x).
Proof.
  destruct f as [g|[|i il]], x as [a|[|j jl]]; simpl; auto.
Qed.

Lemma grounded_string (checks : list StringCheck) (p : list PathSeg) (v : value) :
  grounded (z_string checks p v).
Proof. destruct v; simpl; try exact I. apply grounded_finish. Qed.

Lemma grounded_number (checks : list NumberCheck) (p : list PathSeg) (v : value) :
  grounded (z_number checks p v).
Proof. destruct v; simpl; try exact I. apply grounded_finish. Qed.

Lemma grounded_items {A : Type} (element : Schema A) (p : list PathSeg)
  (items : list value) :
  (forall q x, grounded (element q x)) ->
  forall i, grounded (parse_items element p i items).
Proof.
  intros He. induction items as [|x items IH]; intros i; cbn [parse_items]; [exact I|].
  apply grounded_combine; [apply grounded_combine; [exact I | apply He] | apply IH].
Qed.

Lemma grounded_array {A : Type} (element : Schema A) (checks : list ArrayCheck)
  (p : list PathSeg) (v : value) :
  (forall q x, grounded (element q x)) -> grounded (z_array element checks p v).
Proof.
  intros He. destruct v; cbn [z_array]; try exact I.
  apply grounded_combine; [apply grounded_finish | apply grounded_items; exact He].
Qed.

Lemma grounded_goalSchema (p : list PathSeg) (v : value) : grounded (goalSchema p v).
Proof.
  unfold goalSchema. destruct v; cbn [z_object]; try exact I.
  repeat apply grounded_combine; try exact I; unfold field; cbn [fst snd].
  - apply grounded_string.
  - apply grounded_array. intros. apply grounded_string.
  - apply grounded_number.
Qed.

(** [parse] throws exactly the issues of the schema, when there is one. *)
Lemma parse_throws (v : value) (i : ZodIssue) :
  In i (issues_of (goalSchema [] v)) ->
  Zod.parse goalSchema v = Throw (issues_of (goalSchema [] v)).
Proof.
  unfold Zod.parse. destruct (goalSchema [] v); simpl; [contradiction | reflexivity].
Qed.

Lemma parse_ok_iff (v : value) :
  (exists g, Zod.parse goalSchema v = Ok g) <-> issues_of (goalSchema [] v) = [].
Proof.
  unfold Zod.parse. pose proof (grounded_goalSchema [] v) as G.
  destruct (goalSchema [] v) as [g|[|i il]]; simpl in *; split; intros H;
    try contradiction; try (destruct H; discriminate); try discriminate; eauto.
Qed.

Lemma goalSchema_object (p : list PathSeg) (fields : list (jsstring * value)) :
  goalSchema p (VObj fields) =
  combine
    (combine
       (combine (Valid mkGoal)
          (goal_field (p ++ [Key (lit "refined_goal")]) (lookup (lit "refined_goal") fields)))
       (results_field (p ++ [Key (lit "key_results")]) (lookup (lit "key_results") fields)))
    (score_field (p ++ [Key (lit "confidence_score")])
       (lookup (lit "confidence_score") fields)).
Proof. reflexivity. Qed.

Lemma goalSchema_issues (fields : list (jsstring * value)) :
  issues_of (goalSchema [] (VObj fields)) =
  issues_of (goal_field [Key (lit "refined_goal")] (lookup (lit "refined_goal") fields))
  ++ issues_of (results_field [Key (lit "key_results")] (lookup (lit "key_results") fields))
  ++ issues_of (score_field [Key (lit "confidence_score")]
                  (lookup (lit "confidence_score") fields)).
Proof.
  rewrite goalSchema_object, !issues_combine. cbn [issues_of app].
  rewrite <- app_assoc. reflexivity.
Qed.

(** *** What a valid field is *)

Lemma string_min1_valid (m : jsstring) (p : list PathSeg) (x : value) (a : jsstring) :
  z_string [str_min 1 m] p x = Valid a -> x = VStr a /\ a <> [].
Proof.
  destruct x; cbn [z_string]; try discriminate.
  intros H. apply finish_valid in H. destruct H as [-> H]. split; [reflexivity|].
  intros ->. discriminate H.
Qed.

Lemma items_valid (p : list PathSeg) (items : list value) :
  forall i outs,
    parse_items result_item p i items = Valid outs ->
    items = map VStr outs /\ Forall (fun r => r <> []) outs.
Proof.
  induction items as [|x items IH]; intros i outs H; cbn [parse_items] in H.
  - injection H as <-. split; [reflexivity | constructor].
  - apply combine_valid in H. destruct H as [g [rest [Hg [Hrest ->]]]].
    apply combine_valid in Hg. destruct Hg as [g0 [a [Hg0 [Ha ->]]]].
    injection Hg0 as <-.
    apply string_min1_valid in Ha. destruct Ha as [-> Ha].
    destruct (IH _ _ Hrest) as [-> Hall].
    split; [reflexivity | constructor; assumption].
Qed.

Lemma results_valid (p : list PathSeg) (x : value) (outs : list jsstring) :
  results_field p x = Valid outs ->
  x = VArr (map VStr outs) /\ 3 <= length outs <= 5 /\ Forall (fun r => r <> []) outs.
Proof.
  destruct x; cbn [results_field z_array]; try discriminate.
  intros H. apply combine_valid in H. destruct H as [g [a [Hg [Ha ->]]]].
  apply finish_valid in Hg. destruct Hg as [<- Hown].
  apply items_valid in Ha. destruct Ha as [-> Hall].
  split; [reflexivity|]. split; [|exact Hall].
  rewrite length_map in Hown. cbn [flat_map run_array_check] in Hown.
  destruct (Nat.ltb_spec (length a) 3); [discriminate|].
  destruct (Nat.ltb_spec 5 (length a)); [discriminate|]. lia.
Qed.

Lemma score_valid (p : list PathSeg) (x : value) (q : Q) :
  score_field p x = Valid q ->
  x = VNum q /\ (exists z : Z, q == inject_Z z)%Q /\ (1 <= q <= 10)%Q.
Proof.
  destruct x; cbn [score_field z_number]; try discriminate.
  intros H. apply finish_valid in H. destruct H as [-> H].
  cbn [flat_map run_number_check] in H.
  destruct (isInteger q) eqn:Hint; [|discriminate].
  destruct (Qltb q 1) eqn:Hmin; [discriminate|].
  destruct (Qltb 10 q) eqn:Hmax; [discriminate|].
  split; [reflexivity|]. split; [apply isInteger_spec; exact Hint|].
  split; [apply Qltb_false; exact Hmin | apply Qltb_false; exact Hmax].
Qed.

(** Whatever [goalSchema.parse] returns satisfies every constraint. *)
Lemma goalSchema_sound (v : value) (g : RefinedGoal) :
  Zod.parse goalSchema v = Ok g -> satisfies_schema g.
Proof.
  unfold Zod.parse. destruct (goalSchema [] v) as [g'|] eqn:E; [|discriminate].
  intros H. injection H as ->.
  destruct v; try discriminate E.
  rewrite goalSchema_object in E.
  apply combine_valid in E. destruct E as [f3 [q [E3 [Hq ->]]]].
  apply combine_valid in E3. destruct E3 as [f2 [rs [E2 [Hrs ->]]]].
  apply combine_valid in E2. destruct E2 as [f1 [s [E1 [Hs ->]]]].
  injection E1 as <-.
  apply string_min1_valid in Hs. apply results_valid in Hrs. apply score_valid in Hq.
  unfold satisfies_schema. cbn [refined_goal key_results confidence_score].
  tauto.
Qed.

(** *** The issue of each violated constraint *)

Lemma items_issue (element : Schema jsstring) (p : list PathSeg) (i : ZodIssue) :
  forall items start j x,
    nth_error items j = Some x ->
    In i (issues_of (element (p ++ [Index (start + j)]) x)) ->
    In i (issues_of (parse_items element p start items)).
Proof.
  induction items as [|y items IH]; intros start j x Hnth Hin.
  - destruct j; discriminate Hnth.
  - cbn [parse_items]. rewrite !issues_combine. cbn [issues_of app].
    apply in_or_app. destruct j as [|j].
    + injection Hnth as ->. rewrite Nat.add_0_r in Hin. left. exact Hin.
    + right. apply (IH (S start) j x Hnth).
      rewrite Nat.add_succ_comm. exact Hin.
Qed.

Lemma results_issue_of_item (p : list PathSeg) (items : list value) (i : ZodIssue)
  (j : nat) (x : value) :
  nth_error items j = Some x ->
  In i (issues_of (result_item (p ++ [Index j]) x)) ->
  In i (issues_of (results_field p (VArr items))).
Proof.
  intros Hnth Hin. cbn [results_field z_array].
  rewrite issues_combine. apply in_or_app. right.
  apply (items_issue _ _ _ items 0 j x Hnth). exact Hin.
Qed.

Lemma results_issue_of_length (p : list PathSeg) (items : list value) (i : ZodIssue) :
  In i (flat_map (run_array_check (length items) p)
          [arr_min 3 (lit "key_results must have at least 3 items");
           arr_max 5 (lit "key_results must have at most 5 items")]) ->
  In i (issues_of (results_field p (VArr items))).
Proof.
  intros Hin. cbn [results_field z_array].
  rewrite issues_combine, issues_finish. apply in_or_app. left. exact Hin.
Qed.

Lemma string_type_issue (checks : list StringCheck) (p : list PathSeg) (x : value) :
  (forall s, x <> VStr s) ->
  issues_of (z_string checks p x) = [type_issue (lit "string") x p].
Proof. intros H. destruct x; try reflexivity. exfalso. exact (H s eq_refl). Qed.

Lemma number_type_issue (checks : list NumberCheck) (p : list PathSeg) (x : value) :
  (forall q, x <> VNum q) ->
  issues_of (z_number checks p x) = [type_issue (lit "number") x p].
Proof. intros H. destruct x; try reflexivity. exfalso. exact (H q eq_refl). Qed.

Lemma array_type_issue {A : Type} (element : Schema A) (checks : list ArrayCheck)
  (p : list PathSeg) (x : value) :
  (forall items, x <> VArr items) ->
  issues_of (z_array element checks p x) = [type_issue (lit "array") x p].
Proof. intros H. destruct x; try reflexivity. exfalso. exact (H items eq_refl). Qed.

Lemma property_not_object (v : value) (k : jsstring) :
  (forall fields, v <> VObj fields) -> property v k = None.
Proof. intros H. destruct v; try reflexivity. exfalso. eapply H. reflexivity. Qed.

(** Every violated constraint has its issue among those of the schema. *)
Lemma violation_reported (v : value) (c : Constraint) :
  violates v c -> exists i, In i (issues_of (goalSchema [] v)) /\ names i c.
Proof.
  intros H.
  assert (Hobj : (exists fields, v = VObj fields) \/ (forall fields, v <> VObj fields)).
  { destruct v; try (right; discriminate). left. eauto. }
  destruct Hobj as [[fields ->] | Hno].
  2:{ (* not an object: the one issue is that of the type *)
      destruct c; cbn [violates] in H;
        try solve [ repeat match goal with
                    | H : exists _, _ |- _ => destruct H
                    | H : _ /\ _ |- _ => destruct H
                    | H : property v _ = Some _ |- _ =>
                        rewrite (property_not_object _ _ Hno) in H; discriminate H
                    end ].
      exists (type_issue (lit "object") v []). split.
      { destruct v; try (left; reflexivity). exfalso. eapply Hno. reflexivity. }
      cbn [names wording]. eexists. reflexivity. }
  rewrite goalSchema_issues.
  destruct c; cbn [violates] in H.
  - (* IsObject *) exfalso. eapply H. reflexivity.
  - (* GoalIsString *)
    destruct H as [x [E Hx]]. property_eq E. subst x.
    eexists. split.
    + apply in_or_app. left. unfold goal_field. rewrite string_type_issue by exact Hx.
      left. reflexivity.
    + cbn [names wording]; first [reflexivity | eexists; reflexivity].
  - (* GoalNonEmpty *)
    property_eq H. rewrite H.
    eexists. split; [apply in_or_app; left; left; reflexivity | reflexivity].
  - (* ResultsIsArray *)
    destruct H as [x [E Hx]]. property_eq E. subst x.
    eexists. split.
    + apply in_or_app. right. apply in_or_app. left.
      unfold results_field. rewrite array_type_issue by exact Hx. left. reflexivity.
    + cbn [names wording]; first [reflexivity | eexists; reflexivity].
  - (* ResultsAtLeast3 *)
    destruct H as [items [E Hlen]]. property_eq E. rewrite E.
    eexists. split.
    + apply in_or_app. right. apply in_or_app. left.
      apply results_issue_of_length. cbn [flat_map run_array_check].
      apply in_or_app. left.
      destruct (Nat.ltb_spec (length items) 3); [left; reflexivity | lia].
    + cbn [names wording]; first [reflexivity | eexists; reflexivity].
  - (* ResultsAtMost5 *)
    destruct H as [items [E Hlen]]. property_eq E. rewrite E.
    eexists. split.
    + apply in_or_app. right. apply in_or_app. left.
      apply results_issue_of_length. cbn [flat_map run_array_check].
      apply in_or_app. right. apply in_or_app. left.
      destruct (Nat.ltb_spec 5 (length items)); [left; reflexivity | lia].
    + cbn [names wording]; first [reflexivity | eexists; reflexivity].
  - (* ResultIsString *)
    destruct H as [items [x [E [Hnth Hx]]]]. property_eq E. rewrite E.
    eexists. split.
    + apply in_or_app. right. apply in_or_app. left.
      apply (results_issue_of_item _ _ _ i x Hnth).
      unfold result_item. rewrite string_type_issue by exact Hx. left. reflexivity.
    + cbn [names wording]; first [reflexivity | eexists; reflexivity].
  - (* ResultNonEmpty *)
    destruct H as [items [E Hnth]]. property_eq E. rewrite E.
    eexists. split.
    + apply in_or_app. right. apply in_or_app. left.
      apply (results_issue_of_item _ _ _ i _ Hnth). left. reflexivity.
    + cbn [names wording]; first [reflexivity | eexists; reflexivity].
  - (* ScoreIsNumber *)
    destruct H as [x [E Hx]]. property_eq E. subst x.
    eexists. split.
    + apply in_or_app. right. apply in_or_app. right.
      unfold score_field. rewrite number_type_issue by exact Hx. left. reflexivity.
    + cbn [names wording]; first [reflexivity | eexists; reflexivity].
  - (* ScoreIsInteger *)
    destruct H as [q [E Hq]]. property_eq E. rewrite E.
    assert (Hint : isInteger q = false).
    { destruct (isInteger q) eqn:Hi; [|reflexivity].
      exfalso. apply Hq. apply isInteger_spec. exact Hi. }
    eexists. split.
    + apply in_or_app. right. apply in_or_app. right.
      cbn [score_field z_number]. rewrite issues_finish.
      cbn [flat_map run_number_check]. rewrite Hint. left. reflexivity.
    + cbn [names wording]; first [reflexivity | eexists; reflexivity].
  - (* ScoreAtLeast1 *)
    destruct H as [q [E Hq]]. property_eq E. rewrite E.
    apply Qltb_true in Hq.
    eexists. split.
    + apply in_or_app. right. apply in_or_app. right.
      cbn [score_field z_number]. rewrite issues_finish.
      cbn [flat_map run_number_check]. rewrite Hq.
      apply in_or_app. right. left. reflexivity.
    + cbn [names wording]; first [reflexivity | eexists; reflexivity].
  - (* ScoreAtMost10 *)
    destruct H as [q [E Hq]]. property_eq E. rewrite E.
    apply Qltb_true in Hq.
    eexists. split.
    + apply in_or_app. right. apply in_or_app. right.
      cbn [score_field z_number]. rewrite issues_finish.
      cbn [flat_map run_number_check]. rewrite Hq.
      apply in_or_app. right. apply in_or_app. right. left. reflexivity.
    + cbn [names wording]; first [reflexivity | eexists; reflexivity].
Qed.

(** The constraints are all there is to the schema: a document that
    violates none of them is let through. *)
Lemma items_clean (p : list PathSeg) (items : list value) :
  (forall j x, nth_error items j = Some x -> exists s, x = VStr s /\ s <> []) ->
  forall start, issues_of (parse_items result_item p start items) = [].
Proof.
  induction items as [|x items IH]; intros H start; cbn [parse_items]; [reflexivity|].
  rewrite !issues_combine. cbn [issues_of app].
  destruct (H 0 x eq_refl) as [s [-> Hs]].
  rewrite IH by (intros j y Hy; exact (H (S j) y Hy)).
  destruct s as [|c s]; [congruence|]. reflexivity.
Qed.

Lemma goalSchema_complete (v : value) :
  (forall c, ~ violates v c) -> exists g, Zod.parse goalSchema v = Ok g.
Proof.
  intros H. apply parse_ok_iff.
  destruct v as [| | b | q | s | items | fields];
    try (exfalso; apply (H IsObject); cbn [violates]; discriminate).
  rewrite goalSchema_issues.
  (* the goal *)
  destruct (lookup (lit "refined_goal") fields) as [| | b | q | s | items | fs] eqn:E1;
    try (exfalso; apply (H GoalIsString); cbn [violates property]; rewrite E1; eexists;
         split; [reflexivity | discriminate]).
  destruct s as [|c s].
  { exfalso. apply (H GoalNonEmpty). cbn [violates property]. rewrite E1. reflexivity. }
  (* the key results *)
  destruct (lookup (lit "key_results") fields) as [| | b | q | s' | items | fs] eqn:E2;
    try (exfalso; apply (H ResultsIsArray); cbn [violates property]; rewrite E2; eexists;
         split; [reflexivity | discriminate]).
  assert (Hlen : 3 <= length items <= 5).
  { split.
    - destruct (Nat.lt_ge_cases (length items) 3) as [Hl|Hl]; [|exact Hl].
      exfalso. apply (H ResultsAtLeast3). cbn [violates property]. rewrite E2. eauto.
    - destruct (Nat.lt_ge_cases 5 (length items)) as [Hl|Hl]; [|exact Hl].
      exfalso. apply (H ResultsAtMost5). cbn [violates property]. rewrite E2. eauto. }
  assert (Hitems : forall j x, nth_error items j = Some x ->
                               exists s, x = VStr s /\ s <> []).
  { intros j x Hx.
    destruct x as [| | b | q | s' | items' | fs];
      try (exfalso; apply (H (ResultIsString j)); cbn [violates property]; rewrite E2;
           eexists; eexists; split; [reflexivity|]; split; [exact Hx | discriminate]).
    exists s'. split; [reflexivity|]. intros ->.
    apply (H (ResultNonEmpty j)). cbn [violates property]. rewrite E2. eauto. }
  (* the score *)
  destruct (lookup (lit "confidence_score") fields) as [| | b | q | s' | items' | fs] eqn:E3;
    try (exfalso; apply (H ScoreIsNumber); cbn [violates property]; rewrite E3; eexists;
         split; [reflexivity | discriminate]).
  assert (Hint : isInteger q = true).
  { destruct (isInteger q) eqn:Hi; [reflexivity|].
    exfalso. apply (H ScoreIsInteger). cbn [violates property]. rewrite E3. exists q.
    split; [reflexivity|]. intros Hz. apply isInteger_spec in Hz. congruence. }
  assert (Hmin : Qltb q 1 = false).
  { destruct (Qltb q 1) eqn:Hq; [|reflexivity].
    exfalso. apply (H ScoreAtLeast1). cbn [violates property]. rewrite E3. exists q.
    split; [reflexivity | apply Qltb_true; exact Hq]. }
  assert (Hmax : Qltb 10 q = false).
  { destruct (Qltb 10 q) eqn:Hq; [|reflexivity].
    exfalso. apply (H ScoreAtMost10). cbn [violates property]. rewrite E3. exists q.
    split; [reflexivity | apply Qltb_true; exact Hq]. }
  cbn [goal_field z_string results_field z_array score_field z_number].
  rewrite !issues_combine, !issues_finish.
  rewrite (items_clean _ items Hitems).
  cbn [flat_map run_string_check run_array_check run_number_check length].
  rewrite Hint, Hmin, Hmax.
  destruct (Nat.ltb_spec (length items) 3); [lia|].
  destruct (Nat.ltb_spec 5 (length items)); [lia|].
  reflexivity.
Qed.

(** ** Runs of the gateway *)

Lemma credential_cached (w : World) :
  credential (snd (GeminiService.apiKey w)) = credential w.
Proof.
  unfold GeminiService.apiKey, credential.
  destruct (falsy (gemini_apiKey w)) eqn:E; cbn [snd gemini_apiKey env].
  - destruct (falsy (GOOGLE_API_KEY (env w))); reflexivity.
  - rewrite E. reflexivity.
Qed.

Lemma apiKey_value (w : World) : fst (GeminiService.apiKey w) = Ok (credential w).
Proof.
  unfold GeminiService.apiKey, credential.
  destruct (falsy (gemini_apiKey w)); reflexivity.
Qed.

(** One call of [callGeminiAPI]: without a key it throws before any
    request; with a key it sends one request and settles with its outcome. *)
Lemma callGeminiAPI_run (requestBody : RequestBody) (w : World) :
  GeminiService.callGeminiAPI requestBody w =
  if falsy (credential w) then (Throw no_key_error, snd (GeminiService.apiKey w))
  else (attempt (network w 0),
        snd (fetch (endpoint w) requestBody (snd (GeminiService.apiKey w)))).
Proof.
  unfold GeminiService.callGeminiAPI, GeminiService.callGeminiAPI_try, try_catch, bind.
  pose proof (apiKey_value w) as Hk.
  destruct (GeminiService.apiKey w) as [[key|e] w'] eqn:Ek; cbn [fst snd] in *;
    [|discriminate Hk].
  injection Hk as ->. destruct (falsy (credential w)) eqn:Ef.
  - reflexivity.
  - assert (Hnet : network w' = network w).
    { unfold GeminiService.apiKey in Ek.
      destruct (falsy (gemini_apiKey w)); injection Ek as _ <-; reflexivity. }
    unfold fetch, settle, attempt, endpoint. cbn [fst snd]. rewrite Hnet.
    destruct (GeminiService.read_response (network w 0)); reflexivity.
Qed.

Lemma rows_app (a b : list Event) : rows (a ++ b) = rows a ++ rows b.
Proof.
  induction a as [|e a IH]; [reflexivity|]. destruct e; simpl; rewrite IH; reflexivity.
Qed.

Lemma fetches_app (a b : list Event) : fetches (a ++ b) = fetches a + fetches b.
Proof.
  induction a as [|e a IH]; [reflexivity|]. destruct e; simpl; rewrite IH; reflexivity.
Qed.

Lemma delays_app (a b : list Event) : delays (a ++ b) = delays a ++ delays b.
Proof.
  induction a as [|e a IH]; [reflexivity|]. destruct e; simpl; rewrite IH; reflexivity.
Qed.

Lemma credential_sent (requestBody : RequestBody) (w : World) :
  credential (sent requestBody w) = credential w.
Proof. rewrite <- (credential_cached w). reflexivity. Qed.

Lemma credential_paused (w : World) : credential (paused w) = credential w.
Proof. reflexivity. Qed.

Lemma network_keyed (w : World) : network (snd (GeminiService.apiKey w)) = network w.
Proof. unfold GeminiService.apiKey. destruct (falsy (gemini_apiKey w)); reflexivity. Qed.

Lemma trace_keyed (w : World) : trace (snd (GeminiService.apiKey w)) = trace w.
Proof. unfold GeminiService.apiKey. destruct (falsy (gemini_apiKey w)); reflexivity. Qed.

Lemma network_sent (requestBody : RequestBody) (w : World) (n : nat) :
  network (sent requestBody w) n = network w (S n).
Proof. unfold sent, fetch. cbn [snd network]. rewrite network_keyed. reflexivity. Qed.

Lemma trace_sent (requestBody : RequestBody) (w : World) :
  trace (sent requestBody w) = trace w ++ [EvFetch (endpoint w) requestBody].
Proof. unfold sent, fetch. cbn [snd trace]. rewrite trace_keyed. reflexivity. Qed.

Lemma endpoint_sent (requestBody : RequestBody) (w : World) :
  endpoint (sent requestBody w) = endpoint w.
Proof. unfold endpoint. rewrite credential_sent. reflexivity. Qed.

Lemma endpoint_paused (w : World) : endpoint (paused w) = endpoint w.
Proof. reflexivity. Qed.

Lemma trace_paused (w : World) : trace (paused w) = trace w ++ [EvDelay 4000].
Proof. reflexivity. Qed.

Lemma frame_refl (w : World) : gateway_frame w w.
Proof. unfold gateway_frame. auto. Qed.

Lemma frame_trans (a b c : World) :
  gateway_frame a b -> gateway_frame b c -> gateway_frame a c.
Proof. unfold gateway_frame. intuition congruence. Qed.

Lemma frame_keyed (w : World) : gateway_frame w (snd (GeminiService.apiKey w)).
Proof.
  unfold GeminiService.apiKey, gateway_frame.
  destruct (falsy (gemini_apiKey w)); cbn [snd]; auto.
Qed.

Lemma frame_sent (requestBody : RequestBody) (w : World) :
  gateway_frame w (sent requestBody w).
Proof.
  apply (frame_trans _ _ _ (frame_keyed w)).
  unfold sent, fetch, gateway_frame. cbn [snd env telemetry_initialized table clock trace].
  rewrite rows_app. cbn [rows]. rewrite app_nil_r. auto.
Qed.

Lemma frame_paused (w : World) : gateway_frame w (paused w).
Proof.
  unfold paused, GeminiService.delay, emit, gateway_frame.
  cbn [snd env telemetry_initialized table clock trace].
  rewrite rows_app. cbn [rows]. rewrite app_nil_r. auto.
Qed.

Lemma delay_run (w : World) : GeminiService.delay 4000 w = (Ok tt, paused w).
Proof. reflexivity. Qed.

Lemma frame_call (requestBody : RequestBody) (w : World) :
  gateway_frame w (snd (GeminiService.callGeminiAPI requestBody w)).
Proof.
  rewrite callGeminiAPI_run. destruct (falsy (credential w)); cbn [snd].
  - apply frame_keyed.
  - apply frame_sent.
Qed.

(** The retry loop leaves the frame alone, whatever the bound. *)
Lemma frame_retry (requestBody : RequestBody) (maxRetries : nat) :
  forall left attempt_no w,
    gateway_frame w
      (snd (GeminiService.retry_loop left attempt_no maxRetries requestBody w)).
Proof.
  induction left as [|left IH]; intros attempt_no w; cbn [GeminiService.retry_loop].
  - apply frame_refl.
  - unfold try_catch. pose proof (frame_call requestBody w) as Hc.
    destruct (GeminiService.callGeminiAPI requestBody w) as [[d|e] w1]; cbn [snd] in *.
    + exact Hc.
    + destruct (attempt_no =? maxRetries).
      * exact Hc.
      * unfold bind. rewrite delay_run. apply (frame_trans _ _ _ Hc).
        apply (frame_trans _ _ _ (frame_paused w1)). apply IH.
Qed.

(** The three attempts of [callGeminiAPIWithRetry] when a key is set. *)
Lemma gateway_run (requestBody : RequestBody) (w : World) :
  falsy (credential w) = false ->
  GeminiService.callGeminiAPIWithRetry requestBody 3 w =
  match attempt (network w 0) with
  | Ok d => (Ok d, sent requestBody w)
  | Throw _ =>
      match attempt (network w 1) with
      | Ok d => (Ok d, sent requestBody (paused (sent requestBody w)))
      | Throw _ =>
          (attempt (network w 2),
           sent requestBody (paused (sent requestBody (paused (sent requestBody w)))))
      end
  end.
Proof.
  intros Hk.
  unfold GeminiService.callGeminiAPIWithRetry. cbn [GeminiService.retry_loop].
  unfold try_catch at 1. rewrite callGeminiAPI_run, Hk.
  fold (sent requestBody w).
  destruct (attempt (network w 0)) as [d|e1]; [reflexivity|].
  cbn [Nat.eqb]. unfold bind at 1. rewrite delay_run.
  unfold try_catch at 1. rewrite callGeminiAPI_run.
  rewrite credential_paused, credential_sent, Hk.
  fold (sent requestBody (paused (sent requestBody w))).
  change (network (paused (sent requestBody w)) 0) with (network (sent requestBody w) 0).
  rewrite network_sent.
  destruct (attempt (network w 1)) as [d|e2]; [reflexivity|].
  cbn [Nat.eqb]. unfold bind at 1. rewrite delay_run.
  unfold try_catch at 1. rewrite callGeminiAPI_run.
  rewrite credential_paused, credential_sent, credential_paused, credential_sent, Hk.
  fold (sent requestBody (paused (sent requestBody (paused (sent requestBody w))))).
  change (network (paused (sent requestBody (paused (sent requestBody w)))) 0)
    with (network (sent requestBody (paused (sent requestBody w))) 0).
  rewrite network_sent.
  change (network (paused (sent requestBody w)) 1) with (network (sent requestBody w) 1).
  rewrite network_sent.
  destruct (attempt (network w 2)) as [d|e3]; reflexivity.
Qed.

(** Without a key every attempt throws before any request, and the loop
    pauses twice all the same. *)
Lemma gateway_no_key_run (requestBody : RequestBody) (w : World) :
  falsy (credential w) = true ->
  GeminiService.callGeminiAPIWithRetry requestBody 3 w
  = (Throw no_key_error, keyed (paused (keyed (paused (keyed w))))).
Proof.
  intros Hk.
  unfold GeminiService.callGeminiAPIWithRetry. cbn [GeminiService.retry_loop].
  unfold try_catch at 1. rewrite callGeminiAPI_run, Hk.
  cbn [Nat.eqb]. unfold bind at 1. rewrite delay_run.
  unfold try_catch at 1. rewrite callGeminiAPI_run.
  rewrite credential_paused, credential_cached, Hk.
  cbn [Nat.eqb]. unfold bind at 1. rewrite delay_run.
  unfold try_catch at 1. rewrite callGeminiAPI_run.
  rewrite credential_paused, credential_cached, credential_paused, credential_cached, Hk.
  reflexivity.
Qed.

Lemma gateway_no_key (requestBody : RequestBody) (w : World) :
  falsy (credential w) = true ->
  fst (GeminiService.callGeminiAPIWithRetry requestBody 3 w) = Throw no_key_error
  /\ trace (snd (GeminiService.callGeminiAPIWithRetry requestBody 3 w))
     = trace w ++ [EvDelay 4000; EvDelay 4000]
  /\ network (snd (GeminiService.callGeminiAPIWithRetry requestBody 3 w)) = network w.
Proof.
  intros Hk. rewrite (gateway_no_key_run requestBody w Hk). cbn [fst snd].
  split; [reflexivity|]. unfold keyed. split.
  - rewrite trace_keyed. unfold paused, GeminiService.delay, emit. cbn [snd trace].
    rewrite trace_keyed. cbn [snd trace]. rewrite trace_keyed.
    rewrite <- app_assoc. reflexivity.
  - rewrite network_keyed. unfold paused, GeminiService.delay, emit. cbn [snd network].
    rewrite network_keyed. cbn [snd network]. apply network_keyed.
Qed.

Lemma attempt_fails_iff (o : FetchOutcome) :
  (exists e, attempt o = Throw e) <-> delivery_failure o.
Proof.
  unfold attempt, delivery_failure, GeminiService.read_response.
  destruct o as [m | status statusText [data | m]].
  - split; [auto | eauto].
  - destruct (response_ok status); cbn [negb].
    + split; [intros [e H]; discriminate | intros [H | [m H]]; discriminate].
    + split; [auto|]. intros _.
      destruct (GeminiService.error_detail data statusText); eauto.
  - destruct (response_ok status); cbn [negb]; split; eauto.
Qed.

(** C6: the gateway makes at most three attempts; an attempt fails on a
    transport error, on a status outside 200-299 and on an unreadable body
    (and, when no key is set, before its request is sent); after a failed
    first or second attempt the gateway pauses 4000 ms, the same pause both
    times, and tries again; the result is the data of the first attempt
    that succeeds, or the error of the third attempt when all three fail. *)
Theorem gateway_three_attempts (requestBody : RequestBody) (w : World) :
  let run := GeminiService.callGeminiAPIWithRetry requestBody 3 w in
  let call i := if falsy (credential w) then Throw no_key_error
                else attempt (network w i) in
  let request := if falsy (credential w) then []
                 else [EvFetch (endpoint w) requestBody] in
  let pause := [EvDelay 4000] in
  (forall o, (exists e, attempt o = Throw e) <-> delivery_failure o) /\
  match call 0, call 1, call 2 with
  | Ok data, _, _ =>
      fst run = Ok data /\ trace (snd run) = trace w ++ request
  | Throw _, Ok data, _ =>
      fst run = Ok data /\ trace (snd run) = trace w ++ request ++ pause ++ request
  | Throw _, Throw _, third =>
      fst run = third /\
      trace (snd run) = trace w ++ request ++ pause ++ request ++ pause ++ request
  end.
Proof.
  intros run call request pause. split; [exact attempt_fails_iff|].
  subst run call request pause. cbv beta.
  destruct (falsy (credential w)) eqn:Hk.
  - destruct (gateway_no_key requestBody w Hk) as [Hr [Ht _]].
    split; [exact Hr | exact Ht].
  - rewrite (gateway_run requestBody w Hk).
    destruct (attempt (network w 0)) as [d1|e1]; cbn [fst snd].
    + split; [reflexivity | apply trace_sent].
    + destruct (attempt (network w 1)) as [d2|e2]; cbn [fst snd].
      * split; [reflexivity|].
        repeat (rewrite trace_sent || rewrite trace_paused).
        repeat (rewrite endpoint_sent || rewrite endpoint_paused).
        rewrite <- !app_assoc. reflexivity.
      * split; [reflexivity|].
        repeat (rewrite trace_sent || rewrite trace_paused).
        repeat (rewrite endpoint_sent || rewrite endpoint_paused).
        rewrite <- !app_assoc. reflexivity.
Qed.

(** Three overloaded answers: three requests, two pauses, and the error of
    the third answer. *)
Lemma three_overloaded_answers :
  let w := sample_world (Some (lit "key")) (fun _ => overloaded) (fun _ => InsertRows 1) in
  let run := GeminiService.callGeminiAPIWithRetry (request_for (lit "get fit")) 3 w in
  fst run = Throw (Error (Text (lit
    "Failed to call Gemini API: Gemini API error (503): overloaded"))) /\
  fetches (trace (snd run)) = 3 /\
  delays (trace (snd run)) = [4000; 4000].
Proof. vm_compute. repeat split. Qed.

(** C4, as stated, fails: without a key the gateway still goes through its
    loop, and pauses twice before the error surfaces. *)
Lemma missing_credential_pauses :
  let w := sample_world None (fun _ => answer (scored_goal (lit "8")))
             (fun _ => InsertRows 1) in
  let run := GeminiService.callGeminiAPIWithRetry (request_for (lit "get fit")) 3 w in
  fst run = Throw no_key_error /\
  fetches (trace (snd run)) = 0 /\
  delays (trace (snd run)) = [4000; 4000] /\
  delays (trace (snd run)) <> [].
Proof.
  vm_compute. repeat split; discriminate.
Qed.

(** C4, amended: without a key every attempt raises the configuration error
    before any request is sent, so no request is ever sent; the error is
    retried like any other: the gateway pauses 4000 ms twice, and the error
    of the third attempt surfaces. *)
Theorem missing_credential_is_retried (requestBody : RequestBody) (w : World) :
  falsy (credential w) = true ->
  let run := GeminiService.callGeminiAPIWithRetry requestBody 3 w in
  fst run = Throw no_key_error /\
  trace (snd run) = trace w ++ [EvDelay 4000; EvDelay 4000] /\
  network (snd run) = network w.
Proof. intros Hk run. exact (gateway_no_key requestBody w Hk). Qed.

Lemma missing_credential_is_retried_witness :
  let w := sample_world None (fun _ => answer (scored_goal (lit "8")))
             (fun _ => InsertRows 1) in
  let run := GeminiService.callGeminiAPIWithRetry (request_for (lit "get fit")) 3 w in
  fst run = Throw no_key_error /\
  trace (snd run) = trace w ++ [EvDelay 4000; EvDelay 4000] /\
  network (snd run) = network w.
Proof.
  intros w. exact (missing_credential_is_retried (request_for (lit "get fit")) w eq_refl).
Defined.

(** ** Runs of the telemetry service *)

Lemma logAICall_run (d : TelemetryData) (w : World) :
  TelemetryService.logAICall d w =
  if sink_ready w then (TelemetryService.read_insert (table w 0), logged d w)
  else (Throw no_table_error, w).
Proof.
  unfold TelemetryService.logAICall, bind, sink_ready, logged, tick.
  unfold TelemetryService.initialize.
  destruct (telemetry_initialized w) eqn:Hi; cbn [orb].
  - reflexivity.
  - destruct (falsy (SUPABASE_API_KEY (env w))); reflexivity.
Qed.

Lemma trace_logged (d : TelemetryData) (w : World) :
  trace (logged d w) = trace w ++ [EvInsert (TelemetryService.logEntry (clock w 0) d)].
Proof.
  unfold logged, tick, TelemetryService.initialize.
  destruct (telemetry_initialized w); [reflexivity|].
  destruct (falsy (SUPABASE_API_KEY (env w))); reflexivity.
Qed.

Lemma network_logged (d : TelemetryData) (w : World) :
  network (logged d w) = network w.
Proof.
  unfold logged, tick, TelemetryService.initialize.
  destruct (telemetry_initialized w); [reflexivity|].
  destruct (falsy (SUPABASE_API_KEY (env w))); reflexivity.
Qed.

Lemma read_insert_ok (o : InsertOutcome) :
  TelemetryService.read_insert o = Ok tt <-> takes_row o = true.
Proof. destruct o; simpl; split; congruence. Qed.

(** ** Runs of [refineGoal] *)

Lemma Date_now_run (w : World) : Date_now w = (Ok (clock w 0), tick w).
Proof. reflexivity. Qed.

Lemma sink_ready_tick (w : World) : sink_ready (tick w) = sink_ready w.
Proof. reflexivity. Qed.

Lemma trace_tick (w : World) : trace (tick w) = trace w.
Proof. reflexivity. Qed.

Lemma credential_tick (w : World) : credential (tick w) = credential w.
Proof. reflexivity. Qed.

Lemma refineGoal_short (userInput : value) (w : World) :
  GeminiService.no_input userInput = true ->
  GeminiService.refineGoal userInput w
  = GeminiService.handleEmptyInput (clock w 0) (tick w).
Proof.
  intros H. unfold GeminiService.refineGoal, bind at 1.
  unfold Date_now at 1. rewrite H. reflexivity.
Qed.

Lemma refineGoal_long (userInput : value) (w : World) :
  GeminiService.no_input userInput = false ->
  GeminiService.refineGoal userInput w
  = try_catch (GeminiService.refineGoal_try (clock w 0) (GeminiService.text_of userInput))
      (GeminiService.refineGoal_catch (clock w 0) (GeminiService.text_of userInput))
      (tick w).
Proof.
  intros H. unfold GeminiService.refineGoal, bind at 1.
  unfold Date_now at 1. rewrite H. reflexivity.
Qed.

Lemma handleEmptyInput_run (start : Z) (w : World) :
  GeminiService.handleEmptyInput start w =
  let d := empty_record start (clock w 0) in
  if sink_ready w then
    match TelemetryService.read_insert (table w 0) with
    | Ok _ => (Ok (Goal GeminiService.sentinel), logged d (tick w))
    | Throw e => (Throw e, logged d (tick w))
    end
  else (Throw no_table_error, tick w).
Proof.
  unfold GeminiService.handleEmptyInput, bind at 1. rewrite Date_now_run.
  cbv beta iota. unfold bind at 1. rewrite logAICall_run, sink_ready_tick.
  change (table (tick w) 0) with (table w 0).
  cbv zeta. fold (empty_record start (clock w 0)).
  destruct (sink_ready w); [|reflexivity].
  destruct (TelemetryService.read_insert (table w 0)) as [[]|e]; reflexivity.
Qed.

Lemma refineGoal_catch_run (start : Z) (s : jsstring) (e : JsError) (w : World) :
  GeminiService.refineGoal_catch start s e w =
  let d := failure_record start (clock w 0) s e in
  if sink_ready w then
    match TelemetryService.read_insert (table w 0) with
    | Ok _ => (Throw e, logged d (tick w))
    | Throw e' => (Throw e', logged d (tick w))
    end
  else (Throw no_table_error, tick w).
Proof.
  unfold GeminiService.refineGoal_catch, bind at 1. rewrite Date_now_run.
  cbv beta iota. unfold bind at 1. rewrite logAICall_run, sink_ready_tick.
  change (table (tick w) 0) with (table w 0).
  cbv zeta. fold (failure_record start (clock w 0) s e).
  destruct (sink_ready w); [|reflexivity].
  destruct (TelemetryService.read_insert (table w 0)) as [[]|e']; reflexivity.
Qed.

Lemma refineGoal_try_run (start : Z) (s : jsstring) (w : World) :
  GeminiService.refineGoal_try start s w =
  match GeminiService.callGeminiAPIWithRetry (request_for s) 3 w with
  | (Throw e, w2) => (Throw e, w2)
  | (Ok response, w2) =>
      match validate response with
      | Throw e => (Throw e, tick w2)
      | Ok g =>
          if Qltb (confidence_score g) 4 then (Ok (Rejection guardrail_message), tick w2)
          else
            match TelemetryService.logAICall
                    (success_record start (clock w2 0) s g) (tick w2) with
            | (Ok _, w4) => (Ok (Goal g), w4)
            | (Throw e, w4) => (Throw e, w4)
            end
      end
  end.
Proof.
  unfold GeminiService.refineGoal_try, bind at 1. fold (request_for s).
  destruct (GeminiService.callGeminiAPIWithRetry (request_for s) 3 w)
    as [[response|e] w2]; [|reflexivity].
  unfold bind at 1. rewrite Date_now_run. cbv beta iota.
  unfold bind at 1, settle, validate.
  destruct (GeminiService.parseResponse response) as [parsed|e]; [|reflexivity].
  destruct (Zod.parse goalSchema parsed) as [g|issues]; [|reflexivity].
  destruct (Qltb (confidence_score g) 4); [reflexivity|].
  unfold bind. fold (success_record start (clock w2 0) s g).
  destruct (TelemetryService.logAICall _ _) as [[[]|e] w4]; reflexivity.
Qed.

Lemma sink_framed (w w' : World) :
  gateway_frame w w' -> sink_ready w' = sink_ready w /\ table w' = table w.
Proof.
  unfold gateway_frame, sink_ready. intros [He [Hi [Ht _]]]. rewrite He, Hi. auto.
Qed.

(** [refineGoal] once the gateway has failed. *)
Lemma refineGoal_gateway_failed (userInput : value) (w w2 : World) (e : JsError) :
  GeminiService.no_input userInput = false ->
  GeminiService.callGeminiAPIWithRetry (request_for (GeminiService.text_of userInput)) 3
    (tick w) = (Throw e, w2) ->
  GeminiService.refineGoal userInput w
  = GeminiService.refineGoal_catch (clock w 0) (GeminiService.text_of userInput) e w2.
Proof.
  intros Hin Hgw. rewrite (refineGoal_long _ _ Hin). unfold try_catch.
  rewrite refineGoal_try_run, Hgw. reflexivity.
Qed.

(** [refineGoal] once the gateway has returned a response. *)
Lemma refineGoal_gateway_returned (userInput : value) (w w2 : World) (response : value) :
  GeminiService.no_input userInput = false ->
  GeminiService.callGeminiAPIWithRetry (request_for (GeminiService.text_of userInput)) 3
    (tick w) = (Ok response, w2) ->
  GeminiService.refineGoal userInput w =
  let s := GeminiService.text_of userInput in
  match validate response with
  | Throw e => GeminiService.refineGoal_catch (clock w 0) s e (tick w2)
  | Ok g =>
      if Qltb (confidence_score g) 4 then (Ok (Rejection guardrail_message), tick w2)
      else
        let d := success_record (clock w 0) (clock w2 0) s g in
        if sink_ready w then
          match TelemetryService.read_insert (table w 0) with
          | Ok _ => (Ok (Goal g), logged d (tick w2))
          | Throw e =>
              GeminiService.refineGoal_catch (clock w 0) s e (logged d (tick w2))
          end
        else GeminiService.refineGoal_catch (clock w 0) s no_table_error (tick w2)
  end.
Proof.
  intros Hin Hgw. rewrite (refineGoal_long _ _ Hin). unfold try_catch.
  rewrite refineGoal_try_run, Hgw. cbv zeta.
  pose proof (frame_retry (request_for (GeminiService.text_of userInput)) 3 3 1 (tick w))
    as Hf.
  fold (GeminiService.callGeminiAPIWithRetry
          (request_for (GeminiService.text_of userInput)) 3) in Hf.
  rewrite Hgw in Hf. cbn [snd] in Hf.
  apply sink_framed in Hf. destruct Hf as [Hready Htable].
  rewrite sink_ready_tick in Hready.
  change (table (tick w)) with (table w) in Htable.
  destruct (validate response) as [g|e]; [|reflexivity].
  destruct (Qltb (confidence_score g) 4); [reflexivity|].
  rewrite logAICall_run, sink_ready_tick, Hready.
  change (table (tick w2) 0) with (table w2 0). rewrite Htable.
  destruct (sink_ready w); [|reflexivity].
  destruct (TelemetryService.read_insert (table w 0)) as [[]|e]; reflexivity.
Qed.

Lemma catch_throws (start : Z) (s : jsstring) (e : JsError) (w : World) :
  exists e', fst (GeminiService.refineGoal_catch start s e w) = Throw e'.
Proof.
  rewrite refineGoal_catch_run. cbv zeta.
  destruct (sink_ready w); [|cbn [fst]; eauto].
  destruct (TelemetryService.read_insert (table w 0)); cbn [fst]; eauto.
Qed.

(** What [refineGoal] returns, when it returns. *)
Lemma refineGoal_returns (userInput : value) (w : World) (r : Refinement) :
  fst (GeminiService.refineGoal userInput w) = Ok r ->
  (GeminiService.no_input userInput = true /\ r = Goal GeminiService.sentinel)
  \/ (GeminiService.no_input userInput = false /\
      exists response g,
        model_response w (GeminiService.text_of userInput) = Ok response
        /\ validate response = Ok g
        /\ ((Qltb (confidence_score g) 4 = true /\ r = Rejection guardrail_message)
            \/ (Qltb (confidence_score g) 4 = false /\ r = Goal g))).
Proof.
  intros H. destruct (GeminiService.no_input userInput) eqn:Hin.
  - left. split; [reflexivity|].
    rewrite (refineGoal_short _ _ Hin), handleEmptyInput_run in H. cbv zeta in H.
    destruct (sink_ready (tick w)); [|discriminate H].
    destruct (TelemetryService.read_insert (table (tick w) 0)); [|discriminate H].
    cbn [fst] in H. congruence.
  - right. split; [reflexivity|]. unfold model_response.
    destruct (GeminiService.callGeminiAPIWithRetry
                (request_for (GeminiService.text_of userInput)) 3 (tick w))
      as [[response|e] w2] eqn:Hgw.
    + rewrite (refineGoal_gateway_returned _ _ _ _ Hin Hgw) in H. cbv zeta in H.
      exists response. cbn [fst].
      destruct (validate response) as [g|e].
      2:{ destruct (catch_throws (clock w 0) (GeminiService.text_of userInput) e (tick w2))
            as [e' He']. congruence. }
      exists g. split; [reflexivity|]. split; [reflexivity|].
      destruct (Qltb (confidence_score g) 4).
      * left. cbn [fst] in H. split; congruence.
      * right. split; [reflexivity|].
        destruct (sink_ready w).
        2:{ destruct (catch_throws (clock w 0) (GeminiService.text_of userInput)
                        no_table_error (tick w2)) as [e' He']. congruence. }
        destruct (TelemetryService.read_insert (table w 0)) as [u|e].
        -- cbn [fst] in H. congruence.
        -- match type of H with
           | fst (GeminiService.refineGoal_catch ?a ?b ?c ?d) = _ =>
               destruct (catch_throws a b c d) as [e' He']
           end. congruence.
    + rewrite (refineGoal_gateway_failed _ _ _ _ Hin Hgw) in H.
      destruct (catch_throws (clock w 0) (GeminiService.text_of userInput) e w2)
        as [e' He']. congruence.
Qed.

Lemma validate_sound (response : value) (g : RefinedGoal) :
  validate response = Ok g -> satisfies_schema g.
Proof.
  unfold validate. destruct (GeminiService.parseResponse response) as [v|e]; [|discriminate].
  destruct (Zod.parse goalSchema v) as [g'|issues] eqn:E; [|discriminate].
  intros H. injection H as <-. exact (goalSchema_sound v g' E).
Qed.

Lemma sentinel_violates : ~ satisfies_schema GeminiService.sentinel.
Proof.
  unfold satisfies_schema. cbn. intros [_ [[H _] _]]. lia.
Qed.

(** ** The pipeline *)

(** C1: whatever the Schema Validator lets through satisfies every
    constraint of the schema: a non-empty goal, three to five key results,
    none of them empty, and an integer score from 1 to 10; and so does every
    goal that [refineGoal] returns for an input that is not empty. *)
Theorem returned_goals_satisfy_schema :
  (forall v g, Zod.parse goalSchema v = Ok g -> satisfies_schema g) /\
  (forall w userInput g,
      GeminiService.no_input userInput = false ->
      fst (GeminiService.refineGoal userInput w) = Ok (Goal g) ->
      satisfies_schema g).
Proof.
  split; [exact goalSchema_sound|].
  intros w userInput g Hin H.
  destruct (refineGoal_returns _ _ _ H) as [[Hno _] | [_ [response [g' [_ [Hv Hr]]]]]].
  - congruence.
  - destruct Hr as [[_ Hr] | [_ Hr]]; [discriminate Hr|].
    injection Hr as ->. exact (validate_sound _ _ Hv).
Qed.

Lemma returned_goals_satisfy_schema_witness : satisfies_schema (sample_goal 8).
Proof.
  apply (proj2 returned_goals_satisfy_schema
           (sample_world (Some (lit "key")) (fun _ => answer (scored_goal (lit "8")))
              (fun _ => InsertRows 1))
           (VStr (lit "get fit"))).
  - reflexivity.
  - vm_compute. reflexivity.
Defined.

(** C10: a goal that [refineGoal] returns and that is not the goal of
    [handleEmptyInput] has a score of at least 4. *)
Theorem returned_goal_score_at_least_4 (w : World) (userInput : value) (g : RefinedGoal) :
  fst (GeminiService.refineGoal userInput w) = Ok (Goal g) ->
  g <> GeminiService.sentinel ->
  (4 <= confidence_score g)%Q.
Proof.
  intros H Hs.
  destruct (refineGoal_returns _ _ _ H) as [[_ Hr] | [_ [response [g' [_ [_ Hr]]]]]].
  - congruence.
  - destruct Hr as [[_ Hr] | [Hq Hr]]; [discriminate Hr|].
    injection Hr as ->. apply Qltb_false. exact Hq.
Qed.

Lemma returned_goal_score_at_least_4_witness : (4 <= confidence_score (sample_goal 8))%Q.
Proof.
  apply (returned_goal_score_at_least_4
           (sample_world (Some (lit "key")) (fun _ => answer (scored_goal (lit "8")))
              (fun _ => InsertRows 1))
           (VStr (lit "get fit"))).
  - vm_compute. reflexivity.
  - discriminate.
Defined.

(** C9, as stated, fails: for an empty input the caller receives the goal of
    [handleEmptyInput], which is none of the three outcomes: it has no key
    result and a score of 0, so it does not satisfy the schema; it is not
    the object of the guardrail; and nothing is thrown. *)
Lemma empty_input_outcome :
  let r := fst (GeminiService.refineGoal (VStr [])
                  (sample_world (Some (lit "key")) (fun _ => answer (scored_goal (lit "8")))
                     (fun _ => InsertRows 1))) in
  r = Ok (Goal GeminiService.sentinel) /\
  ~ (outcome_of r Accepted \/ outcome_of r Rejected \/ outcome_of r Failed).
Proof.
  assert (E : fst (GeminiService.refineGoal (VStr [])
                     (sample_world (Some (lit "key"))
                        (fun _ => answer (scored_goal (lit "8")))
                        (fun _ => InsertRows 1)))
              = Ok (Goal GeminiService.sentinel)) by (vm_compute; reflexivity).
  cbv zeta. rewrite E. split; [reflexivity|].
  intros [[g [Hg Hs]] | [[m Hm] | [e He]]]; try discriminate.
  injection Hg as <-. exact (sentinel_violates Hs).
Qed.

(** C9, amended: the caller of [refineGoal] receives exactly one of four
    things: a goal that satisfies the schema, the goal of
    [handleEmptyInput] (which does not satisfy it), the object of the
    guardrail, or a thrown error.  The goal of [handleEmptyInput] is
    returned only for an input that is absent, not a string or blank; a goal
    that satisfies the schema and the object of the guardrail only for
    other inputs; and the object of the guardrail carries the fixed
    message. *)
Theorem refineGoal_outcomes (w : World) (userInput : value) :
  let r := fst (GeminiService.refineGoal userInput w) in
  (exists o, outcome_of r o /\ forall o', outcome_of r o' -> o' = o) /\
  (outcome_of r Sentinel -> GeminiService.no_input userInput = true) /\
  (outcome_of r Accepted -> GeminiService.no_input userInput = false) /\
  (outcome_of r Rejected ->
   GeminiService.no_input userInput = false /\ r = Ok (Rejection guardrail_message)).
Proof.
  cbv zeta.
  destruct (fst (GeminiService.refineGoal userInput w)) as [r|e] eqn:H.
  2:{ split.
      - exists Failed. split; [cbn; eauto|].
        intros [] Ho; cbn in Ho; try reflexivity.
        + destruct Ho as [g [Hg _]]. discriminate.
        + discriminate.
        + destruct Ho as [m Hm]. discriminate.
      - split; [intros Ho; cbn in Ho; discriminate|].
        split; [intros Ho; cbn in Ho; destruct Ho as [g [Hg _]]; discriminate|].
        intros Ho. cbn in Ho. destruct Ho as [m Hm]. discriminate. }
  destruct (refineGoal_returns _ _ _ H)
    as [[Hin ->] | [Hin [response [g [_ [Hv [[_ ->] | [_ ->]]]]]]]].
  - (* the goal of handleEmptyInput *)
    split.
    + exists Sentinel. split; [reflexivity|].
      intros [] Ho; cbn in Ho; try reflexivity.
      * destruct Ho as [g [Hg Hs]]. injection Hg as <-.
        exfalso. exact (sentinel_violates Hs).
      * destruct Ho as [m Hm]. discriminate.
      * destruct Ho as [e He]. discriminate.
    + split; [auto|]. split.
      * intros [g [Hg Hs]]. injection Hg as <-. exfalso. exact (sentinel_violates Hs).
      * intros [m Hm]. discriminate.
  - (* the object of the guardrail *)
    split.
    + exists Rejected. split; [cbn; eauto|].
      intros [] Ho; cbn in Ho; try reflexivity.
      * destruct Ho as [g' [Hg _]]. discriminate.
      * discriminate.
      * destruct Ho as [e He]. discriminate.
    + split; [intros Ho; cbn in Ho; discriminate Ho|]. split; [auto | auto].
  - (* a goal that passed the schema *)
    pose proof (validate_sound _ _ Hv) as Hs.
    split.
    + exists Accepted. split; [cbn; eauto|].
      intros [] Ho; cbn in Ho; try reflexivity.
      * injection Ho as ->. exfalso. exact (sentinel_violates Hs).
      * destruct Ho as [m Hm]. discriminate.
      * destruct Ho as [e He]. discriminate.
    + split.
      * intros Ho. cbn in Ho. injection Ho as ->. exfalso. exact (sentinel_violates Hs).
      * split; [auto|]. intros [m Hm]. discriminate.
Qed.

Lemma model_response_run (w : World) (s : jsstring) (response : value) :
  model_response w s = Ok response ->
  exists w2,
    GeminiService.callGeminiAPIWithRetry (request_for s) 3 (tick w) = (Ok response, w2).
Proof.
  unfold model_response.
  destruct (GeminiService.callGeminiAPIWithRetry (request_for s) 3 (tick w)) as [r w2].
  cbn [fst]. intros ->. eauto.
Qed.

(** C2, as stated, fails for a score of 4 or more: the row of telemetry is
    written before the goal is returned, and when the table refuses it the
    invocation fails. *)
Lemma accepted_needs_telemetry :
  let w := sample_world (Some (lit "key")) (fun _ => answer (scored_goal (lit "4")))
             (fun _ => InsertError (lit "permission denied")) in
  model_response w (lit "get fit") = Ok (envelope (scored_goal (lit "4"))) /\
  validate (envelope (scored_goal (lit "4"))) = Ok (sample_goal 4) /\
  fst (GeminiService.refineGoal (VStr (lit "get fit")) w)
  = Throw (Error (Text (lit "permission denied"))).
Proof. vm_compute. repeat split. Qed.

(** C2, amended: for every response of the model that passes the parser and
    the schema, a score below 4 yields the object of the guardrail, with
    its fixed message and no goal; a score of 4 or more yields the goal when
    the row of telemetry is written, and a thrown error when it is not. *)
Theorem guardrail_threshold (w : World) (userInput response : value) (g : RefinedGoal) :
  GeminiService.no_input userInput = false ->
  model_response w (GeminiService.text_of userInput) = Ok response ->
  validate response = Ok g ->
  let r := fst (GeminiService.refineGoal userInput w) in
  ((confidence_score g < 4)%Q -> r = Ok (Rejection guardrail_message)) /\
  ((4 <= confidence_score g)%Q ->
   if sink_accepts w then r = Ok (Goal g) else exists e, r = Throw e).
Proof.
  intros Hin Hm Hv r. subst r.
  destruct (model_response_run _ _ _ Hm) as [w2 Hgw].
  rewrite (refineGoal_gateway_returned _ _ _ _ Hin Hgw), Hv. cbv zeta.
  split.
  - intros Hq. apply Qltb_true in Hq. rewrite Hq. reflexivity.
  - intros Hq. apply Qltb_false in Hq. rewrite Hq. unfold sink_accepts.
    destruct (sink_ready w); cbn [andb].
    + destruct (table w 0); cbn [TelemetryService.read_insert takes_row fst];
        try reflexivity; apply catch_throws.
    + apply catch_throws.
Qed.

Lemma guardrail_threshold_witness :
  let w := sample_world (Some (lit "key")) (fun _ => answer (scored_goal (lit "4")))
             (fun _ => InsertRows 1) in
  fst (GeminiService.refineGoal (VStr (lit "get fit")) w) = Ok (Goal (sample_goal 4)).
Proof.
  intros w.
  apply (proj2 (guardrail_threshold w (VStr (lit "get fit"))
                  (envelope (scored_goal (lit "4"))) (sample_goal 4)
                  eq_refl ltac:(vm_compute; reflexivity) ltac:(vm_compute; reflexivity))).
  vm_compute. discriminate.
Defined.

(** The boundary of C2: a score of 3 is rejected, with the fixed message. *)
Lemma score_3_is_rejected :
  fst (GeminiService.refineGoal (VStr (lit "get fit"))
         (sample_world (Some (lit "key")) (fun _ => answer (scored_goal (lit "3")))
            (fun _ => InsertRows 1)))
  = Ok (Rejection (lit "Input does not appear to be a valid goal.")).
Proof. vm_compute. reflexivity. Qed.

(** C3: the code does not do what the claim says.  For a response with a
    score of 3 the invocation sends its request, returns the object of the
    guardrail, and writes no row of telemetry: the [return] of the guardrail
    comes before the call of [logAICall]. *)
Theorem rejection_writes_no_row :
  let run := GeminiService.refineGoal (VStr (lit "get fit"))
               (sample_world (Some (lit "key")) (fun _ => answer (scored_goal (lit "3")))
                  (fun _ => InsertRows 1)) in
  fst run = Ok (Rejection guardrail_message) /\
  fetches (trace (snd run)) = 1 /\
  rows (trace (snd run)) = [].
Proof. vm_compute. repeat split. Qed.

(** The same, for every rejection: the rows written are those that were
    there before. *)
Lemma rejection_rows (w : World) (userInput : value) (m : jsstring) :
  fst (GeminiService.refineGoal userInput w) = Ok (Rejection m) ->
  rows (trace (snd (GeminiService.refineGoal userInput w))) = rows (trace w).
Proof.
  intros H.
  destruct (refineGoal_returns _ _ _ H) as [[_ Hr] | [Hin [response [g [Hm [Hv Hr]]]]]];
    [discriminate Hr|].
  destruct Hr as [[Hq _] | [_ Hr]]; [|discriminate Hr].
  destruct (model_response_run _ _ _ Hm) as [w2 Hgw].
  rewrite (refineGoal_gateway_returned _ _ _ _ Hin Hgw), Hv. cbv zeta.
  rewrite Hq. cbn [snd].
  pose proof (frame_retry (request_for (GeminiService.text_of userInput)) 3 3 1 (tick w))
    as Hf.
  fold (GeminiService.callGeminiAPIWithRetry
          (request_for (GeminiService.text_of userInput)) 3) in Hf.
  rewrite Hgw in Hf. cbn [snd] in Hf.
  destruct Hf as [_ [_ [_ [_ Hrows]]]]. exact Hrows.
Qed.

(** The other outcomes do write their row: one row, flagged as a success,
    for a goal that is returned. *)
Lemma accepted_rows (w : World) (userInput : value) (g : RefinedGoal) :
  GeminiService.no_input userInput = false ->
  fst (GeminiService.refineGoal userInput w) = Ok (Goal g) ->
  exists row,
    rows (trace (snd (GeminiService.refineGoal userInput w))) = rows (trace w) ++ [row]
    /\ entry_success row = true /\ output row = Some g.
Proof.
  intros Hin H.
  destruct (refineGoal_returns _ _ _ H) as [[Hno _] | [_ [response [g' [Hm [Hv Hr]]]]]];
    [congruence|].
  destruct Hr as [[_ Hr] | [Hq Hr]]; [discriminate Hr|]. injection Hr as <-.
  destruct (model_response_run _ _ _ Hm) as [w2 Hgw].
  rewrite (refineGoal_gateway_returned _ _ _ _ Hin Hgw), Hv in H |- *. cbv zeta in H |- *.
  rewrite Hq in H |- *.
  pose proof (frame_retry (request_for (GeminiService.text_of userInput)) 3 3 1 (tick w))
    as Hf.
  fold (GeminiService.callGeminiAPIWithRetry
          (request_for (GeminiService.text_of userInput)) 3) in Hf.
  rewrite Hgw in Hf. cbn [snd] in Hf.
  destruct Hf as [_ [_ [_ [_ Hrows]]]].
  destruct (sink_ready w).
  2:{ destruct (catch_throws (clock w 0) (GeminiService.text_of userInput)
                  no_table_error (tick w2)) as [e' He']. congruence. }
  destruct (TelemetryService.read_insert (table w 0)) as [u|e].
  - cbn [snd]. rewrite trace_logged, rows_app. cbn [rows].
    change (trace (tick w2)) with (trace w2). rewrite Hrows.
    eexists. split; [reflexivity|]. split; reflexivity.
  - match type of H with
    | fst (GeminiService.refineGoal_catch ?a ?b ?c ?d) = _ =>
        destruct (catch_throws a b c d) as [e' He']
    end. congruence.
Qed.

(** A failure of the gateway is logged, flagged as a failure, with the
    message of the error, before the error is thrown again. *)
Lemma failed_rows (w : World) (userInput : value) (e : JsError) :
  GeminiService.no_input userInput = false ->
  model_response w (GeminiService.text_of userInput) = Throw e ->
  sink_accepts w = true ->
  fst (GeminiService.refineGoal userInput w) = Throw e /\
  exists row,
    rows (trace (snd (GeminiService.refineGoal userInput w))) = rows (trace w) ++ [row]
    /\ entry_success row = false /\ output row = None
    /\ error_message row = Some (message_of e).
Proof.
  intros Hin Hm Hs. unfold model_response in Hm.
  destruct (GeminiService.callGeminiAPIWithRetry
              (request_for (GeminiService.text_of userInput)) 3 (tick w))
    as [r w2] eqn:Hgw. cbn [fst] in Hm. subst r.
  rewrite (refineGoal_gateway_failed _ _ _ _ Hin Hgw).
  pose proof (frame_retry (request_for (GeminiService.text_of userInput)) 3 3 1 (tick w))
    as Hf.
  fold (GeminiService.callGeminiAPIWithRetry
          (request_for (GeminiService.text_of userInput)) 3) in Hf.
  rewrite Hgw in Hf. cbn [snd] in Hf.
  destruct (sink_framed _ _ Hf) as [Hready Htable].
  destruct Hf as [_ [_ [_ [_ Hrows]]]].
  rewrite sink_ready_tick in Hready. change (table (tick w)) with (table w) in Htable.
  unfold sink_accepts in Hs. apply andb_prop in Hs. destruct Hs as [Hr Ht].
  apply read_insert_ok in Ht.
  rewrite refineGoal_catch_run, Hready, Hr, Htable, Ht. cbv zeta. cbn [fst snd].
  split; [reflexivity|].
  rewrite trace_logged, rows_app, trace_tick, Hrows. cbn [rows].
  eexists. split; [reflexivity|]. repeat split.
Qed.

(** C5, as stated, fails: [handleEmptyInput] writes its row of telemetry
    before it returns, and when the telemetry service cannot reach its
    table the blank input is answered with an error. *)
Lemma blank_input_needs_telemetry :
  let w := mute_world (fun _ => answer (scored_goal (lit "8"))) in
  GeminiService.no_input (VStr (lit "   ")) = true /\
  fst (GeminiService.refineGoal (VStr (lit "   ")) w) = Throw no_table_error.
Proof. vm_compute. split; reflexivity. Qed.

(** C5, amended: for an input that is absent, not a string, or empty after
    trimming, [refineGoal] sends no request to the model; it writes one row
    of telemetry, for the input EMPTY_INPUT and flagged as a success, and
    returns the goal "No goal provided" with no key result and a score of
    0, when the row is written; when the telemetry service cannot write the
    row, it throws. *)
Theorem empty_input_short_circuit (w : World) (userInput : value) :
  GeminiService.no_input userInput = true ->
  let run := GeminiService.refineGoal userInput w in
  network (snd run) = network w /\
  fetches (trace (snd run)) = fetches (trace w) /\
  if sink_accepts w then
    fst run = Ok (Goal (mkGoal (lit "No goal provided") [] 0)) /\
    exists row,
      rows (trace (snd run)) = rows (trace w) ++ [row] /\
      input row = lit "EMPTY_INPUT" /\ entry_success row = true /\
      output row = Some GeminiService.sentinel
  else exists e, fst run = Throw e.
Proof.
  intros Hin run. subst run.
  rewrite (refineGoal_short _ _ Hin), handleEmptyInput_run. cbv zeta.
  rewrite sink_ready_tick. change (table (tick w) 0) with (table w 0).
  unfold sink_accepts.
  destruct (sink_ready w); cbn [andb].
  - destruct (table w 0) eqn:Et;
      cbn [TelemetryService.read_insert takes_row fst snd];
      rewrite network_logged, trace_logged, fetches_app, ?rows_app;
      cbn [fetches rows]; rewrite Nat.add_0_r;
      (split; [reflexivity|]); (split; [reflexivity|]); eauto.
    split; [reflexivity|]. eexists. split; [reflexivity|]. repeat split.
  - cbn [fst snd]. repeat split. eauto.
Qed.

Lemma empty_input_short_circuit_witness :
  let w := sample_world (Some (lit "key")) (fun _ => answer (scored_goal (lit "8")))
             (fun _ => InsertRows 1) in
  fst (GeminiService.refineGoal (VStr (lit "   ")) w)
  = Ok (Goal (mkGoal (lit "No goal provided") [] 0)).
Proof.
  intros w.
  exact (proj1 (proj2 (proj2 (empty_input_short_circuit w (VStr (lit "   ")) eq_refl)))).
Defined.

(** With a key set and a first attempt that succeeds, the gateway returns
    after one request. *)
Lemma gateway_first_attempt (requestBody : RequestBody) (w : World) (response : value) :
  falsy (credential w) = false ->
  attempt (network w 0) = Ok response ->
  GeminiService.callGeminiAPIWithRetry requestBody 3 (tick w)
  = (Ok response, sent requestBody (tick w)).
Proof.
  intros Hk Ha. rewrite gateway_run by (rewrite credential_tick; exact Hk).
  change (network (tick w) 0) with (network w 0). rewrite Ha. reflexivity.
Qed.

(** After a response that the schema refuses, [refineGoal] only writes its
    row of telemetry and throws. *)
Lemma schema_violation_run (w w2 : World) (userInput response : value)
  (issues : list ZodIssue) :
  GeminiService.no_input userInput = false ->
  GeminiService.callGeminiAPIWithRetry (request_for (GeminiService.text_of userInput)) 3
    (tick w) = (Ok response, w2) ->
  validate response = Throw (ZodError issues) ->
  let run := GeminiService.refineGoal userInput w in
  fetches (trace (snd run)) = fetches (trace w2) /\
  delays (trace (snd run)) = delays (trace w2) /\
  network (snd run) = network w2 /\
  if sink_accepts w then fst run = Throw (ZodError issues)
  else exists e, fst run = Throw e.
Proof.
  intros Hin Hgw Hv run. subst run.
  rewrite (refineGoal_gateway_returned _ _ _ _ Hin Hgw), Hv. cbv zeta.
  rewrite refineGoal_catch_run. cbv zeta.
  rewrite sink_ready_tick.
  pose proof (frame_retry (request_for (GeminiService.text_of userInput)) 3 3 1 (tick w))
    as Hf.
  fold (GeminiService.callGeminiAPIWithRetry
          (request_for (GeminiService.text_of userInput)) 3) in Hf.
  rewrite Hgw in Hf. cbn [snd] in Hf.
  destruct (sink_framed _ _ Hf) as [Hready Htable].
  rewrite sink_ready_tick in Hready. rewrite Hready.
  change (table (tick w2) 0) with (table w2 0). rewrite Htable.
  change (table (tick w) 0) with (table w 0).
  unfold sink_accepts.
  destruct (sink_ready w); cbn [andb].
  - destruct (table w 0);
      cbn [TelemetryService.read_insert takes_row fst snd];
      rewrite trace_logged, network_logged, fetches_app, delays_app, !trace_tick;
      cbn [fetches delays]; rewrite ?Nat.add_0_r, ?app_nil_r;
      (split; [reflexivity|]); (split; [reflexivity|]); (split; [reflexivity|]); eauto.
  - cbn [fst snd]. rewrite !trace_tick.
    split; [reflexivity|]. split; [reflexivity|]. split; [reflexivity|]. eauto.
Qed.

(** C7: a decoded document that violates a constraint of the schema makes
    the Schema Validator throw, and the issues it throws name every
    constraint that the document violates, not only the first; and once the
    gateway has returned such a document, [refineGoal] sends no further
    request and makes no pause before it throws (the error of the validator,
    when the row of telemetry is written): when the first answer of the
    model is such a document, the invocation has made exactly one
    request. *)
Theorem schema_violations_all_reported :
  (forall v c,
      violates v c ->
      exists issues,
        Zod.parse goalSchema v = Throw issues /\
        forall c', violates v c' -> exists i, In i issues /\ names i c') /\
  (forall w w2 userInput response issues,
      GeminiService.no_input userInput = false ->
      GeminiService.callGeminiAPIWithRetry
        (request_for (GeminiService.text_of userInput)) 3 (tick w) = (Ok response, w2) ->
      validate response = Throw (ZodError issues) ->
      let run := GeminiService.refineGoal userInput w in
      fetches (trace (snd run)) = fetches (trace w2) /\
      delays (trace (snd run)) = delays (trace w2) /\
      network (snd run) = network w2 /\
      if sink_accepts w then fst run = Throw (ZodError issues)
      else exists e, fst run = Throw e) /\
  (forall w userInput response issues,
      GeminiService.no_input userInput = false ->
      falsy (credential w) = false ->
      attempt (network w 0) = Ok response ->
      validate response = Throw (ZodError issues) ->
      let run := GeminiService.refineGoal userInput w in
      fetches (trace (snd run)) = fetches (trace w) + 1 /\
      delays (trace (snd run)) = delays (trace w)).
Proof.
  split; [|split].
  - intros v c Hc. exists (issues_of (goalSchema [] v)).
    destruct (violation_reported v c Hc) as [i [Hi _]].
    split; [exact (parse_throws v i Hi)|].
    intros c' Hc'. exact (violation_reported v c' Hc').
  - exact schema_violation_run.
  - intros w userInput response issues Hin Hk Ha Hv run. subst run.
    pose proof (gateway_first_attempt (request_for (GeminiService.text_of userInput))
                  w response Hk Ha) as Hgw.
    destruct (schema_violation_run _ _ _ _ _ Hin Hgw Hv) as [Hf [Hd _]].
    rewrite Hf, Hd, trace_sent, fetches_app, delays_app, !trace_tick.
    cbn [fetches delays]. rewrite app_nil_r. split; reflexivity.
Qed.

Lemma schema_violations_all_reported_witness :
  exists issues,
    Zod.parse goalSchema drifted = Throw issues /\
    forall c', violates drifted c' -> exists i, In i issues /\ names i c'.
Proof.
  apply (proj1 schema_violations_all_reported drifted ResultsAtLeast3).
  exists [VStr (lit "Run on Monday"); VStr (lit "Run on Friday")].
  split; [reflexivity | cbn; lia].
Defined.

(** The three issues of the drifted document, in the order of the schema. *)
Lemma drifted_issues :
  Zod.parse goalSchema drifted =
  Throw [mkIssue too_small [Key (lit "key_results")]
           (lit "key_results must have at least 3 items");
         mkIssue invalid_type [Key (lit "confidence_score")]
           (lit "Expected integer, received float");
         mkIssue too_big [Key (lit "confidence_score")]
           (lit "confidence_score must be at most 10")].
Proof. vm_compute. reflexivity. Qed.

(** ** The controller *)

(** The controller passes the object of the guardrail on as a success: the
    object has no score to compare with 3. *)
Lemma controller_passes_rejection (goal : value) (w w' : World) (m : jsstring) :
  GeminiService.refineGoal goal w = (Ok (Rejection m), w') ->
  GoalController.refineGoal (VObj [(lit "goal", goal)]) w
  = (Ok (GoalController.mkReply 200 true None (Some (Rejection m))), w').
Proof.
  intros H.
  assert (Hin : GeminiService.no_input goal = false).
  { destruct (GeminiService.no_input goal) eqn:E; [|reflexivity].
    assert (Hr : fst (GeminiService.refineGoal goal w) = Ok (Rejection m))
      by (rewrite H; reflexivity).
    destruct (refineGoal_returns _ _ _ Hr) as [[_ Hx] | [Hx _]]; congruence. }
  unfold GoalController.refineGoal, try_catch.
  change (nullish (VObj [(lit "goal", goal)])) with false. cbv iota.
  change (member (VObj [(lit "goal", goal)]) (lit "goal")) with goal.
  destruct goal as [| | b | q | s | items | fields];
    try (unfold GeminiService.no_input in Hin; rewrite orb_true_r in Hin;
         discriminate Hin).
  unfold GeminiService.no_input in Hin. apply orb_false_elim in Hin.
  destruct Hin as [Ht _]. apply negb_false_iff in Ht. rewrite Ht.
  cbn [negb orb]. unfold bind. rewrite H. reflexivity.
Qed.

(** The goal of [handleEmptyInput] is answered with status 400. *)
Lemma controller_blank_input :
  fst (GoalController.refineGoal (VObj [(lit "goal", VStr (lit "   "))])
         (sample_world (Some (lit "key")) (fun _ => answer (scored_goal (lit "8")))
            (fun _ => InsertRows 1)))
  = Ok (GoalController.mkReply 400 false
          (Some (Text (lit
             "Input does not appear to be a valid goal. Please provide a clear goal statement.")))
          (Some (Goal GeminiService.sentinel))).
Proof. vm_compute. reflexivity. Qed.

(* ================================================================== *)
(** * Further properties *)
(* ================================================================== *)

(** ** The gateway, for every bound *)

Lemma callGeminiAPI_throws (requestBody : RequestBody) (w : World) (e : JsError) :
  fst (GeminiService.callGeminiAPI requestBody w) = Throw e ->
  exists m, e = Error (prefixed gateway_prefix m).
Proof.
  unfold GeminiService.callGeminiAPI, try_catch.
  destruct (GeminiService.callGeminiAPI_try requestBody w) as [[d|e0] w1]; cbn [fst].
  - discriminate.
  - unfold throw. cbn [fst]. intros H. injection H as <-. eexists. reflexivity.
Qed.

Lemma retry_loop_throws (requestBody : RequestBody) (maxRetries : nat) :
  forall left attempt_no w e,
    fst (GeminiService.retry_loop left attempt_no maxRetries requestBody w) = Throw e ->
    exists m, e = Error (prefixed gateway_prefix m).
Proof.
  induction left as [|left IH]; intros attempt_no w e; cbn [GeminiService.retry_loop].
  - discriminate.
  - unfold try_catch.
    pose proof (callGeminiAPI_throws requestBody w) as Hc.
    destruct (GeminiService.callGeminiAPI requestBody w) as [[d|e1] w1]; cbn [fst] in *.
    + discriminate.
    + destruct (attempt_no =? maxRetries).
      * unfold throw. cbn [fst]. intros H. injection H as <-. apply Hc. reflexivity.
      * unfold bind. rewrite delay_run. apply IH.
Qed.

Lemma call_outcome_next (requestBody : RequestBody) (w : World) (i : nat) :
  call_outcome (paused (snd (GeminiService.callGeminiAPI requestBody w))) i
  = call_outcome w (S i).
Proof.
  unfold call_outcome. rewrite callGeminiAPI_run.
  destruct (falsy (credential w)) eqn:Hk; cbn [snd].
  - rewrite credential_paused, credential_cached, Hk. reflexivity.
  - fold (sent requestBody w). rewrite credential_paused, credential_sent, Hk.
    change (network (paused (sent requestBody w)) i) with (network (sent requestBody w) i).
    rewrite network_sent. reflexivity.
Qed.

Lemma request_event_next (requestBody : RequestBody) (w : World) :
  request_event requestBody (paused (snd (GeminiService.callGeminiAPI requestBody w)))
  = request_event requestBody w.
Proof.
  unfold request_event. rewrite callGeminiAPI_run.
  destruct (falsy (credential w)) eqn:Hk; cbn [snd].
  - rewrite credential_paused, credential_cached, Hk. reflexivity.
  - fold (sent requestBody w). rewrite credential_paused, credential_sent, Hk.
    rewrite endpoint_paused, endpoint_sent. reflexivity.
Qed.

Lemma callGeminiAPI_outcome (requestBody : RequestBody) (w : World) :
  fst (GeminiService.callGeminiAPI requestBody w) = call_outcome w 0
  /\ trace (snd (GeminiService.callGeminiAPI requestBody w))
     = trace w ++ request_event requestBody w.
Proof.
  unfold call_outcome, request_event. rewrite callGeminiAPI_run.
  destruct (falsy (credential w)); cbn [fst snd].
  - rewrite trace_keyed, app_nil_r. split; reflexivity.
  - fold (sent requestBody w). rewrite trace_sent. split; reflexivity.
Qed.

(** The loop with [left] iterations to go, the last of which is the
    iteration number [maxRetries]. *)
Lemma retry_loop_run (requestBody : RequestBody) (maxRetries : nat) :
  forall left attempt_no w,
    attempt_no + left = S maxRetries ->
    let run := GeminiService.retry_loop left attempt_no maxRetries requestBody w in
    (forall k d,
        k < left ->
        (forall j, j < k -> exists e, call_outcome w j = Throw e) ->
        call_outcome w k = Ok d ->
        fst run = Ok d
        /\ trace (snd run) = trace w ++ attempts_trace (request_event requestBody w) k)
    /\ (0 < left ->
        (forall j, j < left -> exists e, call_outcome w j = Throw e) ->
        fst run = call_outcome w (left - 1)
        /\ trace (snd run)
           = trace w ++ attempts_trace (request_event requestBody w) (left - 1)).
Proof.
  induction left as [|left IH]; intros attempt_no w Hn run; subst run.
  - split; intros; lia.
  - cbn [GeminiService.retry_loop]. unfold try_catch.
    destruct (callGeminiAPI_outcome requestBody w) as [Hr Ht].
    pose proof (call_outcome_next requestBody w) as Hnext.
    pose proof (request_event_next requestBody w) as Hreq.
    destruct (GeminiService.callGeminiAPI requestBody w) as [[d1|e1] w1];
      cbn [fst snd] in *.
    + split.
      * intros k d Hk Hfail Hok. destruct k as [|k].
        -- rewrite <- Hr in Hok. injection Hok as ->. split; [reflexivity|exact Ht].
        -- destruct (Hfail 0) as [e He]; [lia|]. rewrite <- Hr in He. discriminate He.
      * intros _ Hfail. destruct (Hfail 0) as [e He]; [lia|].
        rewrite <- Hr in He. discriminate He.
    + destruct (attempt_no =? maxRetries) eqn:Hlast.
      * apply Nat.eqb_eq in Hlast. assert (left = 0) by lia. subst left.
        unfold throw. cbn [fst snd]. split.
        -- intros k d Hk _ Hok. assert (k = 0) by lia. subst k.
           rewrite <- Hr in Hok. discriminate Hok.
        -- intros _ _. cbn [Nat.sub attempts_trace]. split; [exact Hr | exact Ht].
      * apply Nat.eqb_neq in Hlast. unfold bind. rewrite delay_run.
        destruct (IH (S attempt_no) (paused w1)) as [IH1 IH2]; [lia|].
        rewrite Hreq in IH1, IH2. rewrite trace_paused, Ht in IH1, IH2.
        split.
        -- intros k d Hk Hfail Hok. destruct k as [|k].
           ++ rewrite <- Hr in Hok. discriminate Hok.
           ++ destruct (IH1 k d) as [Hd Htr].
              ** lia.
              ** intros j Hj. rewrite Hnext. apply Hfail. lia.
              ** rewrite Hnext. exact Hok.
              ** split; [exact Hd|]. rewrite Htr. cbn [attempts_trace].
                 rewrite <- !app_assoc. reflexivity.
        -- intros _ Hfail. destruct left as [|left]; [lia|].
           destruct IH2 as [Hd Htr]; [lia| |].
           ++ intros j Hj. rewrite Hnext. apply Hfail. lia.
           ++ rewrite Hnext in Hd. replace (S (S left) - 1) with (S left) by lia.
              replace (S left - 1) with left in * by lia.
              split; [exact Hd|]. rewrite Htr. cbn [attempts_trace].
              rewrite <- !app_assoc. reflexivity.
Qed.

(** X1: the retry loop of the gateway, for every bound [maxRetries], written
    from the outcomes of the single calls.  With a bound of 0 the gateway
    resolves to [undefined] without a call and without a pause.  When the
    calls before the [k]-th one fail and the [k]-th succeeds ([k] below the
    bound), the gateway returns the data of that call after [k] pauses of
    4000 ms.  When every call fails, the gateway throws the error of the
    last one, after [maxRetries - 1] pauses: it does not pause after the
    last attempt. *)
Theorem gateway_any_bound (requestBody : RequestBody) (maxRetries : nat) (w : World) :
  let run := GeminiService.callGeminiAPIWithRetry requestBody maxRetries w in
  let request := request_event requestBody w in
  (maxRetries = 0 -> run = (Ok VUndefined, w)) /\
  (forall k data,
      k < maxRetries ->
      (forall j, j < k -> exists e, call_outcome w j = Throw e) ->
      call_outcome w k = Ok data ->
      fst run = Ok data /\ trace (snd run) = trace w ++ attempts_trace request k) /\
  (0 < maxRetries ->
   (forall j, j < maxRetries -> exists e, call_outcome w j = Throw e) ->
   fst run = call_outcome w (maxRetries - 1)
   /\ trace (snd run) = trace w ++ attempts_trace request (maxRetries - 1)).
Proof.
  intros run request. subst run request. unfold GeminiService.callGeminiAPIWithRetry.
  split; [|split].
  - intros ->. reflexivity.
  - intros k data Hk Hfail Hok.
    destruct (retry_loop_run requestBody maxRetries maxRetries 1 w) as [H _]; [lia|].
    exact (H k data Hk Hfail Hok).
  - intros Hn Hfail.
    destruct (retry_loop_run requestBody maxRetries maxRetries 1 w) as [_ H]; [lia|].
    exact (H Hn Hfail).
Qed.

Lemma gateway_any_bound_witness :
  let w := sample_world (Some (lit "key"))
             (fun n => match n with
                       | 4 => answer (scored_goal (lit "8"))
                       | _ => overloaded
                       end)
             (fun _ => InsertRows 1) in
  let run := GeminiService.callGeminiAPIWithRetry (request_for (lit "get fit")) 5 w in
  fst run = Ok (envelope (scored_goal (lit "8")))
  /\ fetches (trace (snd run)) = 5
  /\ delays (trace (snd run)) = [4000; 4000; 4000; 4000].
Proof.
  intros w run.
  destruct (proj1 (proj2 (gateway_any_bound (request_for (lit "get fit")) 5 w))
              4 (envelope (scored_goal (lit "8")))) as [Hr Ht].
  - lia.
  - intros j Hj. exists (Error (Text (lit
      "Failed to call Gemini API: Gemini API error (503): overloaded"))).
    destruct j as [|[|[|[|j]]]]; [reflexivity..|lia].
  - reflexivity.
  - subst run. rewrite Hr, Ht. repeat split.
Defined.

(** ** The cache of the key *)

Lemma cache_after_call (requestBody : RequestBody) (w : World) :
  gemini_apiKey (snd (GeminiService.callGeminiAPI requestBody w)) = credential w.
Proof.
  rewrite callGeminiAPI_run.
  assert (Hk : gemini_apiKey (snd (GeminiService.apiKey w)) = credential w).
  { unfold GeminiService.apiKey, credential.
    destruct (falsy (gemini_apiKey w)); reflexivity. }
  destruct (falsy (credential w)); cbn [snd]; [exact Hk|].
  unfold fetch. cbn [snd gemini_apiKey]. exact Hk.
Qed.

Lemma credential_called (requestBody : RequestBody) (w : World) :
  credential (snd (GeminiService.callGeminiAPI requestBody w)) = credential w.
Proof.
  rewrite callGeminiAPI_run. destruct (falsy (credential w)); cbn [snd].
  - apply credential_cached.
  - fold (sent requestBody w). apply credential_sent.
Qed.

(** After a run of the loop the cache holds the key that the run used. *)
Lemma cache_after_retry (requestBody : RequestBody) (maxRetries : nat) :
  forall left attempt_no w,
    0 < left ->
    gemini_apiKey (snd (GeminiService.retry_loop left attempt_no maxRetries requestBody w))
    = credential w.
Proof.
  induction left as [|left IH]; intros attempt_no w Hl; [lia|].
  cbn [GeminiService.retry_loop]. unfold try_catch.
  pose proof (cache_after_call requestBody w) as Hc.
  pose proof (credential_called requestBody w) as Hcred.
  destruct (GeminiService.callGeminiAPI requestBody w) as [[d|e] w1]; cbn [snd] in *.
  - exact Hc.
  - destruct (attempt_no =? maxRetries); [exact Hc|].
    unfold bind. rewrite delay_run.
    destruct left as [|left].
    + cbn [GeminiService.retry_loop ret snd]. exact Hc.
    + rewrite IH by lia. rewrite credential_paused. exact Hcred.
Qed.

Lemma env_after_retry (requestBody : RequestBody) (maxRetries left attempt_no : nat)
  (w : World) :
  env (snd (GeminiService.retry_loop left attempt_no maxRetries requestBody w)) = env w.
Proof. destruct (frame_retry requestBody maxRetries left attempt_no w) as [H _]. exact H. Qed.

(** X2: the key of the model is read from the environment at most once.
    After a run of the gateway with a positive bound the environment is
    untouched, and whatever the environment becomes afterwards, the key in
    use is the one the run used; only when the run found no key is the
    environment read again. *)
Theorem api_key_is_cached_once_set (requestBody : RequestBody) (maxRetries : nat)
  (w : World) (e : Env) :
  0 < maxRetries ->
  let w1 := snd (GeminiService.callGeminiAPIWithRetry requestBody maxRetries w) in
  env w1 = env w /\
  credential (with_env e w1)
  = if falsy (credential w) then GOOGLE_API_KEY e else credential w.
Proof.
  intros Hn w1. subst w1. unfold GeminiService.callGeminiAPIWithRetry.
  split; [apply env_after_retry|].
  unfold credential at 1. cbn [with_env gemini_apiKey env].
  rewrite cache_after_retry by exact Hn. reflexivity.
Qed.

Lemma api_key_is_cached_once_set_witness :
  let w := sample_world (Some (lit "key")) (fun _ => overloaded) (fun _ => InsertRows 1) in
  credential
    (with_env (mkEnv None None)
       (snd (GeminiService.callGeminiAPIWithRetry (request_for (lit "get fit")) 3 w)))
  = Some (lit "key").
Proof.
  intros w.
  apply (proj2 (api_key_is_cached_once_set (request_for (lit "get fit")) 3 w
                  (mkEnv None None) ltac:(lia))).
Defined.

(** ** The failures of the pipeline and their telemetry *)

Lemma parseResponse_throws (apiResponse : value) (e : JsError) :
  GeminiService.parseResponse apiResponse = Throw e ->
  exists m, e = Error (prefixed parse_prefix m).
Proof.
  unfold GeminiService.parseResponse.
  destruct (GeminiService.parseResponse_try apiResponse) as [v|e0]; [discriminate|].
  intros H. injection H as <-. eexists. reflexivity.
Qed.

Lemma parse_throws_issue (v : value) (issues : list ZodIssue) :
  Zod.parse goalSchema v = Throw issues -> issues <> [].
Proof.
  unfold Zod.parse. pose proof (grounded_goalSchema [] v) as Hg.
  destruct (goalSchema [] v) as [g|il]; [discriminate|].
  intros H. injection H as <-. destruct il; [destruct Hg | discriminate].
Qed.

Lemma validate_throws (response : value) (e : JsError) :
  validate response = Throw e ->
  GeminiService.parseResponse response = Throw e
  \/ exists parsed issues,
       GeminiService.parseResponse response = Ok parsed
       /\ Zod.parse goalSchema parsed = Throw issues
       /\ e = ZodError issues.
Proof.
  unfold validate.
  destruct (GeminiService.parseResponse response) as [parsed|e0].
  - destruct (Zod.parse goalSchema parsed) as [g|issues] eqn:Hz; [discriminate|].
    intros H. injection H as <-. right. eauto.
  - intros H. injection H as <-. left. reflexivity.
Qed.

(** What the gateway leaves of the world that [refineGoal] hands to it. *)
Lemma gateway_from_tick (s : jsstring) (w w2 : World) (r : result JsError value) :
  GeminiService.callGeminiAPIWithRetry (request_for s) 3 (tick w) = (r, w2) ->
  sink_ready w2 = sink_ready w /\ table w2 = table w
  /\ rows (trace w2) = rows (trace w).
Proof.
  intros Hgw.
  pose proof (frame_retry (request_for s) 3 3 1 (tick w)) as Hf.
  fold (GeminiService.callGeminiAPIWithRetry (request_for s) 3) in Hf.
  rewrite Hgw in Hf. cbn [snd] in Hf.
  destruct (sink_framed _ _ Hf) as [Hready Htable].
  destruct Hf as [_ [_ [_ [_ Hrows]]]].
  rewrite sink_ready_tick in Hready. rewrite trace_tick in Hrows.
  auto.
Qed.

Lemma sink_ready_logged (d : TelemetryData) (w : World) :
  sink_ready w = true -> sink_ready (logged d w) = true.
Proof.
  unfold sink_ready, logged, tick, TelemetryService.initialize.
  destruct w as [e k init net tab clk tr]. cbn [telemetry_initialized env].
  destruct init; [reflexivity|]. cbn [orb].
  destruct (falsy (SUPABASE_API_KEY e)); [discriminate | reflexivity].
Qed.

Lemma table_logged (d : TelemetryData) (w : World) (n : nat) :
  table (logged d w) n = table w (S n).
Proof.
  unfold logged, tick, TelemetryService.initialize.
  destruct (telemetry_initialized w); [reflexivity|].
  destruct (falsy (SUPABASE_API_KEY (env w))); reflexivity.
Qed.

(** The [catch] of [refineGoal] in a world whose sink takes the row. *)
Lemma catch_accepting (start : Z) (s : jsstring) (e : JsError) (w : World) :
  sink_accepts w = true ->
  GeminiService.refineGoal_catch start s e w
  = (Throw e, logged (failure_record start (clock w 0) s e) (tick w)).
Proof.
  intros Hs. unfold sink_accepts in Hs. apply andb_prop in Hs. destruct Hs as [Hr Ht].
  apply read_insert_ok in Ht. rewrite refineGoal_catch_run, Hr, Ht. reflexivity.
Qed.

Lemma catch_mute (start : Z) (s : jsstring) (e : JsError) (w : World) :
  sink_ready w = false ->
  GeminiService.refineGoal_catch start s e w = (Throw no_table_error, tick w).
Proof. intros Hr. rewrite refineGoal_catch_run, Hr. reflexivity. Qed.

Lemma sink_accepts_eq (w w' : World) :
  sink_ready w' = sink_ready w -> table w' = table w -> sink_accepts w' = sink_accepts w.
Proof. intros H1 H2. unfold sink_accepts. rewrite H1, H2. reflexivity. Qed.

(** X3: when the telemetry table takes every row, an error thrown by
    [refineGoal] on an input that is not blank is of one of three kinds: the
    error of the gateway, whose message starts with "Failed to call Gemini
    API: "; the error of the parser, whose message starts with "Failed to
    parse API response: "; or the list of the issues of the schema, which is
    not empty. *)
Theorem refineGoal_failure_kinds (w : World) (userInput : value) (e : JsError) :
  GeminiService.no_input userInput = false ->
  sink_accepts w = true ->
  fst (GeminiService.refineGoal userInput w) = Throw e ->
  let s := GeminiService.text_of userInput in
  (model_response w s = Throw e
   /\ exists m, e = Error (prefixed gateway_prefix m))
  \/ (exists response,
        model_response w s = Ok response
        /\ GeminiService.parseResponse response = Throw e
        /\ exists m, e = Error (prefixed parse_prefix m))
  \/ (exists response parsed issues,
        model_response w s = Ok response
        /\ GeminiService.parseResponse response = Ok parsed
        /\ Zod.parse goalSchema parsed = Throw issues
        /\ e = ZodError issues /\ issues <> []).
Proof.
  intros Hin Hs H s. subst s. unfold model_response.
  destruct (GeminiService.callGeminiAPIWithRetry
              (request_for (GeminiService.text_of userInput)) 3 (tick w))
    as [[response|e0] w2] eqn:Hgw; cbn [fst].
  - destruct (gateway_from_tick _ _ _ _ Hgw) as [Hready [Htable _]].
    rewrite (refineGoal_gateway_returned _ _ _ _ Hin Hgw) in H. cbv zeta in H.
    pose proof Hs as Hs'. unfold sink_accepts in Hs'. apply andb_prop in Hs'.
    destruct Hs' as [Hr Ht]. apply read_insert_ok in Ht.
    destruct (validate response) as [g|e1] eqn:Hv.
    + rewrite Hr, Ht in H. destruct (Qltb (confidence_score g) 4); discriminate H.
    + rewrite catch_accepting in H
        by (rewrite <- Hs; apply sink_accepts_eq; [rewrite sink_ready_tick|]; assumption).
      cbn [fst] in H. injection H as ->. right.
      destruct (validate_throws _ _ Hv) as [Hp | [parsed [issues [Hp [Hz ->]]]]].
      * left. exists response. split; [reflexivity|]. split; [exact Hp|].
        exact (parseResponse_throws _ _ Hp).
      * right. exists response, parsed, issues.
        repeat (split; [first [reflexivity | assumption]|]).
        exact (parse_throws_issue _ _ Hz).
  - destruct (gateway_from_tick _ _ _ _ Hgw) as [Hready [Htable _]].
    rewrite (refineGoal_gateway_failed _ _ _ _ Hin Hgw) in H.
    rewrite catch_accepting in H
      by (rewrite <- Hs; apply sink_accepts_eq; assumption).
    cbn [fst] in H. injection H as ->. left. split; [reflexivity|].
    apply (retry_loop_throws (request_for (GeminiService.text_of userInput)) 3 3 1 (tick w)).
    fold (GeminiService.callGeminiAPIWithRetry
            (request_for (GeminiService.text_of userInput)) 3).
    rewrite Hgw. reflexivity.
Qed.

Lemma refineGoal_failure_kinds_witness :
  let w := sample_world (Some (lit "key")) (fun _ => overloaded) (fun _ => InsertRows 1) in
  let e := Error (Text (lit "Failed to call Gemini API: Gemini API error (503): overloaded")) in
  (model_response w (lit "get fit") = Throw e
   /\ exists m, e = Error (prefixed gateway_prefix m))
  \/ (exists response,
        model_response w (lit "get fit") = Ok response
        /\ GeminiService.parseResponse response = Throw e
        /\ exists m, e = Error (prefixed parse_prefix m))
  \/ (exists response parsed issues,
        model_response w (lit "get fit") = Ok response
        /\ GeminiService.parseResponse response = Ok parsed
        /\ Zod.parse goalSchema parsed = Throw issues
        /\ e = ZodError issues /\ issues <> []).
Proof.
  intros w e.
  apply (refineGoal_failure_kinds w (VStr (lit "get fit")) e);
    vm_compute; reflexivity.
Defined.

(** X4: without a key for the telemetry table (the service not yet
    initialised), [refineGoal] writes no row and never returns a goal: it
    throws the error about SUPABASE_API_KEY, whatever the input and whatever
    the model answers, except for an answer that is valid and scores under
    4, for which the rejection is returned. *)
Theorem no_table_key_no_goal (w : World) (userInput : value) :
  telemetry_initialized w = false ->
  falsy (SUPABASE_API_KEY (env w)) = true ->
  let run := GeminiService.refineGoal userInput w in
  rows (trace (snd run)) = rows (trace w) /\
  (fst run = Throw no_table_error
   \/ (fst run = Ok (Rejection guardrail_message)
       /\ GeminiService.no_input userInput = false
       /\ exists response g,
            model_response w (GeminiService.text_of userInput) = Ok response
            /\ validate response = Ok g /\ (confidence_score g < 4)%Q)).
Proof.
  intros Hi Hk run. subst run.
  assert (Hr : sink_ready w = false) by (unfold sink_ready; rewrite Hi, Hk; reflexivity).
  destruct (GeminiService.no_input userInput) eqn:Hin.
  - rewrite (refineGoal_short _ _ Hin), handleEmptyInput_run, sink_ready_tick, Hr.
    cbv zeta. cbn [fst snd]. rewrite !trace_tick. split; [reflexivity|]. left. reflexivity.
  - unfold model_response.
    destruct (GeminiService.callGeminiAPIWithRetry
                (request_for (GeminiService.text_of userInput)) 3 (tick w))
      as [[response|e0] w2] eqn:Hgw; cbn [fst].
    + destruct (gateway_from_tick _ _ _ _ Hgw) as [Hready [Htable Hrows]].
      rewrite (refineGoal_gateway_returned _ _ _ _ Hin Hgw). cbv zeta.
      destruct (validate response) as [g|e1] eqn:Hv.
      * destruct (Qltb (confidence_score g) 4) eqn:Hq.
        -- cbn [fst snd]. rewrite trace_tick. split; [exact Hrows|]. right.
           split; [reflexivity|]. split; [reflexivity|].
           exists response, g. split; [reflexivity|]. split; [exact Hv|].
           apply Qltb_true. exact Hq.
        -- rewrite Hr, catch_mute by (rewrite sink_ready_tick, Hready; exact Hr).
           cbn [fst snd]. rewrite !trace_tick. split; [exact Hrows|]. left. reflexivity.
      * rewrite catch_mute by (rewrite sink_ready_tick, Hready; exact Hr).
        cbn [fst snd]. rewrite !trace_tick. split; [exact Hrows|]. left. reflexivity.
    + destruct (gateway_from_tick _ _ _ _ Hgw) as [Hready [Htable Hrows]].
      rewrite (refineGoal_gateway_failed _ _ _ _ Hin Hgw).
      rewrite catch_mute by (rewrite Hready; exact Hr).
      cbn [fst snd]. rewrite trace_tick. split; [exact Hrows|]. left. reflexivity.
Qed.

Lemma no_table_key_no_goal_witness :
  let w := mute_world (fun _ => answer (scored_goal (lit "8"))) in
  fst (GeminiService.refineGoal (VStr (lit "get fit")) w) = Throw no_table_error.
Proof.
  intros w.
  destruct (no_table_key_no_goal w (VStr (lit "get fit")) eq_refl eq_refl)
    as [_ [H | [H _]]].
  - exact H.
  - vm_compute in H. discriminate H.
Defined.


Lemma clock_logged (d : TelemetryData) (w : World) (n : nat) :
  clock (logged d w) n = clock w (S n).
Proof.
  unfold logged, tick, TelemetryService.initialize.
  destruct (telemetry_initialized w); [reflexivity|].
  destruct (falsy (SUPABASE_API_KEY (env w))); reflexivity.
Qed.

(** X5: when the model's answer is valid and scores at least 4, but the
    table refuses the row of the success, the goal is lost and the call is
    logged a second time, as a failure: [refineGoal] throws (the error of the
    first insertion, or of the second if that fails as well), and it has
    offered two rows to the table, the first with the goal and
    [success = true], the second with [success = false], no output and the
    message of the first insertion's error. *)
Theorem failed_insert_is_logged_as_failure
  (w : World) (userInput response : value) (g : RefinedGoal) (e1 : JsError) :
  GeminiService.no_input userInput = false ->
  model_response w (GeminiService.text_of userInput) = Ok response ->
  validate response = Ok g ->
  (4 <= confidence_score g)%Q ->
  sink_ready w = true ->
  TelemetryService.read_insert (table w 0) = Throw e1 ->
  let run := GeminiService.refineGoal userInput w in
  fst run = match TelemetryService.read_insert (table w 1) with
            | Ok _ => Throw e1
            | Throw e2 => Throw e2
            end
  /\ exists r1 r2,
       rows (trace (snd run)) = rows (trace w) ++ [r1; r2]
       /\ entry_success r1 = true /\ output r1 = Some g
       /\ entry_success r2 = false /\ output r2 = None
       /\ input r2 = GeminiService.text_of userInput
       /\ error_message r2 = Some (message_of e1).
Proof.
  intros Hin Hm Hv Hq Hr He1 run. subst run.
  destruct (model_response_run _ _ _ Hm) as [w2 Hgw].
  destruct (gateway_from_tick _ _ _ _ Hgw) as [Hready [Htable Hrows]].
  rewrite (refineGoal_gateway_returned _ _ _ _ Hin Hgw), Hv. cbv zeta.
  apply Qltb_false in Hq. rewrite Hq, Hr, He1.
  rewrite refineGoal_catch_run. cbv zeta.
  rewrite sink_ready_logged by (rewrite sink_ready_tick, Hready; exact Hr).
  rewrite table_logged. change (table (tick w2) 1) with (table w2 1). rewrite Htable.
  assert (Htr : forall a b (x : result JsError Refinement),
             rows (trace (snd (x, logged a (tick (logged b (tick w2))))))
             = rows (trace w)
               ++ [TelemetryService.logEntry (clock (tick w2) 0) b;
                   TelemetryService.logEntry (clock (tick (logged b (tick w2))) 0) a]).
  { intros a b x. cbn [snd]. rewrite trace_logged, trace_tick, trace_logged, trace_tick.
    rewrite !rows_app, Hrows. cbn [rows]. rewrite <- app_assoc. reflexivity. }
  destruct (TelemetryService.read_insert (table w 1)) as [u|e2];
    (split; [reflexivity|]); rewrite Htr;
    (eexists; eexists; split; [reflexivity|]); repeat split.
Qed.

Lemma failed_insert_is_logged_as_failure_witness :
  let w := sample_world (Some (lit "key")) (fun _ => answer (scored_goal (lit "8")))
             refusing_once in
  fst (GeminiService.refineGoal (VStr (lit "get fit")) w)
  = Throw (Error (Text (lit "permission denied"))).
Proof.
  intros w.
  apply (proj1 (failed_insert_is_logged_as_failure w (VStr (lit "get fit"))
                  (envelope (scored_goal (lit "8"))) (sample_goal 8)
                  (Error (Text (lit "permission denied")))
                  eq_refl ltac:(vm_compute; reflexivity) ltac:(vm_compute; reflexivity)
                  ltac:(discriminate) eq_refl eq_refl)).
Defined.



(** The effects of the retry loop: at most one request per iteration, a
    pause of 4000 ms between two iterations, no row. *)
Lemma retry_loop_budget (requestBody : RequestBody) (maxRetries : nat) :
  forall left attempt_no w,
    attempt_no + left = S maxRetries ->
    exists added,
      trace (snd (GeminiService.retry_loop left attempt_no maxRetries requestBody w))
      = trace w ++ added
      /\ fetches added <= left
      /\ length (delays added) <= left - 1
      /\ Forall (fun ms => ms = 4000) (delays added)
      /\ rows added = [].
Proof.
  induction left as [|left IH]; intros attempt_no w Hn; cbn [GeminiService.retry_loop].
  - exists []. cbn. rewrite app_nil_r. repeat split; auto.
  - unfold try_catch.
    destruct (callGeminiAPI_outcome requestBody w) as [_ Ht].
    assert (Hreq : fetches (request_event requestBody w) <= 1
                   /\ delays (request_event requestBody w) = []
                   /\ rows (request_event requestBody w) = []).
    { unfold request_event. destruct (falsy (credential w)); cbn; auto. }
    destruct Hreq as [Hf [Hd Hrw]].
    destruct (GeminiService.callGeminiAPI requestBody w) as [[d1|e1] w1];
      cbn [fst snd] in *.
    + exists (request_event requestBody w). rewrite Hd, Hrw. cbn.
      repeat split; auto; lia.
    + destruct (attempt_no =? maxRetries) eqn:Hlast.
      * unfold throw. cbn [snd].
        exists (request_event requestBody w). rewrite Hd, Hrw. cbn.
        repeat split; auto; lia.
      * apply Nat.eqb_neq in Hlast. unfold bind. rewrite delay_run.
        destruct (IH (S attempt_no) (paused w1)) as [added [Ha [Hfa [Hda [Hall Hra]]]]];
          [lia|].
        exists (request_event requestBody w ++ [EvDelay 4000] ++ added).
        rewrite Ha, trace_paused, Ht, <- !app_assoc.
        rewrite !fetches_app, !delays_app, !rows_app, Hd, Hrw, Hra.
        cbn [fetches delays rows app length Nat.add].
        split; [reflexivity|]. split; [lia|]. split; [|split; [|reflexivity]].
        -- destruct left as [|left]; lia.
        -- constructor; [reflexivity | exact Hall].
Qed.

Lemma catch_adds (start : Z) (s : jsstring) (e : JsError) (w : World) :
  exists ins,
    trace (snd (GeminiService.refineGoal_catch start s e w)) = trace w ++ ins
    /\ fetches ins = 0 /\ delays ins = [] /\ length (rows ins) <= 1.
Proof.
  rewrite refineGoal_catch_run. cbv zeta. destruct (sink_ready w).
  - eexists [_].
    destruct (TelemetryService.read_insert (table w 0)); cbn [snd];
      rewrite trace_logged, trace_tick; (split; [reflexivity|]); cbn; auto.
  - exists []. cbn [snd]. rewrite trace_tick, app_nil_r. cbn. auto.
Qed.

(** X7: the budget of one call of [refineGoal], for every world and every
    input: at most 3 requests to the model, at most 2 pauses, each of
    4000 ms, and at most 2 rows offered to the table; on a blank input no
    request, no pause and at most one row. *)
Theorem refineGoal_budget (userInput : value) (w : World) :
  exists added,
    trace (snd (GeminiService.refineGoal userInput w)) = trace w ++ added
    /\ fetches added <= 3
    /\ length (delays added) <= 2
    /\ Forall (fun ms => ms = 4000) (delays added)
    /\ length (rows added) <= 2
    /\ (GeminiService.no_input userInput = true ->
        fetches added = 0 /\ delays added = [] /\ length (rows added) <= 1).
Proof.
  destruct (GeminiService.no_input userInput) eqn:Hin.
  - rewrite (refineGoal_short _ _ Hin), handleEmptyInput_run. cbv zeta.
    rewrite sink_ready_tick. destruct (sink_ready w).
    + eexists [_].
      destruct (TelemetryService.read_insert (table (tick w) 0)); cbn [snd];
        rewrite trace_logged, !trace_tick; (split; [reflexivity|]); cbn;
        repeat split; auto.
    + exists []. cbn [snd]. rewrite !trace_tick, app_nil_r. cbn. repeat split; auto.
  - destruct (retry_loop_budget (request_for (GeminiService.text_of userInput)) 3 3 1
                (tick w) eq_refl) as [added [Ha [Hf [Hd [Hall Hr]]]]].
    fold (GeminiService.callGeminiAPIWithRetry
            (request_for (GeminiService.text_of userInput)) 3) in Ha.
    rewrite trace_tick in Ha.
    assert (Hend : forall ins,
               fetches ins = 0 -> delays ins = [] -> length (rows ins) <= 2 ->
               fetches (added ++ ins) <= 3
               /\ length (delays (added ++ ins)) <= 2
               /\ Forall (fun ms => ms = 4000) (delays (added ++ ins))
               /\ length (rows (added ++ ins)) <= 2
               /\ (false = true ->
                   fetches (added ++ ins) = 0 /\ delays (added ++ ins) = []
                   /\ length (rows (added ++ ins)) <= 1)).
    { intros ins H1 H2 H3. rewrite fetches_app, delays_app, rows_app, H1, H2, Hr, app_nil_r.
      cbn [app]. repeat split; try (exfalso; discriminate); auto; lia. }
    destruct (GeminiService.callGeminiAPIWithRetry
                (request_for (GeminiService.text_of userInput)) 3 (tick w))
      as [[response|e0] w2] eqn:Hgw; cbn [snd] in Ha.
    + rewrite (refineGoal_gateway_returned _ _ _ _ Hin Hgw). cbv zeta.
      destruct (validate response) as [g|e1].
      * destruct (Qltb (confidence_score g) 4).
        -- exists (added ++ []). cbn [snd]. rewrite trace_tick, Ha, app_nil_r.
           split; [reflexivity|]. rewrite <- (app_nil_r added) at 1 2 3 4 5 6 7.
           apply Hend; cbn; auto.
        -- destruct (sink_ready w).
           ++ destruct (TelemetryService.read_insert (table w 0)) as [u|e].
              ** eexists (added ++ [_]). cbn [snd].
                 rewrite trace_logged, trace_tick, Ha, <- app_assoc.
                 split; [reflexivity|]. apply Hend; cbn; auto.
              ** match goal with
                 | |- context [GeminiService.refineGoal_catch ?a ?b ?c ?d] =>
                     destruct (catch_adds a b c d) as [ins [Hi [H1 [H2 H3]]]]
                 end.
                 eexists (added ++ _ :: ins).
                 rewrite Hi, trace_logged, trace_tick, Ha, <- !app_assoc.
                 split; [reflexivity|]. apply Hend; cbn; auto. lia.
           ++ match goal with
              | |- context [GeminiService.refineGoal_catch ?a ?b ?c ?d] =>
                  destruct (catch_adds a b c d) as [ins [Hi [H1 [H2 H3]]]]
              end.
              exists (added ++ ins). rewrite Hi, trace_tick, Ha, <- app_assoc.
              split; [reflexivity|]. apply Hend; auto.
      * match goal with
        | |- context [GeminiService.refineGoal_catch ?a ?b ?c ?d] =>
            destruct (catch_adds a b c d) as [ins [Hi [H1 [H2 H3]]]]
        end.
        exists (added ++ ins). rewrite Hi, trace_tick, Ha, <- app_assoc.
        split; [reflexivity|]. apply Hend; auto.
    + rewrite (refineGoal_gateway_failed _ _ _ _ Hin Hgw).
      match goal with
      | |- context [GeminiService.refineGoal_catch ?a ?b ?c ?d] =>
          destruct (catch_adds a b c d) as [ins [Hi [H1 [H2 H3]]]]
      end.
      exists (added ++ ins). rewrite Hi, Ha, <- app_assoc.
      split; [reflexivity|]. apply Hend; auto.
Qed.




(** ** Text around a fenced block *)

Lemma closing_fence (w post : jsstring) :
  forallb is_ws w = true -> closing (w ++ GeminiService.fence ++ post) = Some [].
Proof.
  intros Hw. rewrite closing_spec, trimStart_ws_app by exact Hw.
  reflexivity.
Qed.

(** The text of a fenced block, after its opening fence and language tag,
    whatever follows the closing fence: the pattern captures the trimmed
    content. *)
Lemma capture_block (content post : jsstring) :
  occurs GeminiService.fence content = false ->
  Regex.match_here
    [Regex.Star is_ws; Regex.LazyGroup Regex.any; Regex.Star is_ws;
     Regex.Lit GeminiService.fence]
    (newline ++ content ++ newline ++ GeminiService.fence ++ post)
  = Some (trim content).
Proof.
  intros Hocc.
  change (Regex.match_here _) with (Regex.greedy is_ws (Regex.lazy Regex.any closing [])).
  destruct (trimStart_split content) as [w0 [Hw0 Ec]].
  destruct (trimStart content) as [|c t] eqn:Et.
  - rewrite app_nil_r in Ec. subst w0.
    rewrite (trim_ws _ Hw0).
    replace (newline ++ content ++ newline ++ GeminiService.fence ++ post)
      with ((newline ++ content ++ newline) ++ GeminiService.fence ++ post)
      by (rewrite <- !app_assoc; reflexivity).
    apply greedy_run.
    + rewrite !forallb_app, Hw0. reflexivity.
    + reflexivity.
    + pose proof (closing_fence [] post eq_refl) as Hc. cbn [app] in Hc.
      unfold GeminiService.fence at 1. cbn [app Regex.lazy].
      unfold GeminiService.fence in Hc. cbn [app] in Hc. rewrite Hc. reflexivity.
  - pose proof (trimStart_head _ _ _ Et) as Hc.
    destruct (trimEnd_split (c :: t)) as [trail [Htrail Etrail]].
    assert (Etrim : trim content = trimEnd (c :: t)) by (unfold trim; rewrite Et; reflexivity).
    remember (trim content) as body eqn:Ebody.
    rewrite <- Etrim in Etrail.
    assert (Econtent : content = w0 ++ body ++ trail) by (rewrite <- Etrail; exact Ec).
    assert (Hbody : exists b, body = c :: b).
    { destruct body as [|c' b].
      - simpl in Etrail. rewrite <- Etrail in Htrail. simpl in Htrail.
        rewrite Hc in Htrail. discriminate.
      - simpl in Etrail. injection Etrail as <- _. eauto. }
    destruct Hbody as [b Eb].
    replace (newline ++ content ++ newline ++ GeminiService.fence ++ post)
      with ((newline ++ w0) ++ body ++ (trail ++ newline) ++ GeminiService.fence ++ post)
      by (rewrite Econtent, <- !app_assoc; reflexivity).
    apply greedy_run.
    + rewrite forallb_app, Hw0. reflexivity.
    + rewrite Eb. exact Hc.
    + rewrite lazy_first; [reflexivity | |].
      * intros b1 b2 E Hb2. rewrite closing_spec.
        assert (Hb2' : trimStart b2 <> []).
        { apply (trimEnd_suffix (c :: t) b1 b2); [rewrite <- Etrim; exact E | exact Hb2]. }
        rewrite trimStart_app by exact Hb2'.
        destruct (trimStart_split b2) as [w2 [_ E2]].
        assert (Hsub : occurs GeminiService.fence (trimStart b2) = false).
        { apply (occurs_app_r _ _ trail). apply (occurs_app_l _ (w0 ++ b1 ++ w2)).
          rewrite <- Hocc. f_equal.
          rewrite Econtent, E, <- !app_assoc. do 2 f_equal.
          rewrite app_assoc, <- E2. reflexivity. }
        destruct trail as [|x trail].
        -- change (([] ++ newline) ++ GeminiService.fence ++ post)
             with (10%N :: GeminiService.fence ++ post).
           rewrite (no_fence_before_ws _ _ 10%N Hsub Hb2' eq_refl). reflexivity.
        -- simpl in Htrail. apply andb_prop in Htrail. destruct Htrail as [Hx _].
           change (((x :: trail) ++ newline) ++ GeminiService.fence ++ post)
             with (x :: (trail ++ newline) ++ GeminiService.fence ++ post).
           rewrite (no_fence_before_ws _ _ x Hsub Hb2' Hx). reflexivity.
      * rewrite closing_fence by (rewrite forallb_app, Htrail; reflexivity).
        discriminate.
Qed.

Lemma match_block (json : bool) (content post : jsstring) :
  occurs GeminiService.fence content = false ->
  Regex.match_here GeminiService.fence_pattern (fenced json content ++ post)
  = Some (trim content).
Proof.
  intros Hocc. pose proof (capture_block content post Hocc) as Hcap.
  unfold fenced, GeminiService.fence_pattern. rewrite <- !app_assoc.
  rewrite match_here_lit. destruct json.
  - apply match_here_opt_taken. exact Hcap.
  - rewrite match_here_opt_skipped; [exact Hcap | reflexivity].
Qed.

Lemma strip_prefix_none_app (p s t : jsstring) :
  strip_prefix p s = None -> length p <= length s -> strip_prefix p (s ++ t) = None.
Proof.
  revert s. induction p as [|a p IH]; intros s H Hlen; [discriminate H|].
  destruct s as [|b s]; [cbn in Hlen; lia|].
  cbn [strip_prefix app] in *. destruct (N.eqb a b); [|reflexivity].
  apply IH; [exact H | cbn in Hlen; lia].
Qed.

(** The leftmost match starts at the block when no fence starts before it. *)
Lemma search_block (r : Regex.regex) (pre s g : jsstring) :
  occurs GeminiService.fence (pre ++ [backtick; backtick]) = false ->
  Regex.match_here (Regex.Lit GeminiService.fence :: r) (GeminiService.fence ++ s) = Some g ->
  Regex.search (Regex.Lit GeminiService.fence :: r) (pre ++ GeminiService.fence ++ s) = Some g.
Proof.
  intros Hocc Hm. induction pre as [|c pre IH].
  - apply search_here. exact Hm.
  - pose proof (occurs_head _ _ Hocc) as Hh.
    cbn [app occurs] in Hocc. cbn [app] in Hh. rewrite Hh in Hocc.
    cbn [app Regex.search]. cbn [Regex.match_here].
    assert (Hn : strip_prefix GeminiService.fence (c :: pre ++ GeminiService.fence ++ s)
                 = None).
    { change (c :: pre ++ GeminiService.fence ++ s)
        with ((c :: pre) ++ [backtick; backtick] ++ backtick :: s).
      rewrite app_assoc. apply strip_prefix_none_app; [exact Hh|].
      cbn [length app]. rewrite length_app. cbn. lia. }
    rewrite Hn. apply IH. exact Hocc.
Qed.

(** X9: text around a fenced block is dropped.  When the text of the model
    holds a fenced block (with or without the [json] tag) whose content is
    not empty and holds no fence, and no fence starts before the block,
    [parseResponse] gives what it gives on the content alone, whatever
    precedes and follows the block. *)
Theorem parseResponse_block_in_prose (json : bool) (pre content post : jsstring) :
  content <> [] ->
  occurs GeminiService.fence (pre ++ [backtick; backtick]) = false ->
  occurs GeminiService.fence content = false ->
  GeminiService.parseResponse (envelope (pre ++ fenced json content ++ post))
  = GeminiService.parseResponse (envelope content).
Proof.
  intros Hne Hpre Hocc.
  rewrite (parseResponse_envelope content Hne).
  rewrite parseResponse_envelope
    by (unfold fenced; destruct pre; discriminate).
  rewrite (search_no_fence content Hocc).
  assert (Hs : Regex.search GeminiService.fence_pattern (pre ++ fenced json content ++ post)
               = Some (trim content)).
  { pose proof (match_block json content post Hocc) as Hm.
    unfold fenced in *. rewrite <- !app_assoc in *.
    apply (search_block _ pre _ _ Hpre). exact Hm. }
  rewrite Hs, trim_stable. reflexivity.
Qed.

Lemma parseResponse_block_in_prose_witness :
  GeminiService.parseResponse
    (envelope ((lit "Here is your goal:" ++ newline) ++ fenced true plain_goal
               ++ newline ++ lit "Fences such as ``` are fine here."))
  = GeminiService.parseResponse (envelope plain_goal).
Proof.
  apply (parseResponse_block_in_prose true (lit "Here is your goal:" ++ newline) plain_goal).
  - discriminate.
  - vm_compute. reflexivity.
  - vm_compute. reflexivity.
Defined.

(** ** What [JSON.parse] reads back from [JSON.stringify] *)

Lemma hex_digit_value (n : N) : (n < 16)%N -> JSON.hex_value (JSON.hex_digit n) = Some n.
Proof.
  intros H.
  assert (E : In n [0;1;2;3;4;5;6;7;8;9;10;11;12;13;14;15]%N).
  { cbn [In]. lia. }
  cbn [In] in E. intuition (subst; reflexivity).
Qed.

Lemma unicode_escape_read (c : N) (rest : jsstring) :
  (c < 65536)%N ->
  forall cs r,
    JSON.parse_chars rest = Some (cs, r) ->
    JSON.parse_chars (JSON.unicode_escape c ++ rest) = Some (c :: cs, r).
Proof.
  intros Hc cs r Hrest. unfold JSON.unicode_escape.
  cbn [app JSON.parse_chars N.eqb Pos.eqb].
  change (N.eqb 92 34) with false. change (N.eqb 92 92) with true.
  change (N.eqb 117 117) with true. cbv iota.
  unfold JSON.hex4.
  rewrite !hex_digit_value.
  - rewrite Hrest. do 2 f_equal. f_equal.
    pose proof (N.div_mod c 4096). pose proof (N.div_mod c 256).
    pose proof (N.div_mod c 16).
    pose proof (N.mod_lt c 16). pose proof (N.mod_lt (c / 16) 16).
    pose proof (N.mod_lt (c / 256) 16).
    assert (c / 16 = (c / 256) * 16 + (c / 16) mod 16)%N.
    { rewrite (N.div_mod (c / 16) 16) at 1 by lia.
      rewrite N.Div0.div_div. change (16 * 16)%N with 256%N. lia. }
    assert (c / 256 = (c / 4096) * 16 + (c / 256) mod 16)%N.
    { rewrite (N.div_mod (c / 256) 16) at 1 by lia.
      rewrite N.Div0.div_div. change (256 * 16)%N with 4096%N. lia. }
    lia.
  - apply N.mod_lt. lia.
  - apply N.mod_lt. lia.
  - apply N.mod_lt. lia.
  - apply N.Div0.div_lt_upper_bound. exact Hc.
Qed.

Lemma literal_read (c : N) (rest cs r : jsstring) :
  c <> 34%N -> c <> 92%N -> (32 <= c)%N ->
  JSON.parse_chars rest = Some (cs, r) ->
  JSON.parse_chars (c :: rest) = Some (c :: cs, r).
Proof.
  intros H1 H2 H3 Hrest. cbn [JSON.parse_chars].
  destruct (N.eqb_spec c 34) as [|_]; [contradiction|].
  destruct (N.eqb_spec c 92) as [|_]; [contradiction|].
  destruct (N.ltb_spec c 32) as [|_]; [lia|].
  rewrite Hrest. reflexivity.
Qed.

Lemma simple_escape_read (e c : N) (rest cs r : jsstring) :
  e <> 117%N -> JSON.simple_escape e = Some c ->
  JSON.parse_chars rest = Some (cs, r) ->
  JSON.parse_chars (92%N :: e :: rest) = Some (c :: cs, r).
Proof.
  intros He Hs Hrest. cbn [JSON.parse_chars].
  change (N.eqb 92 34) with false. change (N.eqb 92 92) with true. cbv iota.
  destruct (N.eqb_spec e 117) as [|_]; [contradiction|].
  rewrite Hs, Hrest. reflexivity.
Qed.

Lemma escape_unit_read (c : N) (rest cs r : jsstring) :
  JSON.is_high_surrogate c = false -> JSON.is_low_surrogate c = false ->
  JSON.parse_chars rest = Some (cs, r) ->
  JSON.parse_chars (JSON.escape_unit c ++ rest) = Some (c :: cs, r).
Proof.
  intros _ _ Hrest. unfold JSON.escape_unit.
  destruct (N.eqb_spec c 8) as [->|H8];
    [apply simple_escape_read; [discriminate | reflexivity | exact Hrest]|].
  destruct (N.eqb_spec c 9) as [->|H9];
    [apply simple_escape_read; [discriminate | reflexivity | exact Hrest]|].
  destruct (N.eqb_spec c 10) as [->|H10];
    [apply simple_escape_read; [discriminate | reflexivity | exact Hrest]|].
  destruct (N.eqb_spec c 12) as [->|H12];
    [apply simple_escape_read; [discriminate | reflexivity | exact Hrest]|].
  destruct (N.eqb_spec c 13) as [->|H13];
    [apply simple_escape_read; [discriminate | reflexivity | exact Hrest]|].
  destruct (N.eqb_spec c 34) as [->|H34];
    [apply simple_escape_read; [discriminate | reflexivity | exact Hrest]|].
  destruct (N.eqb_spec c 92) as [->|H92];
    [apply simple_escape_read; [discriminate | reflexivity | exact Hrest]|].
  destruct (N.ltb_spec c 32) as [Hlt|Hge].
  - apply unicode_escape_read; [lia | exact Hrest].
  - apply literal_read; assumption.
Qed.

(** A quoted string is read back as the string it quotes, whatever its
    code units. *)
Lemma quote_units_read (n : nat) :
  forall s rest,
    length s <= n ->
    JSON.parse_chars (JSON.quote_units s ++ 34%N :: rest) = Some (s, rest).
Proof.
  induction n as [|n IH]; intros s rest Hn.
  - destruct s; [|cbn in Hn; lia]. cbn [JSON.quote_units app JSON.parse_chars].
    reflexivity.
  - destruct s as [|c r].
    + reflexivity.
    + cbn [length] in Hn. cbn [JSON.quote_units].
      destruct (JSON.is_high_surrogate c) eqn:Hh.
      * unfold JSON.is_high_surrogate in Hh. apply andb_prop in Hh.
        destruct Hh as [Hh1 Hh2]. apply N.leb_le in Hh1, Hh2.
        destruct r as [|d r'].
        -- apply unicode_escape_read; [lia | reflexivity].
        -- destruct (JSON.is_low_surrogate d) eqn:Hl.
           ++ unfold JSON.is_low_surrogate in Hl. apply andb_prop in Hl.
              destruct Hl as [Hl1 Hl2]. apply N.leb_le in Hl1, Hl2.
              cbn [length] in Hn. cbn [app].
              apply literal_read; [lia | lia | lia |].
              apply literal_read; [lia | lia | lia |].
              apply IH. lia.
           ++ rewrite <- app_assoc. apply unicode_escape_read; [lia|].
              apply IH. cbn [length] in *. lia.
      * destruct (JSON.is_low_surrogate c) eqn:Hl.
        -- unfold JSON.is_low_surrogate in Hl. apply andb_prop in Hl.
           destruct Hl as [Hl1 Hl2]. apply N.leb_le in Hl1, Hl2.
           rewrite <- app_assoc. apply unicode_escape_read; [lia|]. apply IH. lia.
        -- rewrite <- app_assoc. apply escape_unit_read; [exact Hh | exact Hl |].
           apply IH. lia.
Qed.

Lemma quote_read (s rest : jsstring) :
  JSON.parse_chars (JSON.quote_units s ++ dquote ++ rest) = Some (s, rest).
Proof. apply (quote_units_read (length s)). apply Nat.le_refl. Qed.

Section ReadBack.
Variable elements : jsstring -> option (list value * jsstring).
Variable members : jsstring -> option (list (jsstring * value) * jsstring).

Lemma value_step_string (s rest : jsstring) :
  JSON.value_step elements members (JSON.quote s ++ rest) = Some (VStr s, rest).
Proof.
  unfold JSON.quote, JSON.value_step. rewrite <- !app_assoc.
  change (dquote ++ JSON.quote_units s ++ dquote ++ rest)
    with (34%N :: JSON.quote_units s ++ dquote ++ rest).
  cbn [JSON.skip_ws JSON.is_json_ws N.eqb Pos.eqb orb].
  change (N.eqb 34 34) with true. cbv iota.
  rewrite quote_read. reflexivity.
Qed.

Lemma value_step_score (z : Z) :
  (1 <= z <= 10)%Z ->
  JSON.value_step elements members (JSON.render_int z ++ lit "}")
  = Some (VNum (inject_Z z), lit "}").
Proof.
  intros H.
  assert (E : (z = 1 \/ z = 2 \/ z = 3 \/ z = 4 \/ z = 5 \/ z = 6 \/ z = 7 \/ z = 8
               \/ z = 9 \/ z = 10)%Z) by lia.
  repeat (destruct E as [->|E]; [vm_compute; reflexivity|]).
  subst z. vm_compute. reflexivity.
Qed.
End ReadBack.

Lemma parse_value_S (f : nat) (s : jsstring) :
  JSON.parse_value (S f) s
  = JSON.value_step (JSON.parse_elements f) (JSON.parse_members f []) s.
Proof. reflexivity. Qed.

Lemma parse_elements_S (f : nat) (s : jsstring) :
  JSON.parse_elements (S f) s
  = JSON.elements_step (JSON.parse_value f) (JSON.parse_elements f) s.
Proof. reflexivity. Qed.

Lemma parse_members_S (f : nat) (acc : list (jsstring * value)) (s : jsstring) :
  JSON.parse_members (S f) acc s
  = JSON.members_step (JSON.parse_value f) (JSON.parse_members f) acc s.
Proof. reflexivity. Qed.

Lemma parse_value_string (f : nat) (s rest : jsstring) :
  JSON.parse_value (S f) (JSON.quote s ++ rest) = Some (VStr s, rest).
Proof. rewrite parse_value_S. apply value_step_string. Qed.

Lemma quote_head (s rest : jsstring) :
  JSON.quote s ++ rest = 34%N :: JSON.quote_units s ++ dquote ++ rest.
Proof. unfold JSON.quote. rewrite <- !app_assoc. reflexivity. Qed.

(** The elements of an array of strings, read back. *)
Lemma parse_elements_strings (ks : list jsstring) :
  ks <> [] ->
  forall f rest,
    length ks < f ->
    JSON.parse_elements f (JSON.join (lit ",") (map JSON.quote ks) ++ lit "]" ++ rest)
    = Some (map VStr ks, rest).
Proof.
  induction ks as [|k ks IH]; intros Hne f rest Hf; [congruence|].
  destruct f as [|f]; [lia|]. cbn [length] in Hf.
  destruct f as [|f]; [lia|].
  rewrite parse_elements_S. unfold JSON.elements_step.
  destruct ks as [|k2 ks].
  - cbn [map JSON.join]. rewrite parse_value_string.
    change (lit "]" ++ rest) with (93%N :: rest).
    cbn [JSON.skip_ws JSON.is_json_ws N.eqb Pos.eqb orb]. reflexivity.
  - change (JSON.join (lit ",") (map JSON.quote (k :: k2 :: ks)))
      with (JSON.quote k ++ lit "," ++ JSON.join (lit ",") (map JSON.quote (k2 :: ks))).
    rewrite <- !app_assoc. rewrite parse_value_string.
    change (lit "," ++ ?x) with (44%N :: x).
    cbn [JSON.skip_ws JSON.is_json_ws N.eqb Pos.eqb orb].
    rewrite IH; [reflexivity | discriminate | cbn [length] in *; lia].
Qed.

Lemma parse_value_strings (ks : list jsstring) (f : nat) (rest : jsstring) :
  S (length ks) < f ->
  JSON.parse_value f (lit "[" ++ JSON.join (lit ",") (map JSON.quote ks) ++ lit "]" ++ rest)
  = Some (VArr (map VStr ks), rest).
Proof.
  intros Hf. destruct f as [|f]; [lia|].
  rewrite parse_value_S. unfold JSON.value_step.
  change (lit "[" ++ ?x) with (91%N :: x).
  cbn [JSON.skip_ws JSON.is_json_ws N.eqb Pos.eqb orb].
  destruct ks as [|k ks].
  - cbn [map JSON.join app]. change (lit "]" ++ rest) with (93%N :: rest).
    cbn [JSON.skip_ws JSON.is_json_ws N.eqb Pos.eqb orb]. reflexivity.
  - rewrite parse_elements_strings; [| discriminate | lia].
    destruct ks as [|k2 ks].
    + cbn [map JSON.join]. rewrite quote_head.
      cbn [JSON.skip_ws JSON.is_json_ws N.eqb Pos.eqb orb]. reflexivity.
    + change (JSON.join (lit ",") (map JSON.quote (k :: k2 :: ks)))
        with (JSON.quote k ++ lit "," ++ JSON.join (lit ",") (map JSON.quote (k2 :: ks))).
      rewrite <- !app_assoc, quote_head.
      cbn [JSON.skip_ws JSON.is_json_ws N.eqb Pos.eqb orb]. reflexivity.
Qed.

Lemma Qred_inject_Z (z : Z) : Qred (inject_Z z) = inject_Z z.
Proof.
  unfold Qred, inject_Z.
  pose proof (Z.ggcd_gcd z 1) as Hg.
  pose proof (Z.ggcd_correct_divisors z 1) as Hd.
  destruct (Z.ggcd z 1) as [g [aa bb]]. simpl in *.
  rewrite Z.gcd_1_r in Hg. subst g. destruct Hd as [Ha Hb].
  rewrite Z.mul_1_l in Ha, Hb. subst aa bb. reflexivity.
Qed.

Lemma length_join_quote (ks : list jsstring) :
  length ks <= length (JSON.join (lit ",") (map JSON.quote ks)).
Proof.
  induction ks as [|k ks IH]; [apply Nat.le_refl|].
  destruct ks as [|k2 ks].
  - cbn [map JSON.join length]. unfold JSON.quote. rewrite !length_app. cbn. lia.
  - change (JSON.join (lit ",") (map JSON.quote (k :: k2 :: ks)))
      with (JSON.quote k ++ lit "," ++ JSON.join (lit ",") (map JSON.quote (k2 :: ks))).
    rewrite !length_app. change (length (lit ",")) with 1. cbn [length] in *. lia.
Qed.

(** The text of [stringify], read by the descent with enough depth. *)
Lemma parse_value_stringify (s : jsstring) (ks : list jsstring) (z : Z) (f : nat) :
  (1 <= z <= 10)%Z ->
  length ks + 4 < f ->
  JSON.parse_value f
    (GeminiService.stringify (mkGoal s ks (inject_Z z)))
  = Some (goal_value (mkGoal s ks (inject_Z z)), []).
Proof.
  intros Hz Hf.
  destruct f as [|f]; [lia|]. destruct f as [|f]; [lia|].
  destruct f as [|f]; [lia|]. destruct f as [|f]; [lia|].
  destruct f as [|f]; [lia|].
  unfold GeminiService.stringify.
  cbn [refined_goal key_results confidence_score].
  rewrite Qred_inject_Z. cbn [Qnum inject_Z].
  rewrite parse_value_S. unfold JSON.value_step.
  change (lit "{" ++ ?x) with (123%N :: x).
  cbn [JSON.skip_ws JSON.is_json_ws N.eqb Pos.eqb orb].
  rewrite quote_head.
  cbn [JSON.skip_ws JSON.is_json_ws N.eqb Pos.eqb orb].
  (* the first member *)
  rewrite parse_members_S. unfold JSON.members_step at 1.
  cbn [JSON.skip_ws JSON.is_json_ws N.eqb Pos.eqb orb].
  rewrite quote_read.
  change (lit ":" ++ ?x) with (58%N :: x).
  cbn [JSON.skip_ws JSON.is_json_ws N.eqb Pos.eqb orb].
  rewrite parse_value_string.
  change (lit "," ++ ?x) with (44%N :: x).
  cbn [JSON.skip_ws JSON.is_json_ws N.eqb Pos.eqb orb].
  (* the second member *)
  rewrite parse_members_S. unfold JSON.members_step at 1.
  rewrite quote_head.
  cbn [JSON.skip_ws JSON.is_json_ws N.eqb Pos.eqb orb].
  rewrite quote_read.
  change (lit ":[" ++ ?x) with (58%N :: lit "[" ++ x).
  cbn [JSON.skip_ws JSON.is_json_ws N.eqb Pos.eqb orb].
  rewrite parse_value_strings by lia.
  change (lit "," ++ ?x) with (44%N :: x).
  cbn [JSON.skip_ws JSON.is_json_ws N.eqb Pos.eqb orb].
  (* the third member *)
  rewrite parse_members_S. unfold JSON.members_step at 1.
  rewrite quote_head.
  cbn [JSON.skip_ws JSON.is_json_ws N.eqb Pos.eqb orb].
  rewrite quote_read.
  change (lit ":" ++ ?x) with (58%N :: x).
  cbn [JSON.skip_ws JSON.is_json_ws N.eqb Pos.eqb orb].
  rewrite parse_value_S, (value_step_score _ _ z Hz).
  change (lit "}") with [125%N].
  cbn [JSON.skip_ws JSON.is_json_ws N.eqb Pos.eqb orb].
  reflexivity.
Qed.

Lemma trim_bracketed (c d : N) (body : jsstring) :
  is_ws c = false -> is_ws d = false ->
  trim ((c :: body) ++ [d]) = (c :: body) ++ [d].
Proof.
  intros Hc Hd. unfold trim, trimEnd.
  cbn [app trimStart]. rewrite Hc.
  change (c :: body ++ [d]) with ((c :: body) ++ [d]).
  rewrite rev_app_distr. cbn [rev app trimStart]. rewrite Hd.
  change (d :: rev body ++ [c]) with (rev [d] ++ rev (c :: body)).
  rewrite <- rev_app_distr, rev_involutive. reflexivity.
Qed.

Lemma stringify_bracketed (g : RefinedGoal) :
  exists body, GeminiService.stringify g = (123%N :: body) ++ [125%N].
Proof.
  unfold GeminiService.stringify. change (lit "}") with [125%N].
  rewrite !app_assoc. eexists. change (lit "{") with [123%N].
  rewrite <- !app_assoc. cbn [app]. rewrite !app_assoc. reflexivity.
Qed.

Lemma goal_field_valid (p : list PathSeg) (s : jsstring) :
  s <> [] -> goal_field p (VStr s) = Valid s.
Proof. intros H. destruct s; [congruence | reflexivity]. Qed.

Lemma items_strings (p : list PathSeg) (ks : list jsstring) :
  Forall (fun r => r <> []) ks ->
  forall i, parse_items result_item p i (map VStr ks) = Valid ks.
Proof.
  induction 1 as [|k ks Hk _ IH]; intros i; [reflexivity|].
  cbn [map parse_items]. rewrite IH.
  destruct k; [congruence | reflexivity].
Qed.

Lemma results_field_valid (p : list PathSeg) (ks : list jsstring) :
  3 <= length ks <= 5 -> Forall (fun r => r <> []) ks ->
  results_field p (VArr (map VStr ks)) = Valid ks.
Proof.
  intros [H3 H5] Hall. unfold results_field, z_array.
  rewrite (items_strings _ _ Hall), length_map.
  cbn [flat_map run_array_check app].
  destruct (Nat.ltb_spec (length ks) 3); [lia|].
  destruct (Nat.ltb_spec 5 (length ks)); [lia|]. reflexivity.
Qed.

Lemma score_field_valid (p : list PathSeg) (q : Q) :
  (exists z : Z, q == inject_Z z)%Q -> (1 <= q <= 10)%Q ->
  score_field p (VNum q) = Valid q.
Proof.
  intros Hz [H1 H10]. unfold score_field, z_number.
  cbn [flat_map run_number_check app].
  apply isInteger_spec in Hz. rewrite Hz.
  apply Qltb_false in H1, H10. rewrite H1, H10. reflexivity.
Qed.

(** [goalSchema] accepts the object of a goal that satisfies the schema,
    and returns the goal. *)
Lemma goalSchema_accepts (g : RefinedGoal) :
  satisfies_schema g -> Zod.parse goalSchema (goal_value g) = Ok g.
Proof.
  intros [Hg [Hlen [Hall [Hz Hq]]]]. unfold Zod.parse, goal_value.
  rewrite goalSchema_object.
  change (lookup (lit "refined_goal") _) with (VStr (refined_goal g)).
  change (lookup (lit "key_results") _) with (VArr (map VStr (key_results g))).
  change (lookup (lit "confidence_score") _) with (VNum (confidence_score g)).
  rewrite (goal_field_valid _ _ Hg), (results_field_valid _ _ Hlen Hall),
    (score_field_valid _ _ Hz Hq).
  destruct g. reflexivity.
Qed.

Lemma satisfies_schema_Qred (g : RefinedGoal) :
  satisfies_schema g ->
  exists z, (1 <= z <= 10)%Z /\ Qred (confidence_score g) = inject_Z z.
Proof.
  intros [_ [_ [_ [[z Hz] [H1 H10]]]]]. exists z.
  rewrite Hz in H1, H10. split.
  - unfold Qle, inject_Z in H1, H10. cbn in H1, H10. lia.
  - rewrite (Qred_complete _ _ Hz). apply Qred_inject_Z.
Qed.

Lemma stringify_Qred (g : RefinedGoal) :
  GeminiService.stringify (mkGoal (refined_goal g) (key_results g) (Qred (confidence_score g)))
  = GeminiService.stringify g.
Proof.
  unfold GeminiService.stringify. cbn [refined_goal key_results confidence_score].
  rewrite (Qred_complete _ _ (Qred_correct (confidence_score g))). reflexivity.
Qed.

(** [JSON.parse(JSON.stringify(goal))] is the goal. *)
Lemma parse_stringify (g : RefinedGoal) :
  satisfies_schema g ->
  JSON.parse (GeminiService.stringify g)
  = Ok (goal_value (mkGoal (refined_goal g) (key_results g) (Qred (confidence_score g)))).
Proof.
  intros Hs. destruct (satisfies_schema_Qred g Hs) as [z [Hz Eq]].
  rewrite <- stringify_Qred. rewrite Eq.
  destruct (stringify_bracketed (mkGoal (refined_goal g) (key_results g) (inject_Z z)))
    as [body Eb].
  assert (Hp : JSON.parse_value
                 (2 * length (GeminiService.stringify
                                (mkGoal (refined_goal g) (key_results g) (inject_Z z))) + 2)
                 (GeminiService.stringify
                    (mkGoal (refined_goal g) (key_results g) (inject_Z z)))
               = Some (goal_value (mkGoal (refined_goal g) (key_results g) (inject_Z z)),
                       [])).
  { apply parse_value_stringify; [exact Hz|].
    unfold GeminiService.stringify. cbn [refined_goal key_results].
    pose proof (length_join_quote (key_results g)).
    rewrite !length_app.
    change (length (lit "{")) with 1. change (length (lit ":[")) with 2.
    lia. }
  unfold JSON.parse. rewrite Hp.
  rewrite Eb. reflexivity.
Qed.

Lemma satisfies_schema_red (g : RefinedGoal) :
  satisfies_schema g ->
  satisfies_schema (mkGoal (refined_goal g) (key_results g) (Qred (confidence_score g))).
Proof.
  intros [Hg [Hlen [Hall [[z Hz] Hq]]]]. unfold satisfies_schema.
  cbn [refined_goal key_results confidence_score].
  repeat (split; [assumption|]).
  split; [exists z; rewrite Qred_correct; exact Hz | rewrite Qred_correct; exact Hq].
Qed.

Lemma validate_stringify (g : RefinedGoal) :
  satisfies_schema g ->
  occurs GeminiService.fence (GeminiService.stringify g) = false ->
  validate (envelope (GeminiService.stringify g))
  = Ok (mkGoal (refined_goal g) (key_results g) (Qred (confidence_score g))).
Proof.
  intros Hs Hocc. unfold validate.
  destruct (stringify_bracketed g) as [body Eb].
  rewrite parseResponse_envelope by (rewrite Eb; discriminate).
  rewrite (search_no_fence _ Hocc).
  rewrite Eb at 1. rewrite trim_bracketed by reflexivity. rewrite <- Eb.
  rewrite (parse_stringify g Hs).
  rewrite (goalSchema_accepts _ (satisfies_schema_red g Hs)). reflexivity.
Qed.

(** X10: [JSON.stringify] and the pipeline agree.  The JSON text that the
    service writes for a goal satisfying the schema is read back by
    [parseResponse] and the schema as that goal (with its score as a reduced
    fraction), provided the text holds no fence; and when the model answers
    the first request with that text, the score is at least 4 and the table
    takes every row, [refineGoal] returns that goal. *)
Theorem stringified_goal_is_returned (g : RefinedGoal) :
  satisfies_schema g ->
  occurs GeminiService.fence (GeminiService.stringify g) = false ->
  let g' := mkGoal (refined_goal g) (key_results g) (Qred (confidence_score g)) in
  validate (envelope (GeminiService.stringify g)) = Ok g' /\
  forall w userInput,
    GeminiService.no_input userInput = false ->
    falsy (credential w) = false ->
    network w 0 = answer (GeminiService.stringify g) ->
    (4 <= confidence_score g)%Q ->
    sink_accepts w = true ->
    fst (GeminiService.refineGoal userInput w) = Ok (Goal g').
Proof.
  intros Hs Hocc g'. subst g'. pose proof (validate_stringify g Hs Hocc) as Hv.
  split; [exact Hv|].
  intros w userInput Hin Hk Hnet Hq Hsink.
  assert (Ha : attempt (network w 0) = Ok (envelope (GeminiService.stringify g)))
    by (rewrite Hnet; reflexivity).
  pose proof (gateway_first_attempt (request_for (GeminiService.text_of userInput))
                w _ Hk Ha) as Hgw.
  rewrite (refineGoal_gateway_returned _ _ _ _ Hin Hgw), Hv. cbv zeta.
  cbn [confidence_score].
  assert (Hq' : Qltb (Qred (confidence_score g)) 4 = false)
    by (apply Qltb_false; rewrite Qred_correct; exact Hq).
  rewrite Hq'. unfold sink_accepts in Hsink. apply andb_prop in Hsink.
  destruct Hsink as [Hr Ht]. apply read_insert_ok in Ht. rewrite Hr, Ht. reflexivity.
Qed.

Lemma sample_goal_valid : satisfies_schema (sample_goal 8).
Proof.
  unfold satisfies_schema, sample_goal. cbn [refined_goal key_results confidence_score].
  split; [discriminate|]. split; [cbn; lia|].
  split; [repeat constructor; discriminate|].
  split; [exists 8%Z; reflexivity|]. split; discriminate.
Qed.

Lemma stringified_goal_is_returned_witness :
  validate (envelope (GeminiService.stringify (sample_goal 8))) = Ok (sample_goal 8).
Proof.
  apply (proj1 (stringified_goal_is_returned (sample_goal 8) sample_goal_valid
                  ltac:(vm_compute; reflexivity))).
Defined.

(** ** The token estimate and the request *)


(** X12: the request determines the input: two inputs with the same request
    body are the same, so the prompt loses nothing of the user's text. *)
Theorem request_for_injective (a b : jsstring) :
  request_for a = request_for b -> a = b.
Proof.
  intros H. apply (f_equal contents_text) in H.
  unfold request_for, GeminiService.buildRequestBody in H. cbn [contents_text] in H.
  unfold GeminiService.buildPrompt in H.
  do 5 apply app_inv_head in H. apply app_inv_tail in H. exact H.
Qed.

Lemma request_for_injective_witness : lit "get fit" = lit "get fit".
Proof. apply (request_for_injective (lit "get fit") (lit "get fit")). reflexivity. Defined.

(** ** The replies of the controller *)

Lemma controller_guard_run (body : value) (w : World) :
  nullish body = false ->
  let goal := member body (lit "goal") in
  GoalController.refineGoal body w =
  if negb (truthy goal) || negb (match goal with VStr _ => true | _ => false end) then
    (Ok (GoalController.mkReply 400 false
           (Some (Text (lit "Goal input is required and must be a string"))) None), w)
  else
    match GeminiService.refineGoal goal w with
    | (Ok refinedGoal, w') =>
        (Ok (if GoalController.below_three refinedGoal then
               GoalController.mkReply 400 false
                 (Some (Text (lit
                    "Input does not appear to be a valid goal. Please provide a clear goal statement.")))
                 (Some refinedGoal)
             else GoalController.mkReply 200 true None (Some refinedGoal)), w')
    | (Throw error, w') =>
        (Ok (GoalController.mkReply 500 false
               (Some (message_or (message_of error) (lit "Failed to refine goal"))) None), w')
    end.
Proof.
  intros Hb goal. subst goal. unfold GoalController.refineGoal, try_catch. rewrite Hb.
  destruct (negb (truthy (member body (lit "goal")))
            || negb (match member body (lit "goal") with VStr _ => true | _ => false end)).
  - reflexivity.
  - unfold bind.
    destruct (GeminiService.refineGoal (member body (lit "goal")) w) as [[r|e] w'].
    + destruct (GoalController.below_three r); reflexivity.
    + reflexivity.
Qed.

Lemma controller_nullish_run (body : value) (w : World) :
  nullish body = true ->
  GoalController.refineGoal body w =
  (Ok (GoalController.mkReply 500 false
         (Some (Text (lit "Cannot destructure property 'goal' of 'req.body' as it is "
                      ++ type_name body ++ lit "."))) None), w).
Proof.
  intros Hb. unfold GoalController.refineGoal, try_catch. rewrite Hb.
  unfold throw, ret, message_of, message_or.
  destruct body; try discriminate Hb; reflexivity.
Qed.

(** X13: the replies of the route [POST /goals/refine], for every body and
    every world.  The controller always replies, with one of: status 200,
    [success = true] and either the rejection of the guardrail or a goal
    that satisfies the schema and scores at least 4; status 400 and
    [success = false], either with no data and no effect at all, or with the
    sentinel goal for an input made of white space only; status 500,
    [success = false] and no data. *)
Theorem controller_reply_kinds (body : value) (w : World) :
  let run := GoalController.refineGoal body w in
  exists reply,
    fst run = Ok reply /\
    ((GoalController.status reply = 200
      /\ GoalController.reply_success reply = true
      /\ GoalController.reply_error reply = None
      /\ (GoalController.reply_data reply = Some (Rejection guardrail_message)
          \/ exists g, GoalController.reply_data reply = Some (Goal g)
                       /\ satisfies_schema g /\ (4 <= confidence_score g)%Q))
     \/ (GoalController.status reply = 400
         /\ GoalController.reply_success reply = false
         /\ ((GoalController.reply_data reply = None /\ snd run = w)
             \/ (GoalController.reply_data reply = Some (Goal GeminiService.sentinel)
                 /\ exists s, member body (lit "goal") = VStr s
                              /\ s <> [] /\ trim s = [])))
     \/ (GoalController.status reply = 500
         /\ GoalController.reply_success reply = false
         /\ GoalController.reply_data reply = None)).
Proof.
  intros run. subst run. destruct (nullish body) eqn:Hb.
  - rewrite (controller_nullish_run _ _ Hb). eexists. split; [reflexivity|].
    right. right. repeat split.
  - rewrite (controller_guard_run _ _ Hb). cbv zeta.
    destruct (negb (truthy (member body (lit "goal")))
              || negb (match member body (lit "goal") with VStr _ => true | _ => false end))
      eqn:Hguard.
    + eexists. split; [reflexivity|]. right. left. cbn. repeat split. left. split; reflexivity.
    + apply orb_false_elim in Hguard. destruct Hguard as [Ht Hs].
      apply negb_false_iff in Ht, Hs.
      destruct (member body (lit "goal")) as [| | | |s| |] eqn:Hgoal; try discriminate Hs.
      pose proof (refineGoal_returns (VStr s) w) as Hret.
      destruct (GeminiService.refineGoal (VStr s) w) as [[r|e] w'] eqn:Hrun; cbn [fst] in *.
      * destruct (Hret r eq_refl)
          as [[Hno ->] | [Hin [response [g [_ [Hv [[Hq ->] | [Hq ->]]]]]]]].
        -- eexists. split; [reflexivity|]. right. left.
           change (GoalController.below_three (Goal GeminiService.sentinel)) with true.
           cbn. repeat split. right. split; [reflexivity|].
           exists s. split; [reflexivity|].
           unfold GeminiService.no_input in Hno. rewrite Ht in Hno. cbn [negb orb] in Hno.
           split.
           ++ destruct s; [discriminate Ht | discriminate].
           ++ destruct (trim s); [reflexivity | discriminate Hno].
        -- eexists. split; [reflexivity|]. left. cbn. repeat split. left. reflexivity.
        -- assert (Hq4 : (4 <= confidence_score g)%Q) by (apply Qltb_false; exact Hq).
           assert (Hb3 : GoalController.below_three (Goal g) = false).
           { cbn [GoalController.below_three]. apply Qltb_false.
             apply Qle_trans with (y := 4%Q); [discriminate | exact Hq4]. }
           rewrite Hb3. eexists. split; [reflexivity|]. left. cbn.
           repeat split. right. exists g. split; [reflexivity|].
           split; [exact (validate_sound _ _ Hv) | exact Hq4].
      * eexists. split; [reflexivity|]. right. right. cbn. repeat split.
Qed.

(** ** The evaluation suite *)

Lemma has_key_lookup (k : jsstring) (fields : list (jsstring * value)) :
  lookup k fields <> VUndefined -> TestEvals.has_key k fields = true.
Proof.
  induction fields as [|[k' v] fields IH]; cbn [lookup TestEvals.has_key existsb fst].
  - congruence.
  - destruct (JsString.eqb k k'); [reflexivity|]. exact IH.
Qed.

Lemma has_key_absent (k : jsstring) (fields : list (jsstring * value)) :
  TestEvals.has_key k fields = false -> lookup k fields = VUndefined.
Proof.
  induction fields as [|[k' v] fields IH]; cbn [lookup TestEvals.has_key existsb fst].
  - reflexivity.
  - destruct (JsString.eqb k k'); [discriminate|]. exact IH.
Qed.

Lemma check_key_results_nil (items : list value) :
  forall i,
    TestEvals.check_key_results i items = [] <->
    exists ks, items = map VStr ks /\ Forall (fun r => trim r <> []) ks.
Proof.
  induction items as [|x items IH]; intros i; cbn [TestEvals.check_key_results].
  - split; [|reflexivity]. intros _. exists []. split; [reflexivity | constructor].
  - split.
    + intros H. apply app_eq_nil in H. destruct H as [Hx Hrest].
      apply IH in Hrest. destruct Hrest as [ks [-> Hall]].
      destruct x; try discriminate Hx.
      destruct (is_empty (trim s)) eqn:Es; [discriminate Hx|].
      exists (s :: ks). split; [reflexivity|]. constructor; [|exact Hall].
      intros E. rewrite E in Es. discriminate Es.
    + intros [ks [E Hall]]. destruct ks as [|k ks]; [discriminate E|].
      injection E as -> ->. inversion Hall as [|? ? Hk Hks]; subst.
      destruct (trim k) eqn:Ek; [congruence|]. cbn [is_empty app].
      apply IH. exists ks. split; [reflexivity | exact Hks].
Qed.

(** The suite's check passes exactly on the objects that hold a goal that
    the suite accepts. *)
Lemma assertValidJsonSchema_passes (v : value) :
  TestEvals.assertValidJsonSchema v = Ok [] <->
  exists g, holds_goal v g /\ suite_accepts g.
Proof.
  split.
  - destruct v; cbn [TestEvals.assertValidJsonSchema]; try discriminate.
    intros H. injection H as H. unfold TestEvals.schema_errors in H.
      apply app_eq_nil in H. destruct H as [Hmiss H].
      apply app_eq_nil in H. destruct H as [Hg H].
      apply app_eq_nil in H. destruct H as [Hr Hs].
      cbn [flat_map TestEvals.requiredFields] in Hmiss.
      destruct (TestEvals.has_key (lit "refined_goal") fields); [|discriminate Hmiss].
      destruct (TestEvals.has_key (lit "key_results") fields); [|discriminate Hmiss].
      destruct (TestEvals.has_key (lit "confidence_score") fields); [|discriminate Hmiss].
      destruct (lookup (lit "refined_goal") fields) as [| | | |s| |] eqn:Eg;
        try discriminate Hg.
      destruct (is_empty (trim s)) eqn:Es; [discriminate Hg|].
      destruct (lookup (lit "key_results") fields) as [| | | | |items|] eqn:Er;
        try discriminate Hr.
      destruct (Nat.eqb_spec (length items) 0) as [|Hn0]; [discriminate Hr|].
      destruct (Nat.ltb_spec 5 (length items)) as [|Hn5]; [discriminate Hr|].
      apply check_key_results_nil in Hr. destruct Hr as [ks [-> Hall]].
      destruct (lookup (lit "confidence_score") fields) as [| | |q| | |] eqn:Eq;
        try discriminate Hs.
      destruct (Qltb q 1) eqn:H1; [discriminate Hs|].
      destruct (Qltb 10 q) eqn:H10; [discriminate Hs|].
      exists (mkGoal s ks q). split.
      * exists fields. cbn [refined_goal key_results confidence_score]. auto.
      * unfold suite_accepts. cbn [refined_goal key_results confidence_score].
        rewrite length_map in Hn0, Hn5.
        split; [intros E; rewrite E in Es; discriminate Es|].
        split; [lia|]. split; [exact Hall|].
        split; apply Qltb_false; assumption.
  - intros [g [[fields [-> [Eg [Er Eq]]]] [Hg [Hlen [Hall [H1 H10]]]]]].
    cbn [TestEvals.assertValidJsonSchema]. f_equal. unfold TestEvals.schema_errors.
    cbn [flat_map TestEvals.requiredFields].
    rewrite !has_key_lookup by (rewrite ?Eg, ?Er, ?Eq; discriminate).
    rewrite Eg, Er, Eq, length_map.
    destruct (trim (refined_goal g)) eqn:Et; [congruence|]. cbn [is_empty].
    destruct (Nat.eqb_spec (length (key_results g)) 0); [lia|].
    destruct (Nat.ltb_spec 5 (length (key_results g))); [lia|].
    apply Qltb_false in H1, H10. rewrite H1, H10. cbn [orb app].
    rewrite app_nil_r. apply check_key_results_nil. eauto.
Qed.

Lemma goalSchema_shape (v : value) (g : RefinedGoal) :
  Zod.parse goalSchema v = Ok g -> holds_goal v g.
Proof.
  unfold Zod.parse. destruct (goalSchema [] v) as [g'|] eqn:E; [|discriminate].
  intros H. injection H as ->.
  destruct v; try discriminate E.
  rewrite goalSchema_object in E.
  apply combine_valid in E. destruct E as [f3 [q [E3 [Hq ->]]]].
  apply combine_valid in E3. destruct E3 as [f2 [rs [E2 [Hrs ->]]]].
  apply combine_valid in E2. destruct E2 as [f1 [s [E1 [Hs ->]]]].
  injection E1 as <-.
  apply string_min1_valid in Hs. apply results_valid in Hrs. apply score_valid in Hq.
  exists fields. cbn [refined_goal key_results confidence_score].
  intuition.
Qed.

Lemma holds_goal_unique (v : value) (g g' : RefinedGoal) :
  holds_goal v g -> holds_goal v g' -> g = g'.
Proof.
  intros [fields [-> [Eg [Er Eq]]]] [fields' [E' [Eg' [Er' Eq']]]].
  injection E' as <-. rewrite Eg in Eg'. rewrite Er in Er'. rewrite Eq in Eq'.
  injection Eg' as Hs. injection Eq' as Hq. injection Er' as Hr.
  assert (Hks : key_results g = key_results g').
  { revert Hr. generalize (key_results g) (key_results g').
    induction l as [|a l IH]; intros [|b l'] H; try discriminate H; [reflexivity|].
    injection H as -> H. f_equal. apply IH. exact H. }
  destruct g, g'. cbn in *. congruence.
Qed.

(** X14: the check of the evaluation suite against the schema.
    [assertValidJsonSchema] reports no error exactly for the objects that
    hold a statement that is not blank, one to five key results that are
    not blank, and a score from 1 to 10.  On a document the schema accepts,
    it reports no error exactly when the statement and the key results are
    not blank: the suite refuses white space that the schema accepts. *)
Theorem suite_check_and_schema :
  (forall v,
      TestEvals.assertValidJsonSchema v = Ok [] <->
      exists g, holds_goal v g /\ suite_accepts g) /\
  (forall v g,
      Zod.parse goalSchema v = Ok g ->
      (TestEvals.assertValidJsonSchema v = Ok [] <->
       trim (refined_goal g) <> [] /\ Forall (fun r => trim r <> []) (key_results g))).
Proof.
  split; [exact assertValidJsonSchema_passes|].
  intros v g Hz. pose proof (goalSchema_shape _ _ Hz) as Hh.
  destruct (goalSchema_sound _ _ Hz) as [_ [Hlen [_ [_ Hq]]]].
  rewrite assertValidJsonSchema_passes. split.
  - intros [g' [Hh' [Hg [_ [Hall _]]]]].
    rewrite (holds_goal_unique _ _ _ Hh Hh'). auto.
  - intros [Hg Hall]. exists g. split; [exact Hh|].
    unfold suite_accepts. split; [exact Hg|]. split; [lia|]. auto.
Qed.

Lemma suite_check_and_schema_witness :
  TestEvals.assertValidJsonSchema (TestEvals.refinement_value (Goal (sample_goal 8)))
  = Ok [].
Proof.
  apply (proj1 suite_check_and_schema). exists (sample_goal 8). split.
  - eexists. split; [reflexivity|]. repeat split.
  - unfold suite_accepts. cbn [sample_goal refined_goal key_results confidence_score].
    split; [vm_compute; discriminate|]. split; [cbn; lia|].
    split; [repeat constructor; vm_compute; discriminate|]. split; discriminate.
Defined.


Lemma post_string (s : jsstring) (w : World) :
  GoalController.refineGoal (VObj [(lit "goal", VStr s)]) w =
  if is_empty s then
    (Ok (GoalController.mkReply 400 false
           (Some (Text (lit "Goal input is required and must be a string"))) None), w)
  else
    match GeminiService.refineGoal (VStr s) w with
    | (Ok refinedGoal, w') =>
        (Ok (if GoalController.below_three refinedGoal then
               GoalController.mkReply 400 false
                 (Some (Text (lit
                    "Input does not appear to be a valid goal. Please provide a clear goal statement.")))
                 (Some refinedGoal)
             else GoalController.mkReply 200 true None (Some refinedGoal)), w')
    | (Throw error, w') =>
        (Ok (GoalController.mkReply 500 false
               (Some (message_or (message_of error) (lit "Failed to refine goal"))) None), w')
    end.
Proof.
  rewrite controller_guard_run by reflexivity. cbv zeta.
  change (member (VObj [(lit "goal", VStr s)]) (lit "goal")) with (VStr s).
  destruct s; reflexivity.
Qed.




(** A blank input is never answered with a status that axios resolves. *)
Lemma blank_input_reply (s : jsstring) (w : World) :
  GeminiService.no_input (VStr s) = true ->
  exists reply w',
    GoalController.refineGoal (VObj [(lit "goal", VStr s)]) w = (Ok reply, w')
    /\ (GoalController.status reply = 400 \/ GoalController.status reply = 500).
Proof.
  intros Hno. rewrite post_string. destruct (is_empty s).
  - eexists. eexists. split; [reflexivity|]. left. reflexivity.
  - pose proof (refineGoal_returns (VStr s) w) as Hret.
    destruct (GeminiService.refineGoal (VStr s) w) as [[r|e] w'] eqn:Hrun; cbn [fst] in *.
    + destruct (Hret r eq_refl) as [[_ ->] | [Hin _]]; [|congruence].
      change (GoalController.below_three (Goal GeminiService.sentinel)) with true.
      eexists. eexists. split; [reflexivity|]. left. reflexivity.
    + eexists. eexists. split; [reflexivity|]. right. reflexivity.
Qed.

(** X15: the suite counts a rejection of the guardrail as a failure, whatever
    confidence the test case expects: the controller replies 200 with
    [success = true], so the branch of the expected rejection is not taken,
    and the check reports the three fields as missing. *)
Theorem rejection_counts_as_failure (testName s m : jsstring) (expected : option Q)
  (st : TestEvals.Results) (w w' : World) :
  GeminiService.refineGoal (VStr s) w = (Ok (Rejection m), w') ->
  TestEvals.runTest testName (VStr s) expected st w
  = (Ok (TestEvals.fail_schema testName missing_all st), w').
Proof.
  intros H.
  assert (Hs : is_empty s = false).
  { destruct s; [|reflexivity].
    pose proof (refineGoal_returns (VStr []) w (Rejection m)) as Hret.
    rewrite H in Hret. destruct (Hret eq_refl) as [[_ Hr] | [Hin _]]; discriminate. }
  unfold TestEvals.runTest, bind. rewrite post_string, Hs, H.
  cbn [GoalController.below_three]. reflexivity.
Qed.

Lemma rejection_counts_as_failure_witness :
  let w := sample_world (Some (lit "key")) (fun _ => answer (scored_goal (lit "3")))
             (fun _ => InsertRows 1) in
  fst (TestEvals.runTest (lit "Adversarial - Gibberish") (VStr (lit "asdfghjkl qwerty zxcvbnm"))
         (Some 1%Q) TestEvals.TEST_RESULTS w)
  = Ok (TestEvals.fail_schema (lit "Adversarial - Gibberish") missing_all
          TestEvals.TEST_RESULTS).
Proof.
  intros w.
  rewrite (rejection_counts_as_failure (lit "Adversarial - Gibberish")
             (lit "asdfghjkl qwerty zxcvbnm") guardrail_message (Some 1%Q)
             TestEvals.TEST_RESULTS w
             (snd (GeminiService.refineGoal (VStr (lit "asdfghjkl qwerty zxcvbnm")) w))).
  - reflexivity.
  - vm_compute. reflexivity.
Defined.

(** X16: a test case with a blank input fails, whatever the server does: the
    controller replies 400 or 500, the HTTP client rejects, and [runTest]
    records a failure with the message "Request failed with status code
    400" (or 500). *)
Theorem blank_case_fails (testName s : jsstring) (expected : option Q)
  (st : TestEvals.Results) (w : World) :
  GeminiService.no_input (VStr s) = true ->
  exists n w',
    (n = 400 \/ n = 500)
    /\ TestEvals.runTest testName (VStr s) expected st w
       = (Ok (TestEvals.fail_error testName
                (Error (Text (lit "Request failed with status code " ++ JsString.of_nat n)))
                st), w').
Proof.
  intros Hno. destruct (blank_input_reply s w Hno) as [reply [w' [Hr Hst]]].
  exists (GoalController.status reply), w'. split; [exact Hst|].
  unfold TestEvals.runTest, bind. rewrite Hr. unfold ret, TestEvals.axios_post.
  destruct Hst as [-> | ->]; reflexivity.
Qed.

Lemma blank_case_fails_witness :
  exists n w',
    (n = 400 \/ n = 500)
    /\ TestEvals.runTest (lit "Edge Case - Only Whitespace")
         (VStr [32; 32; 32; 10; 9; 32; 32]%N) (Some 1%Q) TestEvals.TEST_RESULTS
         (sample_world (Some (lit "key")) (fun _ => answer (scored_goal (lit "8")))
            (fun _ => InsertRows 1))
       = (Ok (TestEvals.fail_error (lit "Edge Case - Only Whitespace")
                (Error (Text (lit "Request failed with status code " ++ JsString.of_nat n)))
                TestEvals.TEST_RESULTS), w').
Proof.
  apply (blank_case_fails (lit "Edge Case - Only Whitespace")
           [32; 32; 32; 10; 9; 32; 32]%N).
  reflexivity.
Defined.




(** ** The goal store and the telemetry log *)

Lemma storage_query_run {A : Type} (q : Query) (k : Settled -> SM A) (s : Server) :
  sbind StorageService.initialize
    (fun _ => sbind (sbind StorageService.client (fun _ => query q)) k) s
  = if store_ready s then
      match answers s 0 with
      | Resolved r => k r (asked q s)
      | QueryRejected m => (Throw (Error (Text m)), asked q s)
      end
    else (Throw no_table_error, s).
Proof.
  unfold sbind, StorageService.initialize, StorageService.client, store_ready, query, asked.
  destruct s as [w init ans qs]. cbn [storage_initialized pipeline answers queries].
  destruct init; cbn [orb].
  - cbn [storage_initialized pipeline answers queries]. destruct (ans 0); reflexivity.
  - destruct (falsy (SUPABASE_API_KEY (env w))); [reflexivity|].
    cbn [storage_initialized pipeline answers queries negb]. destruct (ans 0); reflexivity.
Qed.

Lemma saveGoal_run (originalInput refinedGoalData : value) (s : Server) :
  StorageService.saveGoal originalInput refinedGoalData s =
  let goal :=
    VObj [(lit "original_input", originalInput);
          (lit "refined_goal", member refinedGoalData (lit "refined_goal"));
          (lit "key_results", member refinedGoalData (lit "key_results"));
          (lit "confidence_score", member refinedGoalData (lit "confidence_score"))] in
  if store_ready s then
    (match answers s 0 with
     | Resolved (Data data) => Ok (if truthy data then index0 data else goal)
     | Resolved (Failure error) =>
         Throw (Error (Text (lit "Failed to save goal: " ++ error_text error)))
     | QueryRejected m => Throw (Error (Text m))
     end,
     asked (InsertGoal goal) s)
  else (Throw no_table_error, s).
Proof.
  unfold StorageService.saveGoal. rewrite storage_query_run. cbv zeta.
  destruct (store_ready s); [|reflexivity].
  destruct (answers s 0) as [[data|error]|m]; reflexivity.
Qed.

(** X18: what the route [POST /goals] checks before it saves, for a body
    whose fields are an input, a statement, a list of key results and a
    score.  The body is
    refused with status 400, and nothing is sent, exactly when the input or
    the statement is the empty string or the score is 0; nothing else is
    checked (neither the schema nor the threshold).  Otherwise, when the
    store can be reached, one row with the four fields is inserted and the
    reply is 201 with the stored row (the row sent, when the store returns
    none), or 500 with the message of the store's error; without a key the
    reply is 500 and nothing is sent. *)
Theorem saveGoal_check_is_truthiness (userInput : jsstring) (g : RefinedGoal) (s : Server) :
  let run := GoalController.saveGoal (save_request userInput g) s in
  if is_empty userInput || is_empty (refined_goal g) || Qeq_bool (confidence_score g) 0
  then run = (Ok (GoalController.refusal 400 all_fields_required), s)
  else if store_ready s then
    snd run = asked (InsertGoal (goal_row userInput g)) s
    /\ fst run =
       Ok (match answers s 0 with
           | Resolved (Data data) =>
               GoalController.mkResponse 201 true None
                 (Some (if truthy data then index0 data else goal_row userInput g))
                 None None None
           | Resolved (Failure error) =>
               GoalController.refusal 500
                 (Text (lit "Failed to save goal: " ++ error_text error))
           | QueryRejected m =>
               GoalController.refusal 500 (message_or (Text m) (lit "Failed to save goal"))
           end)
  else run = (Ok (GoalController.refusal 500 (message_of no_table_error)), s).
Proof.
  intros run. subst run. unfold GoalController.saveGoal, scatch.
  change (nullish (save_request userInput g)) with false. cbv iota zeta.
  change (member (save_request userInput g) (lit "userInput")) with (VStr userInput).
  change (member (save_request userInput g) (lit "refined_goal"))
    with (VStr (refined_goal g)).
  change (member (save_request userInput g) (lit "key_results"))
    with (VArr (map VStr (key_results g))).
  change (member (save_request userInput g) (lit "confidence_score"))
    with (VNum (confidence_score g)).
  cbn [truthy]. rewrite !negb_involutive. cbn [negb]. rewrite orb_false_r.
  destruct (is_empty userInput || is_empty (refined_goal g)
            || Qeq_bool (confidence_score g) 0); [reflexivity|].
  unfold sbind. rewrite saveGoal_run. cbv zeta.
  change (member (VObj _) (lit "refined_goal")) with (VStr (refined_goal g)).
  change (member (VObj _) (lit "key_results")) with (VArr (map VStr (key_results g))).
  change (member (VObj _) (lit "confidence_score")) with (VNum (confidence_score g)).
  fold (goal_row userInput g).
  destruct (store_ready s); [|reflexivity].
  destruct (answers s 0) as [[data|error]|m]; split; reflexivity.
Qed.

Lemma getGoalById_run (id : jsstring) (s : Server) :
  StorageService.getGoalById id s =
  if store_ready s then
    (match answers s 0 with
     | Resolved (Data data) => Ok data
     | Resolved (Failure error) =>
         if JsString.eqb (error_code error) (lit "PGRST116") then Ok VNull
         else Throw (Error (Text (lit "Failed to fetch goal: " ++ error_text error)))
     | QueryRejected m => Throw (Error (Text m))
     end,
     asked (SelectGoal id) s)
  else (Throw no_table_error, s).
Proof.
  unfold StorageService.getGoalById. rewrite storage_query_run.
  destruct (store_ready s); [|reflexivity].
  destruct (answers s 0) as [[data|error]|m]; try reflexivity.
  destruct (JsString.eqb (error_code error) (lit "PGRST116")); reflexivity.
Qed.

(** X19: the replies of the route [GET /goals/:id] when the store can be
    reached: one query is sent; a row is returned with status 200; the
    error code PGRST116 of the store, or no row, gives 404 "Goal with ID ...
    not found"; every other error of the store gives 500 "Failed to fetch
    goal: ..." and a rejected query gives 500 with its message. *)
Theorem getGoalById_replies (id : jsstring) (s : Server) :
  store_ready s = true ->
  let run := GoalController.getGoalById id s in
  snd run = asked (SelectGoal id) s /\
  fst run =
  Ok (match answers s 0 with
      | Resolved (Data data) =>
          if truthy data
          then GoalController.mkResponse 200 true None (Some data) None None None
          else GoalController.refusal 404 (not_found id)
      | Resolved (Failure error) =>
          if JsString.eqb (error_code error) (lit "PGRST116")
          then GoalController.refusal 404 (not_found id)
          else GoalController.refusal 500
                 (Text (lit "Failed to fetch goal: " ++ error_text error))
      | QueryRejected m =>
          GoalController.refusal 500 (message_or (Text m) (lit "Failed to fetch goal"))
      end).
Proof.
  intros Hr run. subst run.
  unfold GoalController.getGoalById, scatch, sbind. rewrite getGoalById_run, Hr.
  destruct (answers s 0) as [[data|error]|m].
  - destruct (truthy data); split; reflexivity.
  - destruct (JsString.eqb (error_code error) (lit "PGRST116")); split; reflexivity.
  - split; reflexivity.
Qed.

Lemma getGoalById_replies_witness :
  fst (GoalController.getGoalById (lit "42") (sample_server (fun _ => no_rows)))
  = Ok (GoalController.refusal 404 (not_found (lit "42"))).
Proof.
  apply (proj2 (getGoalById_replies (lit "42") (sample_server (fun _ => no_rows)) eq_refl)).
Defined.

(** X20: [updateGoal] does not initialise the store.  Called with updates
    that are neither [null] nor [undefined], before any other method of the
    service, it throws the [TypeError] of reading [from] on
    [null], whether or not the key is set, and leaves the service as it was;
    once the service is initialised it sends one update that holds only
    those of the three fields that the updates define. *)
Theorem updateGoal_needs_another_call_first (id : jsstring) (updates : value) (s : Server) :
  nullish updates = false ->
  let run := StorageService.updateGoal id updates s in
  if storage_initialized s then
    queries (snd run)
    = queries s
      ++ [UpdateGoal id
            (StorageService.copied updates (lit "refined_goal")
             ++ StorageService.copied updates (lit "key_results")
             ++ StorageService.copied updates (lit "confidence_score"))]
  else
    run = (Throw (Error (Text (lit "Cannot read properties of null (reading 'from')"))), s).
Proof.
  intros Hu run. subst run. unfold StorageService.updateGoal. rewrite Hu.
  unfold sbind, StorageService.client, query.
  destruct (storage_initialized s); [|reflexivity].
  destruct (answers s 0) as [[data|error]|m]; try reflexivity.
  destruct (negb (truthy data) || is_zero (js_length data)); reflexivity.
Qed.

Lemma updateGoal_needs_another_call_first_witness :
  StorageService.updateGoal (lit "42") (VObj [(lit "confidence_score", VNum 9)])
    (sample_server (fun _ => Resolved (Data (VArr [VObj []]))))
  = (Throw (Error (Text (lit "Cannot read properties of null (reading 'from')"))),
     sample_server (fun _ => Resolved (Data (VArr [VObj []])))).
Proof.
  apply (updateGoal_needs_another_call_first (lit "42")
           (VObj [(lit "confidence_score", VNum 9)])
           (sample_server (fun _ => Resolved (Data (VArr [VObj []])))) eq_refl).
Defined.

Lemma getAllGoals_run (s : Server) :
  StorageService.getAllGoals s =
  if store_ready s then
    (match answers s 0 with
     | Resolved (Data data) => Ok (if truthy data then data else VArr [])
     | Resolved (Failure error) =>
         Throw (Error (Text (lit "Failed to fetch goals: " ++ error_text error)))
     | QueryRejected m => Throw (Error (Text m))
     end,
     asked SelectGoals s)
  else (Throw no_table_error, s).
Proof.
  unfold StorageService.getAllGoals. rewrite storage_query_run.
  destruct (store_ready s); [|reflexivity].
  destruct (answers s 0) as [[data|error]|m]; reflexivity.
Qed.

Lemma deleteGoal_run (id : jsstring) (s : Server) :
  StorageService.deleteGoal id s =
  if store_ready s then
    (match answers s 0 with
     | Resolved (Data _) => Ok tt
     | Resolved (Failure error) =>
         Throw (Error (Text (lit "Failed to delete goal: " ++ error_text error)))
     | QueryRejected m => Throw (Error (Text m))
     end,
     asked (DeleteGoal id) s)
  else (Throw no_table_error, s).
Proof.
  unfold StorageService.deleteGoal. rewrite storage_query_run.
  destruct (store_ready s); [|reflexivity].
  destruct (answers s 0) as [[data|error]|m]; reflexivity.
Qed.

(** X21: without a key for the store (the service not yet initialised), the
    routes that list, fetch and delete goals reply 500 with the message
    about SUPABASE_API_KEY, send nothing and leave the server as it was. *)
Theorem store_key_missing (s : Server) :
  store_ready s = false ->
  let refused := (Ok (GoalController.refusal 500 (message_of no_table_error)), s) in
  GoalController.getAllGoals s = refused
  /\ (forall id, GoalController.getGoalById id s = refused)
  /\ (forall id, GoalController.deleteGoal id s = refused).
Proof.
  intros Hr refused. subst refused. split; [|split].
  - unfold GoalController.getAllGoals, scatch, sbind. rewrite getAllGoals_run, Hr.
    reflexivity.
  - intros id. unfold GoalController.getGoalById, scatch, sbind.
    rewrite getGoalById_run, Hr. reflexivity.
  - intros id. unfold GoalController.deleteGoal, scatch, sbind.
    rewrite deleteGoal_run, Hr. reflexivity.
Qed.

Lemma store_key_missing_witness :
  let s := mkServer (mute_world (fun _ => overloaded)) false (fun _ => Resolved (Data (VArr []))) [] in
  GoalController.getAllGoals s
  = (Ok (GoalController.refusal 500 (message_of no_table_error)), s).
Proof.
  intros s. apply (proj1 (store_key_missing s eq_refl)).
Defined.

(** X22: the replies of the routes that list and delete goals when the store
    can be reached.  Listing sends one query and replies 200 with the rows
    and their count, the empty list and 0 when the store returns no data,
    and 500 "Failed to fetch goals: ..." on an error of the store.
    Deleting sends one query and replies 200 "Goal ... deleted
    successfully" whenever the store reports no error, whether or not a row
    was deleted, and 500 "Failed to delete goal: ..." otherwise. *)
Theorem listing_and_deleting_reply (s : Server) :
  store_ready s = true ->
  (GoalController.getAllGoals s =
   (Ok (match answers s 0 with
        | Resolved (Data data) =>
            let goals := if truthy data then data else VArr [] in
            GoalController.mkResponse 200 true None (Some goals) (Some (js_length goals))
              None None
        | Resolved (Failure error) =>
            GoalController.refusal 500
              (Text (lit "Failed to fetch goals: " ++ error_text error))
        | QueryRejected m =>
            GoalController.refusal 500 (message_or (Text m) (lit "Failed to fetch goals"))
        end),
    asked SelectGoals s))
  /\ forall id,
       GoalController.deleteGoal id s =
       (Ok (match answers s 0 with
            | Resolved (Data _) =>
                GoalController.mkResponse 200 true None None None
                  (Some (lit "Goal " ++ id ++ lit " deleted successfully")) None
            | Resolved (Failure error) =>
                GoalController.refusal 500
                  (Text (lit "Failed to delete goal: " ++ error_text error))
            | QueryRejected m =>
                GoalController.refusal 500
                  (message_or (Text m) (lit "Failed to delete goal"))
            end),
        asked (DeleteGoal id) s).
Proof.
  intros Hr. split.
  - unfold GoalController.getAllGoals, scatch, sbind. rewrite getAllGoals_run, Hr.
    destruct (answers s 0) as [[data|error]|m]; reflexivity.
  - intros id. unfold GoalController.deleteGoal, scatch, sbind.
    rewrite deleteGoal_run, Hr.
    destruct (answers s 0) as [[data|error]|m]; reflexivity.
Qed.

Lemma listing_and_deleting_reply_witness :
  fst (GoalController.deleteGoal (lit "42")
         (mkServer (sample_world (Some (lit "key")) (fun _ => overloaded)
                      (fun _ => InsertRows 1))
            false (fun _ => Resolved (Data VNull)) []))
  = Ok (GoalController.mkResponse 200 true None None None
          (Some (lit "Goal 42 deleted successfully")) None).
Proof.
  rewrite (proj2 (listing_and_deleting_reply
                    (mkServer (sample_world (Some (lit "key")) (fun _ => overloaded)
                                 (fun _ => InsertRows 1))
                       false (fun _ => Resolved (Data VNull)) [])
                    eq_refl) (lit "42")).
  reflexivity.
Defined.

Lemma getLogs_run (date : option jsstring) (s : Server) :
  sink_ready (pipeline s) = true ->
  fst (TelemetryService.getLogs date s) = Ok (logs_of s)
  /\ queries (snd (TelemetryService.getLogs date s)) = queries s ++ logs_queries date s.
Proof.
  unfold TelemetryService.getLogs, TelemetryService.getLogs_try, logs_of, logs_queries,
    sbind, scatch, lift, sink_ready, TelemetryService.initialize, query.
  destruct s as [w init ans qs]. cbn [pipeline storage_initialized answers queries].
  intros Hr.
  assert (E : (if telemetry_initialized w then (Ok tt, w)
               else if falsy (SUPABASE_API_KEY (env w))
                    then (Throw no_table_error, w)
                    else (Ok tt, mkWorld (env w) (gemini_apiKey w) true (network w)
                                   (table w) (clock w) (trace w)))
              = (Ok tt, snd (TelemetryService.initialize w))).
  { unfold TelemetryService.initialize. destruct (telemetry_initialized w); [reflexivity|].
    cbn [orb] in Hr. destruct (falsy (SUPABASE_API_KEY (env w))); [discriminate Hr|].
    reflexivity. }
  unfold no_table_error in E. rewrite E.
  cbn [fst snd pipeline storage_initialized answers queries].
  destruct (ans 0) as [r0|m0]; cbn [fst snd pipeline storage_initialized answers queries].
  - destruct (ans 1) as [[data|error]|m1];
      [destruct data as [| |b|q|t|items|fields]; [| | | |destruct t|destruct items|] | |];
      cbn [fst snd queries nullish has_slice truthy andb negb falsy];
      rewrite <- app_assoc; split; reflexivity.
  - split; reflexivity.
Qed.

(** X23: the route of the telemetry logs never reports a failure of the table.
    When the telemetry service can be initialised, the reply is always
    status 200 with [success = true]: the rows of the second query, or the
    empty list with count 0 when a query fails or is rejected; the filter
    reported is the date, or "all". *)
Theorem getAllTelemetryLogs_hides_failures (date : option jsstring) (s : Server) :
  sink_ready (pipeline s) = true ->
  let run := GoalController.getAllTelemetryLogs date s in
  fst run = Ok (GoalController.mkResponse 200 true None (Some (logs_of s))
                  (Some (js_length (logs_of s))) None (Some (date_or_all date)))
  /\ queries (snd run) = queries s ++ logs_queries date s.
Proof.
  intros Hr run. subst run.
  destruct (getLogs_run date s Hr) as [Hf Hq].
  unfold GoalController.getAllTelemetryLogs, scatch, sbind.
  destruct (TelemetryService.getLogs date s) as [[logs|e] s'] eqn:E;
    cbn [fst snd] in *; [|discriminate Hf].
  injection Hf as ->. split; [reflexivity | exact Hq].
Qed.

Lemma getAllTelemetryLogs_hides_failures_witness :
  fst (GoalController.getAllTelemetryLogs None (sample_server (fun _ => no_rows)))
  = Ok (GoalController.mkResponse 200 true None (Some (VArr [])) (Some (VNum 0)) None
          (Some (lit "all"))).
Proof.
  apply (proj1 (getAllTelemetryLogs_hides_failures None (sample_server (fun _ => no_rows))
                  eq_refl)).
Defined.
